(** * Particle animation and scroll narrative of the migration maps

    A shallow embedding of the particle engine of [www/detention_journey.js]
    (the detention-journey map and the removal-flows map that is bundled with
    it) together with the properties the design document states about it.

    Numbers are JavaScript doubles in the source.  They are embedded as
    rationals ([Q]) where the code does arithmetic on coordinates, phases and
    opacities, and as integers ([Z]) where the data are counts, which doubles
    hold exactly below 2^53.  Where what the code yields depends on the
    rounding of doubles (the digit [toFixed] keeps, a phase summed up over
    many frames) the arithmetic is done on binary64 numbers ([JS.double]).
    The few places where a division can leave the finite numbers use
    [jsnum].

    A property that may be missing is an [option] where the code treats
    [undefined] and [null] alike (a truthiness test, [x || d]); a count the
    code does arithmetic on is a [JS.numeric], which tells the two apart.

    An object used as a map is the list of its own keys in the order they
    were first assigned.  This is the object the code sees as long as its
    keys are ordinary names ([ordinaryName]): a key made of digits is
    enumerated before the others, and [Object.prototype] answers for names
    such as [constructor]; the properties that read such an object say which
    names they take to be ordinary.

    The geometry library (turf), the map's projector and the scroll detector
    are collaborators of the program and are not part of its source: they
    enter as the interface [Turf], as a projector argument and as the way
    callbacks are registered, and a call that can throw returns an
    [option]. *)

From Stdlib Require Import ZArith QArith Qround Qabs Qpower Lia Lqa List String Bool Arith.
From Stdlib Require Import DecimalString Sorted Permutation.
From Stdlib Require Floats.SpecFloat.
Import ListNotations.

(* ===================================================================== *)
(** * Part I: the program                                                 *)
(* ===================================================================== *)

(** ** JavaScript values *)

Module JS.

(** [x < y] on numbers. *)
Definition Qltb (x y : Q) : bool := negb (Qle_bool y x).

(** Truthiness of a numeric property: [undefined], [null] and [0] are falsy.
    The result is the number when it is truthy. *)
Definition truthyNum (x : option Q) : option Q :=
  match x with
  | Some q => if Qeq_bool q 0 then None else Some q
  | None => None
  end.

(** Truthiness of a string property: missing and empty strings are falsy. *)
Definition truthyStr (x : option string) : option string :=
  match x with
  | Some s => if String.eqb s EmptyString then None else Some s
  | None => None
  end.

(** [x || d] for an integer property. *)
Definition orZ (x : option Z) (d : Z) : Z :=
  match x with
  | Some z => if Z.eqb z 0 then d else z
  | None => d
  end.

(** A double that may have left the finite numbers. *)
Inductive jsnum : Type :=
| Fin (q : Q)
| PInf
| NInf
| NaN.

(** [a / b] on finite doubles. *)
Definition jsdiv (a b : Q) : jsnum :=
  if Qeq_bool b 0 then
    if Qeq_bool a 0 then NaN
    else if Qle_bool 0 a then PInf else NInf
  else Fin (a / b).

(** [d * x] for a finite [d]. *)
Definition jsmul (d : Q) (x : jsnum) : jsnum :=
  match x with
  | Fin q => Fin (d * q)
  | NaN => NaN
  | PInf => if Qeq_bool d 0 then NaN else if Qle_bool 0 d then PInf else NInf
  | NInf => if Qeq_bool d 0 then NaN else if Qle_bool 0 d then NInf else PInf
  end.

(** [s.includes(sub)]. *)
Fixpoint includes (sub s : string) : bool :=
  String.prefix sub s ||
  match s with
  | EmptyString => false
  | String _ s' => includes sub s'
  end.

(** [Math.min(a, b)] and [Math.max(a, b)] on numbers. *)
Definition min (a b : jsnum) : jsnum :=
  match a, b with
  | NaN, _ | _, NaN => NaN
  | NInf, _ | _, NInf => NInf
  | PInf, x | x, PInf => x
  | Fin p, Fin q => Fin (if Qle_bool p q then p else q)
  end.

Definition max (a b : jsnum) : jsnum :=
  match a, b with
  | NaN, _ | _, NaN => NaN
  | PInf, _ | _, PInf => PInf
  | NInf, x | x, NInf => x
  | Fin p, Fin q => Fin (if Qle_bool p q then q else p)
  end.

(** The number an argument of [Math.min] is read as: [missingNumber] is what
    a missing coordinate gives ([NaN] for an absent property, 0 for
    [null]). *)
Definition toNumber (missingNumber : jsnum) (x : option Q) : jsnum :=
  match x with
  | Some q => Fin q
  | None => missingNumber
  end.

(** A numeric property of a record where the code does arithmetic on it and
    so tells a [null] from a property that is not there. *)
Inductive numeric : Type :=
| Absent
| IsNull
| Num (z : Z).

(** The number the property is read as in a sum or a quotient: 0 for
    [null]; [None] is the [NaN] that [undefined] gives. *)
Definition numberOf (x : numeric) : option Z :=
  match x with
  | Absent => None
  | IsNull => Some 0%Z
  | Num z => Some z
  end.

(** *** Doubles *)

(** A binary64 number: 53 bits of precision, exponents below 1024. *)
Definition double : Type := SpecFloat.spec_float.

(** The double of an integer, rounded to nearest when it has more than 53
    bits. *)
Definition ofInteger (z : Z) : double :=
  SpecFloat.binary_normalize 53 1024 z 0 false.

(** [x / y], [x * y], [x + y] and [x <= y] on doubles. *)
Definition ddiv (x y : double) : double := SpecFloat.SFdiv 53 1024 x y.
Definition dmul (x y : double) : double := SpecFloat.SFmul 53 1024 x y.
Definition dadd (x y : double) : double := SpecFloat.SFadd 53 1024 x y.
Definition dleb (x y : double) : bool := SpecFloat.SFleb x y.

(** The double a decimal literal [n / d] denotes, for integers that doubles
    hold exactly: the quotient rounded to nearest. *)
Definition literal (n d : Z) : double := ddiv (ofInteger n) (ofInteger d).

(** The absolute value of a finite double that is not 0, as a rational. *)
Definition magnitude (m : positive) (e : Z) : Q :=
  inject_Z (Z.pos m) * Qpower 2 e.

End JS.

(** ** Collaborators *)

(** A position as turf takes it: [[lon, lat]]. *)
Definition coords : Type := (Q * Q)%type.

(** A point of the drawing surface. *)
Record pixel : Type := { px : Q; py : Q }.

(** The part of turf the program calls.  [along] may throw. *)
Class Turf : Type := {
  Line : Type;
  distance : coords -> coords -> Q;
  greatCircle : coords -> coords -> nat -> Line;
  along : Line -> JS.jsnum -> option coords
}.

(** [map.project]; [None] when the provider throws.  The projector follows
    the camera, so every frame receives its own. *)
Definition projector : Type := coords -> option pixel.

(** Advancing a phase by one frame: [progress += speed] and the wrap
    [if (progress >= 1) progress = startOffset], on rationals;
    [Removal.advanceDouble] is the same step on doubles. *)
Definition advance (progress speed startOffset : Q) : Q :=
  let progress' := progress + speed in
  if Qle_bool 1 progress' then startOffset else progress'.

(** The sampling distance of a visible particle:
    [distance * ((progress - startOffset) / (1 - startOffset))]. *)
Definition sampleAt (dist progress startOffset : Q) : JS.jsnum :=
  JS.jsmul dist (JS.jsdiv (progress - startOffset) (1 - startOffset)).

(** Iterating a [forEach] callback that pushes on one shared array.  The
    callback sees how many elements the array already holds ([pushed]) and
    the index of the element it is called on. *)
Fixpoint forEachPush {A B : Type} (f : nat -> nat -> A -> list B)
  (pushed i : nat) (l : list A) : list B :=
  match l with
  | [] => []
  | a :: l' =>
      let bs := f pushed i a in
      bs ++ forEachPush f (pushed + List.length bs) (S i) l'
  end.

(** Two positions with the same longitude and the same latitude. *)
Definition coincident (a b : coords) : Prop :=
  fst a == fst b /\ snd a == snd b.

(** What a frame draws, in order. *)
Inductive fillStyle : Type :=
| Hex (code : string)
| Rgba (r g b : Z) (alpha : Q).

Inductive drawCall : Type :=
| ClearRect
| FillCircle (centre : pixel) (radius : Q) (style : fillStyle)
| RequestAnimationFrame.

(** A [forEach] over the particle array whose callback updates the particle
    in place and may draw: the updated array and everything drawn. *)
Fixpoint forEachDraw {P : Type} (step : P -> P * list drawCall) (ps : list P)
  : list P * list drawCall :=
  match ps with
  | [] => ([], [])
  | p :: rest =>
      let (p', drawn) := step p in
      let (rest', drawnRest) := forEachDraw step rest in
      (p' :: rest', drawn ++ drawnRest)
  end.

(** The members of [Object.prototype]: names every object answers for
    without having them as keys. *)
Definition prototypeMembers : list string :=
  ["constructor"; "__proto__"; "hasOwnProperty"; "isPrototypeOf";
   "propertyIsEnumerable"; "toLocaleString"; "toString"; "valueOf";
   "__defineGetter__"; "__defineSetter__"; "__lookupGetter__";
   "__lookupSetter__"]%string.

Definition isDigit (c : Ascii.ascii) : bool :=
  Nat.leb 48 (Ascii.nat_of_ascii c) && Nat.leb (Ascii.nat_of_ascii c) 57.

(** A key made of digits only; the array indices, which an object
    enumerates before its other keys and in ascending order, are among
    them. *)
Definition digitsOnly (s : string) : bool :=
  negb (String.eqb s EmptyString) && forallb isDigit (list_ascii_of_string s).

(** A name that is a key like any other: an object has it only once it was
    assigned, and enumerates it in the order of assignment. *)
Definition ordinaryName (s : string) : bool :=
  negb (digitsOnly s) && negb (existsb (String.eqb s) prototypeMembers).

(** Assignment [obj[k] = v] on an object used as a map: an existing key keeps
    its place, a new key comes last.  This and the two readings below are
    those of the code for keys that are ordinary names. *)
Fixpoint assign {V : Type} (k : string) (v : V) (obj : list (string * V))
  : list (string * V) :=
  match obj with
  | [] => [(k, v)]
  | (k', v') :: rest =>
      if String.eqb k' k then (k', v) :: rest
      else (k', v') :: assign k v rest
  end.

(** [obj[k]]. *)
Fixpoint lookup {V : Type} (k : string) (obj : list (string * V)) : option V :=
  match obj with
  | [] => None
  | (k', v') :: rest => if String.eqb k' k then Some v' else lookup k rest
  end.

(** [Object.keys(obj)]. *)
Definition keys {V : Type} (obj : list (string * V)) : list string :=
  map fst obj.

(** The named camera configurations [flyTo] is called with. *)
Inductive camera : Type := DefaultCamera | WorldCamera | DetentionDefaultCamera.

(** What a scroll handler does, at once or from a timer.  [AddArticleClass]
    adds the class to the article of the section when the page has one;
    [FlyTo] is the call of [flyToDefault], [flyToWorld] or
    [flyToDetentionDefault], which flies when the map is there;
    [ShowDataSourcesOverlay] is the call of [window.showDataSourcesOverlay],
    the function that opens the overlay closing the page. *)
Inductive action : Type :=
| AddArticleClass (cls : string)
| FlyTo (target : camera)
| FadeOutCards
| ShowDataSourcesOverlay.

Inductive effect : Type :=
| Now (a : action)
| SetTimeout (delay : Z) (body : list action).




(** A scroll event as the scroll detector reports it. *)
Inductive direction : Type := up | down.

(** What the scroll detector does with the callbacks it is given by
    successive calls of [onStepExit]: it keeps every one and runs them in
    the order given, or it keeps the one given last.  The detector is not
    part of the source. *)
Inductive registry : Type := KeepsEvery | KeepsLast.

Definition registered {A : Type} (reg : registry) (callbacks : list A) : list A :=
  match reg with
  | KeepsEvery => callbacks
  | KeepsLast =>
      match rev callbacks with
      | [] => []
      | callback :: _ => [callback]
      end
  end.

Definition isDown (d : direction) : bool :=
  match d with down => true | up => false end.

(** One of the four coordinates of a pair of positions is 0: a place on the
    equator or on the prime meridian. *)
Definition onZeroLine (a b : coords) : Prop :=
  fst a == 0 \/ snd a == 0 \/ fst b == 0 \/ snd b == 0.


(** ** The detention-journey map *)

Module Detention.

Definition SEGMENT_ANIMATION_SPEED : Q := 2 # 100.
Definition DETENTION_SPEED_FACTOR : Q := 5 # 1000.
Definition BACKGROUND_PARTICLE_RADIUS : Q := 15 # 10.
Definition TRANSFERS_PER_PARTICLE : Z := 50.
Definition MAX_PARTICLES_PER_ROUTE : Z := 15.

Record place : Type := {
  lat : option Q;
  lon : option Q;
  facility_name : option string
}.

Record flow : Type := {
  origin : option place;
  destination : option place;
  count : JS.numeric
}.

(** A background particle; [pdistance] is its property [distance]. *)
Record particle `{Turf} : Type := {
  line : Line;
  pdistance : Q;
  progress : Q;
  speed : Q;
  startOffset : Q;
  type : string;
  flowIndex : nat
}.

(** [Math.min(MAX_PARTICLES_PER_ROUTE,
              Math.max(1, Math.ceil(flow.count / TRANSFERS_PER_PARTICLE)))].
    A count that is not there makes it [NaN], here [None]; a [null] count
    divides as 0 and makes it 1. *)
Definition numParticles (cnt : JS.numeric) : option Z :=
  match JS.numberOf cnt with
  | Some c =>
      Some (Z.min MAX_PARTICLES_PER_ROUTE
              (Z.max 1 (Qceiling (inject_Z c / inject_Z TRANSFERS_PER_PARTICLE))))
  | None => None
  end.

(** The body of the [flows.forEach] callback of [createDetentionParticles]:
    the particles it pushes for one flow. *)
Definition particlesOfFlow `{Turf} (flowIdx : nat) (f : flow) : list particle :=
  match origin f, destination f with
  | Some o, Some d =>
      match JS.truthyNum (lat o), JS.truthyNum (lon o),
            JS.truthyNum (lat d), JS.truthyNum (lon d) with
      | Some olat, Some olon, Some dlat, Some dlon =>
          let startCoords := (olon, olat) in
          let endCoords := (dlon, dlat) in
          if Qeq_bool olat dlat && Qeq_bool olon dlon then []
          else
            let dist := distance startCoords endCoords in
            if JS.Qltb dist (1 # 10) then []
            else
              let ln := greatCircle startCoords endCoords 50 in
              match numParticles (count f) with
              | Some n =>
                  map (fun p =>
                         {| line := ln;
                            pdistance := dist;
                            progress := inject_Z (Z.of_nat p) / inject_Z n;
                            speed := DETENTION_SPEED_FACTOR;
                            startOffset := inject_Z (Z.of_nat p) / inject_Z n;
                            type := "background";
                            flowIndex := flowIdx |})
                      (seq 0 (Z.to_nat n))
              | None => []
              end
      | _, _, _, _ => []
      end
  | _, _ => []
  end.

Definition createDetentionParticles `{Turf} (flows : list flow) : list particle :=
  forEachPush (fun _ => particlesOfFlow) 0 0 flows.

(** The particles built for the flow at index [i]. *)
Definition particlesFor `{Turf} (i : nat) (ps : list particle) : list particle :=
  filter (fun p => Nat.eqb (flowIndex p) i) ps.

(** The two ends of a flow, [[lon, lat]] each, when all four coordinates are
    there. *)
Definition endpoints (f : flow) : option (coords * coords) :=
  match origin f, destination f with
  | Some o, Some d =>
      match lat o, lon o, lat d, lon d with
      | Some olat, Some olon, Some dlat, Some dlon =>
          Some ((olon, olat), (dlon, dlat))
      | _, _, _, _ => None
      end
  | _, _ => None
  end.

(** The flow passes every early [return] of the callback. *)
Definition kept `{Turf} (f : flow) : bool :=
  match origin f, destination f with
  | Some o, Some d =>
      match JS.truthyNum (lat o), JS.truthyNum (lon o),
            JS.truthyNum (lat d), JS.truthyNum (lon d) with
      | Some olat, Some olon, Some dlat, Some dlon =>
          negb (Qeq_bool olat dlat && Qeq_bool olon dlon)
          && negb (JS.Qltb (distance (olon, olat) (dlon, dlat)) (1 # 10))
      | _, _, _, _ => false
      end
  | _, _ => false
  end.

(** The phase update of one background particle in a frame of
    [drawDetentionParticles]. *)
Definition tick `{Turf} (p : particle) : particle :=
  {| line := line p;
     pdistance := pdistance p;
     progress := advance (progress p) (speed p) (startOffset p);
     speed := speed p;
     startOffset := startOffset p;
     type := type p;
     flowIndex := flowIndex p |}.

Definition BACKGROUND_PARTICLE_COLOR : string := "#88888850".

(** The guarded [try] block of the frame, for a particle whose phase has been
    updated: the circle it draws, or nothing when the particle waits or when
    [turf.along] or the projector throws. *)
Definition draw `{Turf} (proj : projector) (p : particle) : list drawCall :=
  if Qle_bool (startOffset p) (progress p) then
    match along (line p) (sampleAt (pdistance p) (progress p) (startOffset p)) with
    | Some c =>
        match proj c with
        | Some pixel_ =>
            [FillCircle pixel_ BACKGROUND_PARTICLE_RADIUS
               (Hex BACKGROUND_PARTICLE_COLOR)]
        | None => []
        end
    | None => []
    end
  else [].

(** A particle whose phase constants are in the range the builder gives
    them. *)
Definition phased `{Turf} (p : particle) : Prop :=
  0 <= startOffset p /\ startOffset p < 1 /\ 0 <= speed p.

(** Where the [try] block places a particle; [None] when [turf.along] or the
    projector throws. *)
Definition positioned `{Turf} (proj : projector) (p : particle) : option pixel :=
  match along (line p) (sampleAt (pdistance p) (progress p) (startOffset p)) with
  | Some c => proj c
  | None => None
  end.

(** The callback of [detentionParticles.forEach] in a frame. *)
Definition stepParticle `{Turf} (proj : projector) (p : particle)
  : particle * list drawCall :=
  let p' := tick p in (p', draw proj p').

(** The particle pass of a frame of [drawDetentionParticles], skipped as a
    whole when [stopBackgroundParticles] is set. *)
Definition backgroundPass `{Turf} (proj : projector) (stopBackgroundParticles : bool)
  (ps : list particle) : list particle * list drawCall :=
  if stopBackgroundParticles then (ps, [])
  else forEachDraw (stepParticle proj) ps.

(** *** The animated point of a highlighted person *)

(** A value of [animatedPoints]; [pointProgress] is its property [progress],
    from 0 to 1 along the current segment. *)
Record animatedPoint : Type := {
  currentSegment : Z;
  pointProgress : Q;
  visible : bool;
  pulsePhase : Q;
  trail : list (pixel * Z)
}.

Record person : Type := {
  path : option (list place)
}.

(** The body of the [forEach] of [updateAnimatedPoints] for one person;
    [who] is [detentionHighlights[personIndex]]. *)
Definition updateAnimatedPoint (deltaTime : Q) (who : option person)
  (point : animatedPoint) : animatedPoint :=
  if negb (visible point) then point
  else
    match who with
    | None => point
    | Some per =>
        match path per with
        | None => point
        | Some pth =>
            let len := Z.of_nat (List.length pth) in
            if Z.ltb len 2 then point
            else
              let pulse := pulsePhase point + deltaTime * (3 # 1000) in
              let prog := pointProgress point + SEGMENT_ANIMATION_SPEED in
              if Qle_bool 1 prog then
                let seg := (currentSegment point + 1)%Z in
                if Z.leb (len - 1) seg then
                  {| currentSegment := len - 2;
                     pointProgress := 1;
                     visible := visible point;
                     pulsePhase := pulse;
                     trail := trail point |}
                else
                  {| currentSegment := seg;
                     pointProgress := 0;
                     visible := visible point;
                     pulsePhase := pulse;
                     trail := trail point |}
              else
                {| currentSegment := currentSegment point;
                   pointProgress := prog;
                   visible := visible point;
                   pulsePhase := pulse;
                   trail := trail point |}
        end
    end.

Record animatedPoints : Type := {
  person1 : animatedPoint;
  person2 : animatedPoint
}.

Definition updateAnimatedPoints (deltaTime : Q) (detentionHighlights : list person)
  (pts : animatedPoints) : animatedPoints :=
  {| person1 := updateAnimatedPoint deltaTime (nth_error detentionHighlights 0)
                  (person1 pts);
     person2 := updateAnimatedPoint deltaTime (nth_error detentionHighlights 1)
                  (person2 pts) |}.

Definition resetAnimatedPoint (point : animatedPoint) : animatedPoint :=
  {| currentSegment := 0;
     pointProgress := 0;
     visible := false;
     pulsePhase := 0;
     trail := [] |}.

Definition startPersonAnimation (point : animatedPoint) : animatedPoint :=
  let point' := resetAnimatedPoint point in
  {| currentSegment := currentSegment point';
     pointProgress := pointProgress point';
     visible := true;
     pulsePhase := pulsePhase point';
     trail := trail point' |}.

(** Repeated updates of one point, the frame times given in order. *)
Fixpoint updates (who : option person) (deltas : list Q) (point : animatedPoint)
  : animatedPoint :=
  match deltas with
  | [] => point
  | dt :: rest => updates who rest (updateAnimatedPoint dt who point)
  end.

(** The frames of the animation, the frame times given in order. *)
Fixpoint frames (detentionHighlights : list person) (deltas : list Q)
  (pts : animatedPoints) : animatedPoints :=
  match deltas with
  | [] => pts
  | dt :: rest =>
      frames detentionHighlights rest
        (updateAnimatedPoints dt detentionHighlights pts)
  end.

(** The point of the person at index [personIndex] of [['person1', 'person2']]. *)
Definition pointOf (personIndex : nat) (pts : animatedPoints) : animatedPoint :=
  match personIndex with
  | O => person1 pts
  | _ => person2 pts
  end.

(** The point rests at the end of the last segment of the path. *)
Definition atDestination (pth : list place) (point : animatedPoint) : Prop :=
  currentSegment point = (Z.of_nat (List.length pth) - 2)%Z
  /\ pointProgress point = 1.

(** The phase of a segment after [k] updates that do not complete it. *)
Fixpoint phaseAfter (k : nat) : Q :=
  match k with
  | O => 0
  | S k' => phaseAfter k' + SEGMENT_ANIMATION_SPEED
  end.

(** *** Leaving a step of the detention narrative *)

Record response : Type := {
  className : string;
  scrollDirection : direction
}.

(** The first handler given to [onStepExit] in [initDetentionScrollytelling]. *)
Definition onStepExitTransition (r : response) : list effect :=
  if JS.includes "interactive-step" (className r) && isDown (scrollDirection r) then
    [Now (AddArticleClass "exiting");
     SetTimeout 100 [FlyTo DetentionDefaultCamera; FadeOutCards]]
  else [].

(** The second handler given to [onStepExit]; [overlayHook] tells whether
    [window.showDataSourcesOverlay] is set when the timer fires, as it is
    once the script has run to its end. *)
Definition onStepExitNotify (overlayHook : bool) (r : response) : list effect :=
  if JS.includes "interactive-step" (className r) && isDown (scrollDirection r) then
    [SetTimeout 500 (if overlayHook then [ShowDataSourcesOverlay] else [])]
  else [].

(** What leaving a step sets off: the handlers [initDetentionScrollytelling]
    gives to [onStepExit], as far as the detector has kept them, each run on
    the response. *)
Definition onStepExit (reg : registry) (overlayHook : bool) (r : response)
  : list effect :=
  flat_map (fun callback => callback r)
    (registered reg [onStepExitTransition; onStepExitNotify overlayHook]).

(** *** The detention counter *)

(** The text [updateDetentionCounter] writes,
    [Detention ${currentDetention} of ${totalDetentions}: ${facility.facility_name}]. *)
Record counterText : Type := {
  currentDetention : Z;
  totalDetentions : Z;
  facilityName : option string
}.

(** The element of a counter, if the page has it, with the text written to
    it so far. *)
Inductive counterEl : Type :=
| NoElement
| Element (text : option counterText).

(** [arr[i]] for an integer [i]. *)
Definition itemAt {A : Type} (i : Z) (arr : list A) : option A :=
  if Z.ltb i 0 then None else nth_error arr (Z.to_nat i).

(** The facility the point is at or moves toward. *)
Definition currentFacilityIndex (pth : list place) (point : animatedPoint) : Z :=
  if JS.Qltb (pointProgress point) (1 # 2) then currentSegment point
  else Z.min (currentSegment point + 1) (Z.of_nat (List.length pth) - 1).

(** The body of the [forEach] of [updateDetentionCounter] for one person and
    the element of that person's counter. *)
Definition updateCounter (who : option person) (point : animatedPoint)
  (el : counterEl) : counterEl :=
  if negb (visible point) then el
  else
    match who with
    | None => el
    | Some per =>
        match path per with
        | None => el
        | Some pth =>
            let idx := currentFacilityIndex pth point in
            match el, itemAt idx pth with
            | Element _, Some facility =>
                Element (Some {| currentDetention := idx + 1;
                                 totalDetentions := Z.of_nat (List.length pth);
                                 facilityName := facility_name facility |})
            | _, _ => el
            end
        end
    end.

Definition updateDetentionCounter (detentionHighlights : list person)
  (pts : animatedPoints) (els : counterEl * counterEl) : counterEl * counterEl :=
  (updateCounter (nth_error detentionHighlights 0) (person1 pts) (fst els),
   updateCounter (nth_error detentionHighlights 1) (person2 pts) (snd els)).

(** *** The camera on the journey of a person *)

(** The box [[[west, south], [east, north]]] given to [fitBounds]. *)
Definition bounds : Type := ((JS.jsnum * JS.jsnum) * (JS.jsnum * JS.jsnum))%type.

(** The callback of [coords.reduce] in [focusOnPerson]. *)
Definition widen (missingNumber : JS.jsnum) (b : bounds)
  (coord : option Q * option Q) : bounds :=
  ((JS.min (fst (fst b)) (JS.toNumber missingNumber (fst coord)),
    JS.min (snd (fst b)) (JS.toNumber missingNumber (snd coord))),
   (JS.max (fst (snd b)) (JS.toNumber missingNumber (fst coord)),
    JS.max (snd (snd b)) (JS.toNumber missingNumber (snd coord)))).

(** What [focusOnPerson] does: nothing, an exception (a person without
    [path], or with an empty one, where [coords[0][0]] cannot be read), or
    the call of [fitBounds]. *)
Inductive focus : Type :=
| NoFocus
| FocusThrows
| FitBounds (bbox : bounds).

(** [focusOnPerson]; [who] is [detentionHighlights[personIndex]].  The first
    coordinates start the box and are read again by the first call of the
    callback, where [Math.min] and [Math.max] turn them into numbers. *)
Definition focusOnPerson (missingNumber : JS.jsnum) (detentionMap : bool)
  (who : option person) : focus :=
  if negb detentionMap then NoFocus
  else
    match who with
    | None => NoFocus
    | Some per =>
        match path per with
        | None => FocusThrows
        | Some pth =>
            let coords := map (fun p => (lon p, lat p)) pth in
            match coords with
            | [] => FocusThrows
            | first :: _ =>
                let west := JS.toNumber missingNumber (fst first) in
                let south := JS.toNumber missingNumber (snd first) in
                FitBounds (fold_left (widen missingNumber) coords
                             ((west, south), (west, south)))
            end
        end
    end.

(** The facility has both coordinates. *)
Definition located (p : place) : bool :=
  match lon p, lat p with
  | Some _, Some _ => true
  | _, _ => false
  end.

(** *** Entering a step of the detention narrative *)

(** The values of [currentHighlight]; [Unset] is the initial [null]. *)
Inductive highlight : Type :=
| Unset
| none
| onPerson1
| onPerson2
| chicago
| facility1
| facility2.

(** The camera of a featured location. *)
Record locationCamera : Type := {
  camCenter : coords;
  camZoom : Q;
  camPitch : Q;
  camBearing : Q
}.

(** An element of [detentionStatistics.featured_locations]; reading
    [camera.center] of a location without camera throws. *)
Record location : Type := { locCamera : option locationCamera }.

(** Where the steps send the camera: [flyToDetentionDefault] (speed 0.6),
    the Chicago step (zoom 9, speed 0.7), a facility step (speed 0.7). *)
Inductive flight : Type :=
| ToDefault
| ToChicago (center : coords) (pitch bearing : Q)
| ToFacility (center : coords) (zoom : Q).

(** What the handler asks for: a flight, the box of [focusOnPerson], or the
    first frame of [drawDetentionParticles]. *)
Inductive storyCall : Type :=
| Flight (f : flight)
| Fit (bbox : bounds)
| DrawDetentionParticles.

(** The globals the handler of [onStepEnter] writes, the map being there or
    not. *)
Record story : Type := {
  currentHighlight : highlight;
  stopBackgroundParticles : bool;
  detentionAnimationActive : bool;
  points : animatedPoints;
  detentionMap : bool;
  interactions : bool
}.

(** [animatedPoints[personKey].visible = false]. *)
Definition hidden (point : animatedPoint) : animatedPoint :=
  {| currentSegment := currentSegment point;
     pointProgress := pointProgress point;
     visible := false;
     pulsePhase := pulsePhase point;
     trail := trail point |}.

Definition flyToDetentionDefault (st : story) : list storyCall :=
  if negb (detentionMap st) then [] else [Flight ToDefault].

Definition enableDetentionMapInteractions (st : story) : story :=
  if negb (detentionMap st) then st
  else
    {| currentHighlight := currentHighlight st;
       stopBackgroundParticles := stopBackgroundParticles st;
       detentionAnimationActive := detentionAnimationActive st;
       points := points st;
       detentionMap := detentionMap st;
       interactions := true |}.

(** The state after the assignments that open a branch of the handler. *)
Definition staged (h : highlight) (stop : bool) (pts : animatedPoints)
  (st : story) : story :=
  {| currentHighlight := h;
     stopBackgroundParticles := stop;
     detentionAnimationActive := detentionAnimationActive st;
     points := pts;
     detentionMap := detentionMap st;
     interactions := interactions st |}.

Definition bothHidden (pts : animatedPoints) : animatedPoints :=
  {| person1 := hidden (person1 pts); person2 := hidden (person2 pts) |}.

(** The flight to the featured location at index [i], if the statistics
    have it; nothing is flown when reading the camera, or calling a map
    that is not there, throws. *)
Definition flyToFeatured (statistics : option (list (option location)))
  (i : nat) (st : story) : list storyCall :=
  match statistics with
  | Some featured_locations =>
      match nth_error featured_locations i with
      | Some (Some loc) =>
          match locCamera loc with
          | Some cam =>
              if negb (detentionMap st) then []
              else
                match i with
                | O => [Flight (ToChicago (camCenter cam) (camPitch cam)
                                  (camBearing cam))]
                | _ => [Flight (ToFacility (camCenter cam) (camZoom cam))]
                end
          | None => []
          end
      | _ => []
      end
  | None => []
  end.

Definition fitPerson (missingNumber : JS.jsnum) (who : option person)
  (st : story) : list storyCall :=
  match focusOnPerson missingNumber (detentionMap st) who with
  | FitBounds bbox => [Fit bbox]
  | _ => []
  end.

(** The handler given to [onStepEnter], for the class name of the step
    entered.  The frame the intro step starts finds both points hidden and
    leaves these globals as they are. *)
Definition onStepEnter (missingNumber : JS.jsnum)
  (detentionHighlights : list person)
  (detentionStatistics : option (list (option location)))
  (stepClass : string) (st : story) : story * list storyCall :=
  if JS.includes "intro-step" stepClass then
    let st := staged none false (bothHidden (points st)) st in
    let flown := flyToDetentionDefault st in
    if detentionAnimationActive st then (st, flown)
    else
      ({| currentHighlight := currentHighlight st;
          stopBackgroundParticles := stopBackgroundParticles st;
          detentionAnimationActive := true;
          points := points st;
          detentionMap := detentionMap st;
          interactions := interactions st |},
       flown ++ [DrawDetentionParticles])
  else if JS.includes "chicago-step" stepClass then
    let st := staged chicago (stopBackgroundParticles st)
                (bothHidden (points st)) st in
    (st, flyToFeatured detentionStatistics 0 st)
  else if JS.includes "facility1-step" stepClass then
    let st := staged facility1 (stopBackgroundParticles st)
                (bothHidden (points st)) st in
    (st, flyToFeatured detentionStatistics 1 st)
  else if JS.includes "facility2-step" stepClass then
    let st := staged facility2 (stopBackgroundParticles st)
                (bothHidden (points st)) st in
    (st, flyToFeatured detentionStatistics 2 st)
  else if JS.includes "story1-step" stepClass then
    let st := staged onPerson1 (stopBackgroundParticles st)
                {| person1 := startPersonAnimation (person1 (points st));
                   person2 := hidden (person2 (points st)) |} st in
    (st, fitPerson missingNumber (nth_error detentionHighlights 0) st)
  else if JS.includes "story2-step" stepClass then
    let st := staged onPerson2 (stopBackgroundParticles st)
                {| person1 := hidden (person1 (points st));
                   person2 := startPersonAnimation (person2 (points st)) |} st in
    (st, fitPerson missingNumber (nth_error detentionHighlights 1) st)
  else if JS.includes "reflection-step" stepClass then
    let st := staged none (stopBackgroundParticles st)
                (bothHidden (points st)) st in
    (st, flyToDetentionDefault st)
  else if JS.includes "interactive-step" stepClass then
    let st := staged none (stopBackgroundParticles st)
                (bothHidden (points st)) st in
    let flown := flyToDetentionDefault st in
    (enableDetentionMapInteractions
       (staged none true (points st) st), flown)
  else (st, []).

(** The globals when the handlers are set up: the map is loaded, its
    interactions are disabled, nothing is highlighted. *)
Definition initialStory : story :=
  {| currentHighlight := none;
     stopBackgroundParticles := false;
     detentionAnimationActive := false;
     points := {| person1 := {| currentSegment := 0; pointProgress := 0;
                                visible := false; pulsePhase := 0;
                                trail := [] |};
                  person2 := {| currentSegment := 0; pointProgress := 0;
                                visible := false; pulsePhase := 0;
                                trail := [] |} |};
     detentionMap := true;
     interactions := false |}.

(** A step is entered, or a frame updates the animated points. *)
Inductive storyEvent : Type :=
| Enter (stepClass : string)
| Update (deltaTime : Q).

Definition storyStep (missingNumber : JS.jsnum)
  (detentionHighlights : list person)
  (detentionStatistics : option (list (option location)))
  (ev : storyEvent) (st : story) : story * list storyCall :=
  match ev with
  | Enter stepClass =>
      onStepEnter missingNumber detentionHighlights detentionStatistics
        stepClass st
  | Update deltaTime =>
      (staged (currentHighlight st) (stopBackgroundParticles st)
         (updateAnimatedPoints deltaTime detentionHighlights (points st)) st,
       [])
  end.

Fixpoint storyRun (missingNumber : JS.jsnum)
  (detentionHighlights : list person)
  (detentionStatistics : option (list (option location)))
  (evs : list storyEvent) (st : story) : story * list storyCall :=
  match evs with
  | [] => (st, [])
  | ev :: rest =>
      let (st', calls) :=
        storyStep missingNumber detentionHighlights detentionStatistics ev st in
      let (st'', more) :=
        storyRun missingNumber detentionHighlights detentionStatistics rest st' in
      (st'', calls ++ more)
  end.

(** The point of a person is shown exactly while that person is
    highlighted. *)
Definition inStep (st : story) : Prop :=
  (visible (person1 (points st)) = true <-> currentHighlight st = onPerson1)
  /\ (visible (person2 (points st)) = true <-> currentHighlight st = onPerson2).

(** The event is not the entry of an intro step. *)
Definition notIntro (ev : storyEvent) : bool :=
  match ev with
  | Enter stepClass => negb (JS.includes "intro-step" stepClass)
  | Update _ => true
  end.

Definition isDrawDetentionParticles (c : storyCall) : bool :=
  match c with DrawDetentionParticles => true | _ => false end.

(** *** The facilities of the map *)

(** An end of a flow as [addFacilityMarkers] reads it. *)
Record facilityRef : Type := {
  facility_code : option string;
  facility : place;
  city : option string;
  state : option string
}.

(** A flow as [addFacilityMarkers] reads it; [tCount] is its [count]. *)
Record transfer : Type := {
  tOrigin : option facilityRef;
  tDestination : option facilityRef;
  tCount : JS.numeric
}.

(** The number [+= flow.count] adds: 0 for a [null] count, and [NaN], here
    [None], for a count that is not there. *)
Definition countOf (flow : transfer) : option Z := JS.numberOf (tCount flow).















(** The flow has both ends and a count. *)
Definition complete (flow : transfer) : bool :=
  match tOrigin flow, tDestination flow, countOf flow with
  | Some _, Some _, Some _ => true
  | _, _, _ => false
  end.




(** *** A frame of the detention animation *)

(** The readings of [Date.now()] during a frame, in the order they are
    taken. *)
Definition clock : Type := nat -> Z.

(** [point.trail.filter(t => Date.now() - t.time < 200)], each test taking a
    reading of its own, from reading [n] on. *)
Fixpoint keepRecent (now : clock) (n : nat) (trail : list (pixel * Z))
  : list (pixel * Z) :=
  match trail with
  | [] => []
  | t :: rest =>
      (if Z.ltb (now n - snd t) 200 then [t] else [])
      ++ keepRecent now (S n) rest
  end.

(** What a frame draws: the calls of the particle pass, and for an animated
    point the firefly at its pixel, with the phase of its pulse and the
    trail it keeps, which give the dots of the trail, the glow, the point
    and its centre. *)
Inductive frameCall : Type :=
| Plain (d : drawCall)
| Firefly (personIndex : nat) (centre : pixel) (pulse : Q)
    (trail : list (pixel * Z)).

Definition withTrail (kept : list (pixel * Z)) (point : animatedPoint)
  : animatedPoint :=
  {| currentSegment := currentSegment point;
     pointProgress := pointProgress point;
     visible := visible point;
     pulsePhase := pulsePhase point;
     trail := kept |}.

(** The body of the [forEach] of [drawAnimatedPoints] for one person, from
    reading [n] of the clock on: the point, the next reading and what is
    drawn, or [None] when the body throws ([turf.along] or the projector
    does, or the path has no facility at the segment). *)
Definition drawAnimatedPoint `{Turf} (proj : projector) (now : clock) (n : nat)
  (personIndex : nat) (who : option person) (point : animatedPoint)
  : option (animatedPoint * nat * list frameCall) :=
  if negb (visible point) then Some (point, n, [])
  else
    match who with
    | None => Some (point, n, [])
    | Some per =>
        match path per with
        | None => Some (point, n, [])
        | Some pth =>
            let len := Z.of_nat (List.length pth) in
            if Z.ltb len 2 then Some (point, n, [])
            else if Z.leb (len - 1) (currentSegment point)
            then Some (point, n, [])
            else
              match itemAt (currentSegment point) pth,
                    itemAt (currentSegment point + 1) pth with
              | Some start, Some end_ =>
                  match JS.truthyNum (lat start), JS.truthyNum (lon start),
                        JS.truthyNum (lat end_), JS.truthyNum (lon end_) with
                  | Some slat, Some slon, Some elat, Some elon =>
                      let startCoords := (slon, slat) in
                      let endCoords := (elon, elat) in
                      let dist := distance startCoords endCoords in
                      let ln := greatCircle startCoords endCoords 50 in
                      match along ln (JS.Fin (dist * pointProgress point)) with
                      | Some c =>
                          match proj c with
                          | Some pixel_ =>
                              let pushed := trail point ++ [(pixel_, now n)] in
                              let kept := keepRecent now (S n) pushed in
                              Some (withTrail kept point,
                                    (S n + List.length pushed)%nat,
                                    [Firefly personIndex pixel_
                                       (pulsePhase point) kept])
                          | None => None
                          end
                      | None => None
                      end
                  | _, _, _, _ => Some (point, n, [])
                  end
              | _, _ => None
              end
        end
    end.

(** How [drawAnimatedPoints] ends: after both persons, or with the exception
    of one of them, the points being as the bodies that ran have left
    them. *)
Inductive pointsPass : Type :=
| Passed (pts : animatedPoints) (calls : list frameCall)
| Aborted (pts : animatedPoints) (calls : list frameCall).

Definition drawAnimatedPoints `{Turf} (proj : projector) (now : clock) (n : nat)
  (surface : bool) (detentionHighlights : list person) (pts : animatedPoints)
  : pointsPass :=
  if negb surface then Passed pts []
  else
    match drawAnimatedPoint proj now n 0 (nth_error detentionHighlights 0)
            (person1 pts) with
    | None => Aborted pts []
    | Some (p1, n1, calls1) =>
        match drawAnimatedPoint proj now n1 1 (nth_error detentionHighlights 1)
                (person2 pts) with
        | None => Aborted {| person1 := p1; person2 := person2 pts |} calls1
        | Some (p2, _, calls2) =>
            Passed {| person1 := p1; person2 := p2 |} (calls1 ++ calls2)
        end
    end.

(** The globals a frame reads and writes, beside those of the step
    handler. *)
Record stage `{Turf} : Type := {
  globals : story;
  detentionCanvas : bool;
  detentionCtx : bool;
  detentionParticles : list particle;
  detentionHighlights : list person;
  counters : counterEl * counterEl;
  lastFrameTime : Z
}.

Definition withDetentionParticles `{Turf} (ps : list particle) (st : stage)
  : stage :=
  {| globals := globals st;
     detentionCanvas := detentionCanvas st;
     detentionCtx := detentionCtx st;
     detentionParticles := ps;
     detentionHighlights := detentionHighlights st;
     counters := counters st;
     lastFrameTime := lastFrameTime st |}.

(** [drawDetentionParticles]: the stage after the frame and what it draws
    and asks for.  Reading 0 of the clock is [currentTime]; the readings of
    [drawAnimatedPoints] follow. *)
Definition drawDetentionParticles `{Turf} (proj : projector) (now : clock)
  (st : stage) : stage * list frameCall :=
  if negb (detentionAnimationActive (globals st))
     || negb (detentionCanvas st) || negb (detentionCtx st)
  then (st, [])
  else
    let currentTime := now 0%nat in
    let deltaTime := (currentTime - lastFrameTime st)%Z in
    let (ps, drawn) :=
      backgroundPass proj (stopBackgroundParticles (globals st))
        (detentionParticles st) in
    let moved := updateAnimatedPoints (inject_Z deltaTime)
                   (detentionHighlights st) (points (globals st)) in
    let after (pts : animatedPoints) (els : counterEl * counterEl) :=
      {| globals := staged (currentHighlight (globals st))
                      (stopBackgroundParticles (globals st)) pts (globals st);
         detentionCanvas := detentionCanvas st;
         detentionCtx := detentionCtx st;
         detentionParticles := ps;
         detentionHighlights := detentionHighlights st;
         counters := els;
         lastFrameTime := currentTime |} in
    match drawAnimatedPoints proj now 1
            (detentionCanvas st && detentionCtx st
             && detentionMap (globals st))
            (detentionHighlights st) moved with
    | Passed pts calls =>
        (after pts (updateDetentionCounter (detentionHighlights st) pts
                      (counters st)),
         Plain ClearRect :: map Plain drawn ++ calls
         ++ [Plain RequestAnimationFrame])
    | Aborted pts calls =>
        (after pts (counters st),
         Plain ClearRect :: map Plain drawn ++ calls)
    end.

(** The facility has coordinates that are not 0. *)
Definition charted (p : place) : bool :=
  match JS.truthyNum (lat p), JS.truthyNum (lon p) with
  | Some _, Some _ => true
  | _, _ => false
  end.

Definition isNextFrame (c : frameCall) : bool :=
  match c with
  | Plain RequestAnimationFrame => true
  | _ => false
  end.

End Detention.


(** ** The removal-flows map *)

Module Removal.

Definition SPEED_FACTOR : Q := 9 # 10000.
Definition PARTICLE_RADIUS : Q := 18 # 10.

Record place : Type := {
  lat : option Q;
  lon : option Q;
  name : option string
}.

Record flow : Type := {
  origin : option place;
  destination : option place;
  count : option Z;
  scaled_count : option Z
}.

Inductive color : Type := red | gray.

(** A particle; [pdistance] and [pcolor] are its properties [distance] and
    [color]. *)
Record particle `{Turf} : Type := {
  line : Line;
  pdistance : Q;
  progress : Q;
  speed : Q;
  startOffset : Q;
  flowIndex : nat;
  particleIndex : nat;
  destinationName : option string;
  filtered : bool;
  opacity : Q;
  pcolor : color
}.

(** The test of the filter in [loadData]: both endpoints are present and
    their coordinates are truthy. *)
Definition hasCoordinates (f : flow) : bool :=
  match origin f, destination f with
  | Some o, Some d =>
      match JS.truthyNum (lat o), JS.truthyNum (lon o),
            JS.truthyNum (lat d), JS.truthyNum (lon d) with
      | Some _, Some _, Some _, Some _ => true
      | _, _, _, _ => false
      end
  | _, _ => false
  end.

Definition loadData (allFlows : list flow) : list flow :=
  filter hasCoordinates allFlows.

(** The body of the [flows.forEach] callback of [createParticles].  [random k]
    is the value of the [k]-th call of [Math.random] of the build; every push
    makes one call, so the particle pushed at position [n] of the array
    receives [random n]. *)
Definition particlesOfFlow `{Turf} (random : nat -> Q) (pushed flowIdx : nat)
  (f : flow) : list particle :=
  match origin f, destination f with
  | Some o, Some d =>
      match JS.truthyNum (lat o), JS.truthyNum (lon o),
            JS.truthyNum (lat d), JS.truthyNum (lon d) with
      | Some olat, Some olon, Some dlat, Some dlon =>
          let start := (olon, olat) in
          let end_ := (dlon, dlat) in
          if Qeq_bool olat dlat && Qeq_bool olon dlon then []
          else
            let dist := distance start end_ in
            if JS.Qltb dist 1 then []
            else
              let ln := greatCircle start end_ 100 in
              let n := JS.orZ (scaled_count f) 1 in
              map (fun i =>
                     {| line := ln;
                        pdistance := dist;
                        progress := 0;
                        speed := SPEED_FACTOR;
                        startOffset := random (pushed + i)%nat;
                        flowIndex := flowIdx;
                        particleIndex := i;
                        destinationName := name d;
                        filtered := false;
                        opacity := 1;
                        pcolor := red |})
                  (seq 0 (Z.to_nat n))
      | _, _, _, _ => []
      end
  | _, _ => []
  end.

(** The guard of the callback,
    [!flow.origin.lat || !flow.origin.lon || !flow.destination.lat
     || !flow.destination.lon], returns unless it reads a coordinate of an
    end that is not there: the origin is read first, the destination only
    when both coordinates of the origin are truthy. *)
Definition guardReturns (f : flow) : bool :=
  match origin f with
  | None => false
  | Some o =>
      match JS.truthyNum (lat o), JS.truthyNum (lon o) with
      | Some _, Some _ =>
          match destination f with
          | Some _ => true
          | None => false
          end
      | _, _ => true
      end
  end.

(** [createParticles]; [None] when the callback throws. *)
Definition createParticles `{Turf} (random : nat -> Q) (flows : list flow)
  : option (list particle) :=
  if forallb guardReturns flows
  then Some (forEachPush (particlesOfFlow random) 0 0 flows)
  else None.

(** The particles built for the flow at index [i]. *)
Definition particlesFor `{Turf} (i : nat) (ps : list particle) : list particle :=
  filter (fun p => Nat.eqb (flowIndex p) i) ps.

(** The two ends of a flow, [[lon, lat]] each, when all four coordinates are
    there. *)
Definition endpoints (f : flow) : option (coords * coords) :=
  match origin f, destination f with
  | Some o, Some d =>
      match lat o, lon o, lat d, lon d with
      | Some olat, Some olon, Some dlat, Some dlon =>
          Some ((olon, olat), (dlon, dlat))
      | _, _, _, _ => None
      end
  | _, _ => None
  end.

(** The flow passes every early [return] of the callback. *)
Definition kept `{Turf} (f : flow) : bool :=
  match origin f, destination f with
  | Some o, Some d =>
      match JS.truthyNum (lat o), JS.truthyNum (lon o),
            JS.truthyNum (lat d), JS.truthyNum (lon d) with
      | Some olat, Some olon, Some dlat, Some dlon =>
          negb (Qeq_bool olat dlat && Qeq_bool olon dlon)
          && negb (JS.Qltb (distance (olon, olat) (dlon, dlat)) 1)
      | _, _, _, _ => false
      end
  | _, _ => false
  end.

(** *** A frame *)

Definition withProgress `{Turf} (q : Q) (p : particle) : particle :=
  {| line := line p;
     pdistance := pdistance p;
     progress := q;
     speed := speed p;
     startOffset := startOffset p;
     flowIndex := flowIndex p;
     particleIndex := particleIndex p;
     destinationName := destinationName p;
     filtered := filtered p;
     opacity := opacity p;
     pcolor := pcolor p |}.

Definition tick `{Turf} (p : particle) : particle :=
  withProgress (advance (progress p) (speed p) (startOffset p)) p.

(** The same phase on doubles, as the frames sum it up: [SPEED_FACTOR] is
    the double of the literal [0.0009], and [>=] compares doubles. *)
Definition SPEED_FACTOR_double : JS.double := JS.literal 9 10000.

Definition advanceDouble (progress speed startOffset : JS.double) : JS.double :=
  let progress' := JS.dadd progress speed in
  if JS.dleb (JS.ofInteger 1) progress' then startOffset else progress'.

(** The phases a particle has in its next [n] frames, in order. *)
Fixpoint phasesDouble (n : nat) (progress speed startOffset : JS.double)
  : list JS.double :=
  match n with
  | O => []
  | S k =>
      let progress' := advanceDouble progress speed startOffset in
      progress' :: phasesDouble k progress' speed startOffset
  end.

(** [p.progress >= p.startOffset], the test a frame draws the particle
    on. *)
Definition reached (progress startOffset : JS.double) : bool :=
  JS.dleb startOffset progress.

(** [baseOpacity * (p.opacity || 1.0)] and the colour chosen from [p.color]. *)
Definition styleOf `{Turf} (p : particle) : fillStyle :=
  let finalOpacity := (1 # 2) * (if Qeq_bool (opacity p) 0 then 1 else opacity p) in
  match pcolor p with
  | gray => Rgba 128 128 128 finalOpacity
  | red => Rgba 255 0 0 finalOpacity
  end.

(** The guarded [try] block for a particle whose phase has been updated. *)
Definition draw `{Turf} (proj : projector) (p : particle) : list drawCall :=
  if Qle_bool (startOffset p) (progress p) then
    match along (line p) (sampleAt (pdistance p) (progress p) (startOffset p)) with
    | Some c =>
        match proj c with
        | Some pixel_ => [FillCircle pixel_ PARTICLE_RADIUS (styleOf p)]
        | None => []
        end
    | None => []
    end
  else [].

Definition stepParticle `{Turf} (proj : projector) (p : particle)
  : particle * list drawCall :=
  let p' := tick p in (p', draw proj p').

(** A particle whose phase constants are in the range the builder gives
    them. *)
Definition phased `{Turf} (p : particle) : Prop :=
  0 <= startOffset p /\ startOffset p < 1 /\ 0 <= speed p.

(** The key of the destination filter. *)
Inductive filterKey : Type :=
| Undefined
| Null
| Key (destinationName : string).

Record state `{Turf} : Type := {
  animationActive : bool;
  canvas : bool;
  ctx : bool;
  particles : list particle;
  selectedCountryName : filterKey
}.

Definition withParticles `{Turf} (ps : list particle) (st : state) : state :=
  {| animationActive := animationActive st;
     canvas := canvas st;
     ctx := ctx st;
     particles := ps;
     selectedCountryName := selectedCountryName st |}.

(** Where the [try] block places a particle; [None] when [turf.along] or the
    projector throws. *)
Definition positioned `{Turf} (proj : projector) (p : particle) : option pixel :=
  match along (line p) (sampleAt (pdistance p) (progress p) (startOffset p)) with
  | Some c => proj c
  | None => None
  end.

(** One frame of [drawParticles] under the projector of that frame. *)
Definition drawParticles `{Turf} (proj : projector) (st : state)
  : state * list drawCall :=
  if negb (animationActive st) || negb (canvas st) || negb (ctx st) then (st, [])
  else
    let (ps, drawn) := forEachDraw (stepParticle proj) (particles st) in
    (withParticles ps st, ClearRect :: drawn ++ [RequestAnimationFrame]).

(** *** The destination filter *)

(** [p.destinationName !== destinationName] for a string key. *)
Definition differsFrom (pname : option string) (key : string) : bool :=
  match pname with
  | Some s => negb (String.eqb s key)
  | None => true
  end.

Definition restyle `{Turf} (f : bool) (o : Q) (c : color) (p : particle) : particle :=
  {| line := line p;
     pdistance := pdistance p;
     progress := progress p;
     speed := speed p;
     startOffset := startOffset p;
     flowIndex := flowIndex p;
     particleIndex := particleIndex p;
     destinationName := destinationName p;
     filtered := f;
     opacity := o;
     pcolor := c |}.

(** The callback of [particles.forEach] in [filterParticlesByDestination]. *)
Definition applyKey `{Turf} (key : filterKey) (p : particle) : particle :=
  match key with
  | Undefined => restyle false 1 red p
  | Null => restyle true (2 # 10) gray p
  | Key k =>
      let f := differsFrom (destinationName p) k in
      restyle f (if f then 5 # 10 else 1) (if f then gray else red) p
  end.

Definition filterParticlesByDestination `{Turf} (key : filterKey) (st : state)
  : state :=
  if negb (canvas st) || negb (ctx st) || Nat.eqb (List.length (particles st)) 0
  then st
  else
    {| animationActive := animationActive st;
       canvas := canvas st;
       ctx := ctx st;
       particles := map (applyKey key) (particles st);
       selectedCountryName := key |}.

(** What a viewer can tell of a particle: its colour tag and opacity. *)
Definition look `{Turf} (p : particle) : bool * Q * color :=
  (filtered p, opacity p, pcolor p).

(** *** Aggregation by destination *)

(** The result of [toFixed(1)]: the sign and the number of tenths of a
    decimal with one fractional digit; from 10^21 on the number itself,
    where [toFixed] gives the text of the number, which is not spelled out
    here; or one of the texts of a number that is not finite. *)
Inductive fixed1 : Type :=
| Decimal (negative : bool) (tenths : Z)
| Large (x : JS.double)
| TextNaN
| TextInfinity
| TextNegInfinity.

(** [x.toFixed(1)].  Below 10^21 the digits are those of the integer [n]
    for which [n / 10] is nearest to the absolute value of [x], the larger
    one when two are as near, behind the sign of [x]; a zero has no sign. *)
Definition toFixed1 (x : JS.double) : fixed1 :=
  match x with
  | SpecFloat.S754_nan => TextNaN
  | SpecFloat.S754_infinity negative =>
      if negative then TextNegInfinity else TextInfinity
  | SpecFloat.S754_zero _ => Decimal false 0
  | SpecFloat.S754_finite negative m e =>
      let a := JS.magnitude m e in
      if Qle_bool (inject_Z (10 ^ 21)) a then Large x
      else Decimal negative (Qfloor (a * 10 + (1 # 2)))
  end.

(** The text [toFixed(1)] returns. *)
Definition render (x : fixed1) : option string :=
  match x with
  | Decimal negative t =>
      Some ((if negative then "-" else "") ++
            NilZero.string_of_uint (N.to_uint (Z.to_N (t / 10))) ++ "." ++
            NilZero.string_of_uint (N.to_uint (Z.to_N (t mod 10))))%string
  | Large _ => None
  | TextNaN => Some "NaN"%string
  | TextInfinity => Some "Infinity"%string
  | TextNegInfinity => Some "-Infinity"%string
  end.

(** [(origins[name] / aggregated[dest].total) * 100] on the doubles of two
    counts. *)
Definition percentOf (cnt tot : Z) : JS.double :=
  JS.dmul (JS.ddiv (JS.ofInteger cnt) (JS.ofInteger tot)) (JS.ofInteger 100).

(** An element of [top_origins]. *)
Record originShare : Type := {
  oname : string;
  ocount : Z;
  percent : fixed1
}.

(** A value of [aggregated] while the flows are read. *)
Record tally : Type := {
  tdestination : string;
  ttotal : Z;
  torigins : list (string * Z)
}.

(** A value of the object [aggregateFlowsByDestination] returns. *)
Record destinationData : Type := {
  ddestination : string;
  total : Z;
  origins : list (string * Z);
  top_origins : list originShare
}.

Definition destinationNameOf (f : flow) : option string :=
  match destination f with
  | Some d => JS.truthyStr (name d)
  | None => None
  end.

Definition originNameOf (f : flow) : option string :=
  match origin f with
  | Some o => JS.truthyStr (name o)
  | None => None
  end.

(** [if (!origins[k]) origins[k] = 0; origins[k] += c]. *)
Definition bump (k : string) (c : Z) (obj : list (string * Z)) : list (string * Z) :=
  let obj' := if Z.eqb (JS.orZ (lookup k obj) 0) 0 then assign k 0%Z obj else obj in
  assign k (JS.orZ (lookup k obj') 0 + c)%Z obj'.

(** The callback of the first [forEach] of [aggregateFlowsByDestination]. *)
Definition addFlow (aggregated : list (string * tally)) (f : flow)
  : list (string * tally) :=
  match destinationNameOf f with
  | None => aggregated
  | Some destName =>
      let t :=
        match lookup destName aggregated with
        | Some t => t
        | None => {| tdestination := destName; ttotal := 0; torigins := [] |}
        end in
      let c := JS.orZ (count f) 0 in
      let t' :=
        {| tdestination := tdestination t;
           ttotal := ttotal t + c;
           torigins :=
             match originNameOf f with
             | Some originName => bump originName c (torigins t)
             | None => torigins t
             end |} in
      assign destName t' aggregated
  end.

(** [(a, b) => b.count - a.count] puts [x] before [y] when it is negative. *)
Fixpoint insertDesc (x : originShare) (l : list originShare) : list originShare :=
  match l with
  | [] => [x]
  | y :: l' =>
      if Z.ltb (ocount x) (ocount y) then y :: insertDesc x l' else x :: l
  end.

(** [Array.prototype.sort] with that comparison; the sort is stable. *)
Definition sortDesc (l : list originShare) : list originShare :=
  fold_right insertDesc [] l.

(** The element built by the [map] of the second [forEach]. *)
Definition share (tot : Z) (entry : string * Z) : originShare :=
  {| oname := fst entry;
     ocount := snd entry;
     percent := toFixed1 (percentOf (snd entry) tot) |}.

(** The callback of the second [forEach]. *)
Definition finish (t : tally) : destinationData :=
  {| ddestination := tdestination t;
     total := ttotal t;
     origins := torigins t;
     top_origins := firstn 5 (sortDesc (map (share (ttotal t)) (torigins t))) |}.

(** [aggregateFlowsByDestination], for flows whose names are ordinary
    ([ordinaryNames] below).  With a destination named like a member of
    [Object.prototype] the code finds that member in place of an entry and
    throws at the first named origin, which is outside this definition. *)
Definition aggregateFlowsByDestination (flows : list flow)
  : list (string * destinationData) :=
  map (fun kv => (fst kv, finish (snd kv))) (fold_left addFlow flows []).

(** *** The aggregation as the design document words it *)

(** The names of a list in the order they are first seen. *)
Fixpoint firstSeen (l : list string) : list string :=
  match l with
  | [] => []
  | x :: rest => x :: filter (fun y => negb (String.eqb y x)) (firstSeen rest)
  end.

Definition optEqb (x : option string) (s : string) : bool :=
  match x with
  | Some y => String.eqb y s
  | None => false
  end.

(** The flows that go to destination [d]. *)
Definition flowsTo (d : string) (flows : list flow) : list flow :=
  filter (fun f => optEqb (destinationNameOf f) d) flows.

(** The flows that come from origin [o]. *)
Definition flowsFrom (o : string) (flows : list flow) : list flow :=
  filter (fun f => optEqb (originNameOf f) o) flows.

Definition sumCounts (flows : list flow) : Z :=
  fold_right (fun f acc => (JS.orZ (count f) 0 + acc)%Z) 0%Z flows.

(** The names a list of flows mentions, in order; [nameOf] reads the name
    off a flow. *)
Definition named (nameOf : flow -> option string) (flows : list flow) : list string :=
  flat_map (fun f => match nameOf f with Some n => [n] | None => [] end) flows.

(** The named origins of the flows, in first-seen order. *)
Definition originsSeen (flows : list flow) : list string :=
  firstSeen (named originNameOf flows).

Definition destinationsSeen (flows : list flow) : list string :=
  firstSeen (named destinationNameOf flows).

(** The names the aggregation uses as keys, of destinations and of origins,
    are ordinary names. *)
Definition ordinaryNames (flows : list flow) : bool :=
  forallb ordinaryName (named destinationNameOf flows)
  && forallb ordinaryName (named originNameOf flows).

(** Every named origin of the flows with the sum of its counts, in
    first-seen order. *)
Definition originTotalsOf (flows : list flow) : list (string * Z) :=
  map (fun o => (o, sumCounts (flowsFrom o flows))) (originsSeen flows).

(** The same for the flows that go to destination [d]. *)
Definition originTotals (d : string) (flows : list flow) : list (string * Z) :=
  originTotalsOf (flowsTo d flows).

(** The group of destination [d]: the sum of the counts of its flows and the
    totals of its origins. *)
Definition tallyOf (d : string) (flows : list flow) : tally :=
  {| tdestination := d;
     ttotal := sumCounts (flowsTo d flows);
     torigins := originTotals d flows |}.

(** One group per destination, in first-seen order. *)
Definition talliesOf (flows : list flow) : list (string * tally) :=
  map (fun d => (d, tallyOf d flows)) (destinationsSeen flows).

(** Descending by count. *)
Definition descending (a b : originShare) : Prop := (ocount b <= ocount a)%Z.


(** What a viewer can tell of the whole field. *)
Definition looks `{Turf} (st : state) : list (bool * Q * color) :=
  map look (particles st).

(** *** Leaving a step of the removal narrative *)

Record response : Type := {
  index : Z;
  scrollDirection : direction
}.

Definition handleStepExit (r : response) : list effect :=
  if Z.eqb (index r) 4 && isDown (scrollDirection r) then
    [Now (AddArticleClass "exiting");
     SetTimeout 100 [FlyTo DefaultCamera; FadeOutCards]]
  else [].

(** What leaving a step sets off: [handleStepExit] is the one handler [init]
    gives to [onStepExit]. *)
Definition onStepExit (reg : registry) (r : response) : list effect :=
  flat_map (fun callback => callback r) (registered reg [handleStepExit]).

(** *** Facts read off the result of the aggregation *)

Definition hasDestinationName (f : flow) : bool :=
  match destinationNameOf f with Some _ => true | None => false end.


(** The sum of the values of an object of counts. *)
Definition sumValues (obj : list (string * Z)) : Z :=
  fold_right (fun kv acc => (snd kv + acc)%Z) 0%Z obj.

(** The centres and the styles of the circles among the calls of a frame. *)
Definition centres (calls : list drawCall) : list pixel :=
  flat_map (fun c => match c with
                     | FillCircle centre _ _ => [centre]
                     | _ => []
                     end) calls.

Definition styles (calls : list drawCall) : list fillStyle :=
  flat_map (fun c => match c with
                     | FillCircle _ _ style => [style]
                     | _ => []
                     end) calls.


(** *** The destination circles *)

(** A value of [totals] in [buildDestinationGeoJSON]. *)
Record destinationInfo : Type := {
  iname : option string;
  itotal : Z;
  ilat : option Q;
  ilon : option Q
}.

(** A feature of the collection [buildDestinationGeoJSON] returns: the point
    [[lon, lat]] and the properties [name] and [total]. *)
Record feature : Type := {
  coordinates : option Q * option Q;
  fname : option string;
  ftotal : Z
}.

(** The property key a destination name is used as.  [missing] is the text a
    missing name reads as (["undefined"] for an absent property, ["null"]
    for a null one). *)
Definition keyOfName (missing : string) (n : option string) : string :=
  match n with
  | Some s => s
  | None => missing
  end.

(** The callback of [flows.forEach] in [buildDestinationGeoJSON], for the
    destination and the count of a flow. *)
Definition addTotal (missing : string) (totals : list (string * destinationInfo))
  (entry : place * option Z) : list (string * destinationInfo) :=
  let (dest, cnt) := entry in
  let destName := keyOfName missing (name dest) in
  let info :=
    match lookup destName totals with
    | Some info => info
    | None => {| iname := name dest; itotal := 0; ilat := lat dest; ilon := lon dest |}
    end in
  assign destName
    {| iname := iname info;
       itotal := itotal info + JS.orZ cnt 0;
       ilat := ilat info;
       ilon := ilon info |}
    totals.

(** The destinations and counts of the flows; [None] when a flow has no
    destination, where reading [flow.destination.name] throws. *)
Fixpoint destinationsOf (flows : list flow) : option (list (place * option Z)) :=
  match flows with
  | [] => Some []
  | f :: rest =>
      match destination f, destinationsOf rest with
      | Some d, Some ds => Some ((d, count f) :: ds)
      | _, _ => None
      end
  end.

Definition toFeature (info : destinationInfo) : feature :=
  {| coordinates := (ilon info, ilat info);
     fname := iname info;
     ftotal := itotal info |}.

(** [buildDestinationGeoJSON]: the features of the collection, [None] when
    the callback throws. *)
Definition buildDestinationGeoJSON (missing : string) (flows : list flow)
  : option (list feature) :=
  match destinationsOf flows with
  | Some ds => Some (map (fun kv => toFeature (snd kv)) (fold_left (addTotal missing) ds []))
  | None => None
  end.





(** *** Matching a country of the base map with a destination *)

(** The string built-ins the matcher calls beside [includes] and
    [startsWith]: [toLowerCase], the three [replace] calls and the [trim] of
    [normalizeCountryName], [split(/\s+/)], which returns a first piece and
    the pieces after it, and [length]. *)
Class Strings : Type := {
  toLowerCase : string -> string;
  withoutLeadingThe : string -> string;
  withoutOfAmerica : string -> string;
  withAmpersands : string -> string;
  trim : string -> string;
  splitSpaces : string -> string * list string;
  codeUnits : string -> nat
}.

Definition normalizeCountryName `{Strings} (name : string) : string :=
  trim (withAmpersands (withoutOfAmerica (withoutLeadingThe (toLowerCase name)))).

Definition COUNTRY_NAME_MAPPING : list (string * string) :=
  [("Mexico", "Mexico"); ("Honduras", "Honduras"); ("Guatemala", "Guatemala");
   ("El Salvador", "El Salvador"); ("Nicaragua", "Nicaragua");
   ("Haiti", "Haiti"); ("Dominican Republic", "Dominican Republic");
   ("Jamaica", "Jamaica"); ("Colombia", "Colombia"); ("Ecuador", "Ecuador");
   ("Peru", "Peru"); ("Brazil", "Brazil"); ("Venezuela", "Venezuela");
   ("Cuba", "Cuba"); ("India", "India"); ("China", "China");
   ("Philippines", "Philippines"); ("Vietnam", "Vietnam")]%string.

(** [for (const destName in data) if (test(destName)) return data[destName]]:
    the value of the first key that passes the test. *)
Definition firstWhere {V : Type} (test : string -> bool) (data : list (string * V))
  : option V :=
  match find test (keys data) with
  | Some destName => lookup destName data
  | None => None
  end.

Definition present {V : Type} (x : option V) : bool :=
  match x with Some _ => true | None => false end.

(** The test of the loop for the countries whose first word is [united]:
    both names have a second word, the second words are equal and have at
    least four code units. *)
Definition secondWordsMatch `{Strings} (normalizedCountry normalizedDest : string)
  : bool :=
  match snd (splitSpaces normalizedCountry), snd (splitSpaces normalizedDest) with
  | c1 :: _, d1 :: _ => String.eqb c1 d1 && Nat.leb 4 (codeUnits c1)
  | _, _ => false
  end.

(** [x || y] on the results of two steps of the matcher. *)
Definition orElse {V : Type} (x y : option V) : option V :=
  match x with Some _ => x | None => y end.

(** [getDestinationDataForCountry] over the name mapping and the cache of
    aggregated data; [None] is [null]. *)
Definition getDestinationDataForCountry `{Strings} {V : Type}
  (mapping : list (string * string)) (data : list (string * V))
  (countryName : string) : option V :=
  let exact := lookup countryName data in
  let mapped :=
    match JS.truthyStr (lookup countryName mapping) with
    | Some mappedName => lookup mappedName data
    | None => None
    end in
  let lowerCountryName := toLowerCase countryName in
  let caseless :=
    firstWhere (fun destName =>
                  String.eqb (toLowerCase destName) lowerCountryName) data in
  let normalizedCountryName := normalizeCountryName countryName in
  let normalized :=
    firstWhere (fun destName =>
                  String.eqb (normalizeCountryName destName)
                             normalizedCountryName) data in
  let reverse :=
    match find (fun entry => String.eqb (fst entry) countryName
                             && present (lookup (snd entry) data)) mapping with
    | Some entry => lookup (snd entry) data
    | None => None
    end in
  let partial :=
    firstWhere (fun destName =>
                  let normalizedDest := normalizeCountryName destName in
                  let normalizedCountry := normalizeCountryName countryName in
                  JS.includes normalizedCountry normalizedDest
                  || JS.includes normalizedDest normalizedCountry) data in
  let firstWord := toLowerCase (fst (splitSpaces countryName)) in
  let byFirstWord :=
    if Nat.leb 5 (codeUnits firstWord) && negb (String.eqb firstWord "united")
    then firstWhere (fun destName =>
                       String.prefix firstWord (toLowerCase destName)) data
    else None in
  let united :=
    if String.eqb firstWord "united"
    then firstWhere (fun destName =>
                       secondWordsMatch (normalizeCountryName countryName)
                                        (normalizeCountryName destName)) data
    else None in
  orElse exact (orElse mapped (orElse caseless (orElse normalized
    (orElse reverse (orElse partial (orElse byFirstWord united)))))).

(** Every name of the mapping stands for itself. *)
Definition identityMapping (mapping : list (string * string)) : bool :=
  forallb (fun entry => String.eqb (fst entry) (snd entry)) mapping.


(** The keys of an object are ordinary names. *)
Definition ordinaryKeys {V : Type} (obj : list (string * V)) : bool :=
  forallb ordinaryName (keys obj).

(** *** The page of the removal narrative *)

(** The camera of a destination card: [cam.center.lon], [cam.center.lat],
    [cam.zoom], [cam.pitch] and [cam.bearing]. *)
Record view : Type := {
  center : coords;
  zoom : Q;
  pitch : Q;
  bearing : Q
}.

(** An element of [topDestinations].  Without a camera with a centre,
    reading [cam.center.lon] throws. *)
Record card : Type := { cardCamera : option view }.

(** Where [map.flyTo] is sent: a named camera (speed 0.6), the camera of a
    card (speed 0.8), or the coordinates of a destination circle (zoom 5,
    pitch 35, speed 0.8). *)
Inductive target : Type :=
| Named (c : camera)
| Card (v : view)
| CircleAt (c : option Q * option Q).

(** The callback of the timer of step 4. *)
Inductive timer : Type := ShowCountryLayers.

(** What a handler of the page asks of the canvas, the map and the window.
    [FitBounds] is the call for the box [turf.bbox] gives of the geometry
    of the named country; [Exit] holds the effects of [handleStepExit]. *)
Inductive call : Type :=
| Canvas (d : drawCall)
| Fly (t : target)
| FitBounds (countryName : string)
| Later (delay : Z) (t : timer)
| Exit (es : list effect).

(** The text of the tooltip of the countries. *)
Inductive tooltipText : Type :=
| Blank
| DataOf (destData : destinationData)
| NoDataFor (countryName : string).

(** The tooltip of the countries: its text, its [left] and [top], and
    whether its opacity is 1. *)
Record tooltip : Type := {
  tipText : tooltipText;
  tipPosition : option pixel;
  tipShown : bool
}.

(** The globals of the page and what the map holds for it.  [field] has the
    animation flag, the canvas, its context, the particles and the selected
    country; [pendingFrames] counts the callbacks of [drawParticles] that
    wait for a frame.  [destinationTooltip] is [None] before the element is
    made, [Some None] while its display is [none], and otherwise the place
    and the feature it shows.  [circles] is the data of the source of the
    destination circles, whose two layers come with it; [hover] and
    [isDestination] are the feature states of the countries. *)
Record page `{Turf} : Type := {
  field : state;
  pendingFrames : nat;
  countryRemovalData : list (string * destinationData);
  overlayActive : bool;
  countriesActive : bool;
  hoveredCountryName : option string;
  countryTooltip : option tooltip;
  destinationTooltip : option (option (pixel * feature));
  activeStep : option Z;
  mapCreated : bool;
  circles : option (list feature);
  countryLayers : bool;
  circlesVisible : bool;
  countriesVisible : bool;
  interactive : bool;
  hover : list (string * bool);
  isDestination : list string;
  pointer : bool
}.

Definition withField `{Turf} (x : state) (pg : page) : page :=
  {| field := x; pendingFrames := pendingFrames pg;
     countryRemovalData := countryRemovalData pg;
     overlayActive := overlayActive pg;
     countriesActive := countriesActive pg;
     hoveredCountryName := hoveredCountryName pg;
     countryTooltip := countryTooltip pg;
     destinationTooltip := destinationTooltip pg;
     activeStep := activeStep pg; mapCreated := mapCreated pg;
     circles := circles pg; countryLayers := countryLayers pg;
     circlesVisible := circlesVisible pg;
     countriesVisible := countriesVisible pg; interactive := interactive pg;
     hover := hover pg; isDestination := isDestination pg;
     pointer := pointer pg |}.

Definition withPendingFrames `{Turf} (x : nat) (pg : page) : page :=
  {| field := field pg; pendingFrames := x;
     countryRemovalData := countryRemovalData pg;
     overlayActive := overlayActive pg;
     countriesActive := countriesActive pg;
     hoveredCountryName := hoveredCountryName pg;
     countryTooltip := countryTooltip pg;
     destinationTooltip := destinationTooltip pg;
     activeStep := activeStep pg; mapCreated := mapCreated pg;
     circles := circles pg; countryLayers := countryLayers pg;
     circlesVisible := circlesVisible pg;
     countriesVisible := countriesVisible pg; interactive := interactive pg;
     hover := hover pg; isDestination := isDestination pg;
     pointer := pointer pg |}.

Definition withCountryRemovalData `{Turf} (x : list (string * destinationData)) (pg : page) : page :=
  {| field := field pg; pendingFrames := pendingFrames pg;
     countryRemovalData := x; overlayActive := overlayActive pg;
     countriesActive := countriesActive pg;
     hoveredCountryName := hoveredCountryName pg;
     countryTooltip := countryTooltip pg;
     destinationTooltip := destinationTooltip pg;
     activeStep := activeStep pg; mapCreated := mapCreated pg;
     circles := circles pg; countryLayers := countryLayers pg;
     circlesVisible := circlesVisible pg;
     countriesVisible := countriesVisible pg; interactive := interactive pg;
     hover := hover pg; isDestination := isDestination pg;
     pointer := pointer pg |}.

Definition withOverlayActive `{Turf} (x : bool) (pg : page) : page :=
  {| field := field pg; pendingFrames := pendingFrames pg;
     countryRemovalData := countryRemovalData pg; overlayActive := x;
     countriesActive := countriesActive pg;
     hoveredCountryName := hoveredCountryName pg;
     countryTooltip := countryTooltip pg;
     destinationTooltip := destinationTooltip pg;
     activeStep := activeStep pg; mapCreated := mapCreated pg;
     circles := circles pg; countryLayers := countryLayers pg;
     circlesVisible := circlesVisible pg;
     countriesVisible := countriesVisible pg; interactive := interactive pg;
     hover := hover pg; isDestination := isDestination pg;
     pointer := pointer pg |}.

Definition withCountriesActive `{Turf} (x : bool) (pg : page) : page :=
  {| field := field pg; pendingFrames := pendingFrames pg;
     countryRemovalData := countryRemovalData pg;
     overlayActive := overlayActive pg; countriesActive := x;
     hoveredCountryName := hoveredCountryName pg;
     countryTooltip := countryTooltip pg;
     destinationTooltip := destinationTooltip pg;
     activeStep := activeStep pg; mapCreated := mapCreated pg;
     circles := circles pg; countryLayers := countryLayers pg;
     circlesVisible := circlesVisible pg;
     countriesVisible := countriesVisible pg; interactive := interactive pg;
     hover := hover pg; isDestination := isDestination pg;
     pointer := pointer pg |}.

Definition withHoveredCountryName `{Turf} (x : option string) (pg : page) : page :=
  {| field := field pg; pendingFrames := pendingFrames pg;
     countryRemovalData := countryRemovalData pg;
     overlayActive := overlayActive pg;
     countriesActive := countriesActive pg; hoveredCountryName := x;
     countryTooltip := countryTooltip pg;
     destinationTooltip := destinationTooltip pg;
     activeStep := activeStep pg; mapCreated := mapCreated pg;
     circles := circles pg; countryLayers := countryLayers pg;
     circlesVisible := circlesVisible pg;
     countriesVisible := countriesVisible pg; interactive := interactive pg;
     hover := hover pg; isDestination := isDestination pg;
     pointer := pointer pg |}.

Definition withCountryTooltip `{Turf} (x : option tooltip) (pg : page) : page :=
  {| field := field pg; pendingFrames := pendingFrames pg;
     countryRemovalData := countryRemovalData pg;
     overlayActive := overlayActive pg;
     countriesActive := countriesActive pg;
     hoveredCountryName := hoveredCountryName pg; countryTooltip := x;
     destinationTooltip := destinationTooltip pg;
     activeStep := activeStep pg; mapCreated := mapCreated pg;
     circles := circles pg; countryLayers := countryLayers pg;
     circlesVisible := circlesVisible pg;
     countriesVisible := countriesVisible pg; interactive := interactive pg;
     hover := hover pg; isDestination := isDestination pg;
     pointer := pointer pg |}.

Definition withDestinationTooltip `{Turf} (x : option (option (pixel * feature))) (pg : page) : page :=
  {| field := field pg; pendingFrames := pendingFrames pg;
     countryRemovalData := countryRemovalData pg;
     overlayActive := overlayActive pg;
     countriesActive := countriesActive pg;
     hoveredCountryName := hoveredCountryName pg;
     countryTooltip := countryTooltip pg; destinationTooltip := x;
     activeStep := activeStep pg; mapCreated := mapCreated pg;
     circles := circles pg; countryLayers := countryLayers pg;
     circlesVisible := circlesVisible pg;
     countriesVisible := countriesVisible pg; interactive := interactive pg;
     hover := hover pg; isDestination := isDestination pg;
     pointer := pointer pg |}.

Definition withActiveStep `{Turf} (x : option Z) (pg : page) : page :=
  {| field := field pg; pendingFrames := pendingFrames pg;
     countryRemovalData := countryRemovalData pg;
     overlayActive := overlayActive pg;
     countriesActive := countriesActive pg;
     hoveredCountryName := hoveredCountryName pg;
     countryTooltip := countryTooltip pg;
     destinationTooltip := destinationTooltip pg; activeStep := x;
     mapCreated := mapCreated pg; circles := circles pg;
     countryLayers := countryLayers pg; circlesVisible := circlesVisible pg;
     countriesVisible := countriesVisible pg; interactive := interactive pg;
     hover := hover pg; isDestination := isDestination pg;
     pointer := pointer pg |}.

Definition withCircles `{Turf} (x : option (list feature)) (pg : page) : page :=
  {| field := field pg; pendingFrames := pendingFrames pg;
     countryRemovalData := countryRemovalData pg;
     overlayActive := overlayActive pg;
     countriesActive := countriesActive pg;
     hoveredCountryName := hoveredCountryName pg;
     countryTooltip := countryTooltip pg;
     destinationTooltip := destinationTooltip pg;
     activeStep := activeStep pg; mapCreated := mapCreated pg; circles := x;
     countryLayers := countryLayers pg; circlesVisible := circlesVisible pg;
     countriesVisible := countriesVisible pg; interactive := interactive pg;
     hover := hover pg; isDestination := isDestination pg;
     pointer := pointer pg |}.

Definition withCountryLayers `{Turf} (x : bool) (pg : page) : page :=
  {| field := field pg; pendingFrames := pendingFrames pg;
     countryRemovalData := countryRemovalData pg;
     overlayActive := overlayActive pg;
     countriesActive := countriesActive pg;
     hoveredCountryName := hoveredCountryName pg;
     countryTooltip := countryTooltip pg;
     destinationTooltip := destinationTooltip pg;
     activeStep := activeStep pg; mapCreated := mapCreated pg;
     circles := circles pg; countryLayers := x;
     circlesVisible := circlesVisible pg;
     countriesVisible := countriesVisible pg; interactive := interactive pg;
     hover := hover pg; isDestination := isDestination pg;
     pointer := pointer pg |}.

Definition withCirclesVisible `{Turf} (x : bool) (pg : page) : page :=
  {| field := field pg; pendingFrames := pendingFrames pg;
     countryRemovalData := countryRemovalData pg;
     overlayActive := overlayActive pg;
     countriesActive := countriesActive pg;
     hoveredCountryName := hoveredCountryName pg;
     countryTooltip := countryTooltip pg;
     destinationTooltip := destinationTooltip pg;
     activeStep := activeStep pg; mapCreated := mapCreated pg;
     circles := circles pg; countryLayers := countryLayers pg;
     circlesVisible := x; countriesVisible := countriesVisible pg;
     interactive := interactive pg; hover := hover pg;
     isDestination := isDestination pg; pointer := pointer pg |}.

Definition withCountriesVisible `{Turf} (x : bool) (pg : page) : page :=
  {| field := field pg; pendingFrames := pendingFrames pg;
     countryRemovalData := countryRemovalData pg;
     overlayActive := overlayActive pg;
     countriesActive := countriesActive pg;
     hoveredCountryName := hoveredCountryName pg;
     countryTooltip := countryTooltip pg;
     destinationTooltip := destinationTooltip pg;
     activeStep := activeStep pg; mapCreated := mapCreated pg;
     circles := circles pg; countryLayers := countryLayers pg;
     circlesVisible := circlesVisible pg; countriesVisible := x;
     interactive := interactive pg; hover := hover pg;
     isDestination := isDestination pg; pointer := pointer pg |}.

Definition withInteractive `{Turf} (x : bool) (pg : page) : page :=
  {| field := field pg; pendingFrames := pendingFrames pg;
     countryRemovalData := countryRemovalData pg;
     overlayActive := overlayActive pg;
     countriesActive := countriesActive pg;
     hoveredCountryName := hoveredCountryName pg;
     countryTooltip := countryTooltip pg;
     destinationTooltip := destinationTooltip pg;
     activeStep := activeStep pg; mapCreated := mapCreated pg;
     circles := circles pg; countryLayers := countryLayers pg;
     circlesVisible := circlesVisible pg;
     countriesVisible := countriesVisible pg; interactive := x;
     hover := hover pg; isDestination := isDestination pg;
     pointer := pointer pg |}.

Definition withHover `{Turf} (x : list (string * bool)) (pg : page) : page :=
  {| field := field pg; pendingFrames := pendingFrames pg;
     countryRemovalData := countryRemovalData pg;
     overlayActive := overlayActive pg;
     countriesActive := countriesActive pg;
     hoveredCountryName := hoveredCountryName pg;
     countryTooltip := countryTooltip pg;
     destinationTooltip := destinationTooltip pg;
     activeStep := activeStep pg; mapCreated := mapCreated pg;
     circles := circles pg; countryLayers := countryLayers pg;
     circlesVisible := circlesVisible pg;
     countriesVisible := countriesVisible pg; interactive := interactive pg;
     hover := x; isDestination := isDestination pg; pointer := pointer pg |}.

Definition withIsDestination `{Turf} (x : list string) (pg : page) : page :=
  {| field := field pg; pendingFrames := pendingFrames pg;
     countryRemovalData := countryRemovalData pg;
     overlayActive := overlayActive pg;
     countriesActive := countriesActive pg;
     hoveredCountryName := hoveredCountryName pg;
     countryTooltip := countryTooltip pg;
     destinationTooltip := destinationTooltip pg;
     activeStep := activeStep pg; mapCreated := mapCreated pg;
     circles := circles pg; countryLayers := countryLayers pg;
     circlesVisible := circlesVisible pg;
     countriesVisible := countriesVisible pg; interactive := interactive pg;
     hover := hover pg; isDestination := x; pointer := pointer pg |}.

Definition withPointer `{Turf} (x : bool) (pg : page) : page :=
  {| field := field pg; pendingFrames := pendingFrames pg;
     countryRemovalData := countryRemovalData pg;
     overlayActive := overlayActive pg;
     countriesActive := countriesActive pg;
     hoveredCountryName := hoveredCountryName pg;
     countryTooltip := countryTooltip pg;
     destinationTooltip := destinationTooltip pg;
     activeStep := activeStep pg; mapCreated := mapCreated pg;
     circles := circles pg; countryLayers := countryLayers pg;
     circlesVisible := circlesVisible pg;
     countriesVisible := countriesVisible pg; interactive := interactive pg;
     hover := hover pg; isDestination := isDestination pg; pointer := x |}.
Definition withAnimationActive `{Turf} (b : bool) (st : state) : state :=
  {| animationActive := b;
     canvas := canvas st;
     ctx := ctx st;
     particles := particles st;
     selectedCountryName := selectedCountryName st |}.

Definition withSelectedCountryName `{Turf} (key : filterKey) (st : state) : state :=
  {| animationActive := animationActive st;
     canvas := canvas st;
     ctx := ctx st;
     particles := particles st;
     selectedCountryName := key |}.

Definition withCanvas `{Turf} (c x : bool) (st : state) : state :=
  {| animationActive := animationActive st;
     canvas := c;
     ctx := x;
     particles := particles st;
     selectedCountryName := selectedCountryName st |}.

(** The globals as the script sets them, once [initMap] has made the map
    (with [interactive: true]). *)
Definition initialPage `{Turf} : page :=
  {| field := {| animationActive := false; canvas := false; ctx := false;
                 particles := []; selectedCountryName := Null |};
     pendingFrames := 0;
     countryRemovalData := [];
     overlayActive := false;
     countriesActive := false;
     hoveredCountryName := None;
     countryTooltip := None;
     destinationTooltip := None;
     activeStep := None;
     mapCreated := true;
     circles := None;
     countryLayers := false;
     circlesVisible := false;
     countriesVisible := false;
     interactive := true;
     hover := [];
     isDestination := [];
     pointer := false |}.

Definition disableMapInteractions `{Turf} (pg : page) : page :=
  if negb (mapCreated pg) then pg else withInteractive false pg.

Definition enableMapInteractions `{Turf} (pg : page) : page :=
  if negb (mapCreated pg) then pg else withInteractive true pg.

Definition flyToDefault `{Turf} (pg : page) : list call :=
  if negb (mapCreated pg) then [] else [Fly (Named DefaultCamera)].

Definition flyToWorld `{Turf} (pg : page) : list call :=
  if negb (mapCreated pg) then [] else [Fly (Named WorldCamera)].

Definition setDestinationOverlayVisible `{Turf} (visible : bool) (pg : page)
  : page :=
  let pg := withOverlayActive visible pg in
  if negb (mapCreated pg) || negb (present (circles pg)) then pg
  else
    let pg := withCirclesVisible visible pg in
    if negb visible && present (destinationTooltip pg)
    then withDestinationTooltip (Some None) pg
    else pg.

Definition setCountryLayersVisible `{Turf} (visible : bool) (pg : page) : page :=
  let pg := withCountriesActive visible pg in
  if negb (mapCreated pg) || negb (countryLayers pg) then pg
  else withCountriesVisible visible pg.

(** [focusOnDestination]; [None] when reading the camera throws.  A [null]
    element of [topDestinations] is [None] in the list. *)
Definition focusOnDestination `{Turf} (topDestinations : list (option card))
  (i : nat) (pg : page) : option (page * list call) :=
  if negb (mapCreated pg) then Some (pg, [])
  else
    match nth_error topDestinations i with
    | Some (Some dest) =>
        match cardCamera dest with
        | Some cam =>
            Some (disableMapInteractions (setDestinationOverlayVisible false pg),
                  [Fly (Card cam)])
        | None => None
        end
    | _ => Some (pg, [])
    end.

Definition isRequest (d : drawCall) : bool :=
  match d with RequestAnimationFrame => true | _ => false end.

(** A call of [drawParticles] on the page: the frame it draws, and one more
    pending callback for each [requestAnimationFrame]. *)
Definition callDrawParticles `{Turf} (proj : projector) (pg : page)
  : page * list call :=
  let (st, calls) := drawParticles proj (field pg) in
  (withPendingFrames (pendingFrames pg + List.length (filter isRequest calls))
     (withField st pg),
   map Canvas calls).

(** [handleStepEnter].  The projector is that of the frame the handler draws
    when it starts the animation.  An exception of [focusOnDestination] ends
    the handler. *)
Definition handleStepEnter `{Turf} (topDestinations : list (option card))
  (proj : projector) (r : response) (pg : page) : page * list call :=
  let pg := withActiveStep (Some (index r)) pg in
  if Z.eqb (index r) 0 then
    let (pg, drawn) :=
      if animationActive (field pg) then (pg, [])
      else callDrawParticles proj
             (withField (withAnimationActive true (field pg)) pg) in
    let flown := flyToDefault pg in
    let pg := setDestinationOverlayVisible false pg in
    let pg := setCountryLayersVisible false pg in
    (disableMapInteractions pg, drawn ++ flown)
  else if Z.eqb (index r) 1 || Z.eqb (index r) 2 || Z.eqb (index r) 3 then
    match focusOnDestination topDestinations (Z.to_nat (index r - 1)) pg with
    | Some (pg, flown) => (setCountryLayersVisible true pg, flown)
    | None => (pg, [])
    end
  else if Z.eqb (index r) 4 then
    let flown := flyToWorld pg in
    let pg := setDestinationOverlayVisible false pg in
    let pg := withField (filterParticlesByDestination Undefined
                           (withSelectedCountryName Null (field pg))) pg in
    (enableMapInteractions pg, flown ++ [Later 100 ShowCountryLayers])
  else (pg, []).

(** The callback of a timer. *)
Definition onTimer `{Turf} (t : timer) (pg : page) : page :=
  match t with
  | ShowCountryLayers => setCountryLayersVisible true pg
  end.

(** The callback [requestAnimationFrame] runs: nothing without a pending
    request. *)
Definition onFrame `{Turf} (proj : projector) (pg : page) : page * list call :=
  match pendingFrames pg with
  | O => (pg, [])
  | S n => callDrawParticles proj (withPendingFrames n pg)
  end.

(** [map.setFeatureState({ source, id }, { hover: on })]. *)
Definition setHover `{Turf} (id : string) (on : bool) (pg : page) : page :=
  withHover (assign id on (hover pg)) pg.

Definition showTooltip (text : tooltipText) (pt : pixel) : tooltip :=
  {| tipText := text;
     tipPosition := Some {| px := px pt + 15; py := py pt + 15 |};
     tipShown := true |}.

(** The [mousemove] handler of the country layer, for the name of the first
    feature under the pointer, if any, and the point of the event.  Writing
    to a tooltip that does not exist throws. *)
Definition onCountryMouseMove `{Turf} `{Strings} (featureName : option string)
  (pt : pixel) (pg : page) : page :=
  if negb (countriesActive pg) then pg
  else
    match featureName with
    | None => pg
    | Some countryName =>
        let pg := withPointer true pg in
        let pg :=
          match hoveredCountryName pg with
          | Some hovered =>
              if negb (String.eqb hovered countryName)
              then setHover hovered false pg else pg
          | None => pg
          end in
        let pg := withHoveredCountryName (Some countryName) pg in
        let pg := setHover countryName true pg in
        match countryTooltip pg with
        | None => pg
        | Some _ =>
            match getDestinationDataForCountry COUNTRY_NAME_MAPPING
                    (countryRemovalData pg) countryName with
            | Some destData =>
                let pg := withCountryTooltip
                            (Some (showTooltip (DataOf destData) pt)) pg in
                withField (filterParticlesByDestination
                             (Key (ddestination destData)) (field pg)) pg
            | None =>
                let pg := withCountryTooltip
                            (Some (showTooltip (NoDataFor countryName) pt)) pg in
                withField (filterParticlesByDestination Null (field pg)) pg
            end
        end
    end.

(** The [mouseleave] handler of the country layer. *)
Definition onCountryMouseLeave `{Turf} (pg : page) : page :=
  let pg := withPointer false pg in
  let pg :=
    match hoveredCountryName pg with
    | Some hovered => withHoveredCountryName None (setHover hovered false pg)
    | None => pg
    end in
  let pg :=
    match countryTooltip pg with
    | Some tip =>
        withCountryTooltip (Some {| tipText := tipText tip;
                                    tipPosition := tipPosition tip;
                                    tipShown := false |}) pg
    | None => pg
    end in
  match selectedCountryName (field pg) with
  | Null | Undefined =>
      withField (filterParticlesByDestination Undefined (field pg)) pg
  | Key selected =>
      withField (filterParticlesByDestination (Key selected) (field pg)) pg
  end.

(** The [click] handler of the country layer. *)
Definition onCountryClick `{Turf} `{Strings} (featureName : option string)
  (pg : page) : page * list call :=
  if negb (countriesActive pg) then (pg, [])
  else
    match featureName with
    | None => (pg, [])
    | Some countryName =>
        match getDestinationDataForCountry COUNTRY_NAME_MAPPING
                (countryRemovalData pg) countryName with
        | Some destData =>
            (withField (filterParticlesByDestination
                          (Key (ddestination destData)) (field pg)) pg,
             [FitBounds countryName])
        | None =>
            (withField (filterParticlesByDestination Null (field pg)) pg, [])
        end
    end.

(** The handlers of the layer of the destination circles; a [mousemove] of
    the layer carries a feature. *)
Definition onCircleMouseMove `{Turf} (ft : feature) (pt : pixel) (pg : page)
  : page :=
  if negb (overlayActive pg) || negb (present (destinationTooltip pg)) then pg
  else
    withDestinationTooltip
      (Some (Some ({| px := px pt + 15; py := py pt + 15 |}, ft)))
      (withPointer true pg).

Definition onCircleMouseLeave `{Turf} (pg : page) : page :=
  let pg := withPointer false pg in
  if present (destinationTooltip pg)
  then withDestinationTooltip (Some None) pg else pg.

Definition onCircleClick `{Turf} (ft : option feature) (pg : page) : list call :=
  if negb (overlayActive pg) then []
  else
    match ft with
    | None => []
    | Some ft => [Fly (CircleAt (coordinates ft))]
    end.

(** [addDestinationOverlay]: new data for a source that exists, or the
    source with its two layers, hidden. *)
Definition addDestinationOverlay `{Turf} (geojson : list feature) (pg : page)
  : page :=
  if negb (mapCreated pg) then pg
  else if present (circles pg) then withCircles (Some geojson) pg
  else withCirclesVisible false (withCircles (Some geojson) pg).

(** [markDestinationCountries] over the names of the features of the world
    map. *)
Definition markDestinationCountries `{Turf} `{Strings} (world : list string)
  (pg : page) : page :=
  if negb (mapCreated pg) then pg
  else
    withIsDestination
      (isDestination pg
       ++ filter (fun neCountryName =>
                    present (getDestinationDataForCountry COUNTRY_NAME_MAPPING
                               (countryRemovalData pg) neCountryName)) world)
      pg.

Definition setupCountryInteractions `{Turf} (pg : page) : page :=
  if negb (mapCreated pg) then pg
  else
    match countryTooltip pg with
    | Some _ => pg
    | None =>
        withCountryTooltip
          (Some {| tipText := Blank; tipPosition := None; tipShown := false |}) pg
    end.

(** [addCountryLayers], for the names of the features of the world map,
    [None] when the map of the world could not be loaded. *)
Definition addCountryLayers `{Turf} `{Strings} (geojson : option (list string))
  (pg : page) : page :=
  if negb (mapCreated pg) then pg
  else
    match geojson with
    | None => pg
    | Some world =>
        let pg := withCountriesVisible false (withCountryLayers true pg) in
        setupCountryInteractions (markDestinationCountries world pg)
    end.

(** The three parts of the [load] handler of the map, each running to its
    [await]: the tooltip of the circles and the canvas (whose context is
    there or not); the flows, the particles, the cache and the overlay (an
    exception of [createParticles] or [buildDestinationGeoJSON] ends the
    handler); the countries. *)
Definition onLoad `{Turf} (context : bool) (pg : page) : page :=
  withField (withCanvas true context (field pg))
    (withDestinationTooltip (Some None) pg).

Definition onFlows `{Turf} (missing : string) (random : nat -> Q)
  (fetched : option (list flow)) (pg : page) : page :=
  let flows := match fetched with
               | Some allFlows => loadData allFlows
               | None => []
               end in
  match createParticles random flows with
  | None => pg
  | Some ps =>
      let pg := withField (withParticles ps (field pg)) pg in
      let pg := withCountryRemovalData (aggregateFlowsByDestination flows) pg in
      match buildDestinationGeoJSON missing flows with
      | None => pg
      | Some geojson =>
          setDestinationOverlayVisible false (addDestinationOverlay geojson pg)
      end
  end.

Definition onCountries `{Turf} `{Strings} (world : option (list string))
  (pg : page) : page :=
  disableMapInteractions
    (match world with
     | Some _ => addCountryLayers world pg
     | None => pg
     end).

(** What can happen on the page. *)
Inductive event `{Turf} : Type :=
| MapLoaded (context : bool)
| FlowsLoaded (random : nat -> Q) (fetched : option (list flow))
| CountriesLoaded (world : option (list string))
| StepEnter (proj : projector) (r : response)
| StepExit (r : response)
| TimerFires (t : timer)
| Frame (proj : projector)
| CountryMouseMove (featureName : option string) (pt : pixel)
| CountryMouseLeave
| CountryClick (featureName : option string)
| CircleMouseMove (ft : feature) (pt : pixel)
| CircleMouseLeave
| CircleClick (ft : option feature).

(** The handler of an event: the page after it and the calls it makes. *)
Definition handle `{Turf} `{Strings} (missing : string)
  (topDestinations : list (option card)) (ev : event) (pg : page)
  : page * list call :=
  match ev with
  | MapLoaded context => (onLoad context pg, [])
  | FlowsLoaded random fetched => (onFlows missing random fetched pg, [])
  | CountriesLoaded world => (onCountries world pg, [])
  | StepEnter proj r => handleStepEnter topDestinations proj r pg
  | StepExit r => (pg, [Exit (handleStepExit r)])
  | TimerFires t => (onTimer t pg, [])
  | Frame proj => onFrame proj pg
  | CountryMouseMove featureName pt => (onCountryMouseMove featureName pt pg, [])
  | CountryMouseLeave => (onCountryMouseLeave pg, [])
  | CountryClick featureName => onCountryClick featureName pg
  | CircleMouseMove ft pt => (onCircleMouseMove ft pt pg, [])
  | CircleMouseLeave => (onCircleMouseLeave pg, [])
  | CircleClick ft => (pg, onCircleClick ft pg)
  end.

(** The page after a sequence of events, and all the calls made. *)
Fixpoint run `{Turf} `{Strings} (missing : string)
  (topDestinations : list (option card)) (evs : list event) (pg : page)
  : page * list call :=
  match evs with
  | [] => (pg, [])
  | ev :: rest =>
      let (pg', calls) := handle missing topDestinations ev pg in
      let (pg'', more) := run missing topDestinations rest pg' in
      (pg'', calls ++ more)
  end.

(** *** States and calls of the page *)

(** The circles of the destinations are off: the flag, the layers and the
    tooltip. *)
Definition overlayOff `{Turf} (pg : page) : Prop :=
  overlayActive pg = false /\ circlesVisible pg = false
  /\ (destinationTooltip pg = None \/ destinationTooltip pg = Some None).

(** A call that is not the flight a click on a circle asks for. *)
Definition notToCircle (c : call) : Prop :=
  match c with
  | Fly (CircleAt _) => False
  | _ => True
  end.

(** At most one callback of [drawParticles] waits, none before the
    animation is switched on. *)
Definition loops `{Turf} (pg : page) : Prop :=
  (pendingFrames pg <= 1)%nat
  /\ (animationActive (field pg) = false -> pendingFrames pg = 0%nat).

(** The animation is switched on and no callback waits. *)
Definition stalled `{Turf} (pg : page) : Prop :=
  animationActive (field pg) = true /\ pendingFrames pg = 0%nat.

(** A call that does not draw. *)
Definition notCanvas (c : call) : Prop :=
  match c with
  | Canvas _ => False
  | _ => True
  end.

(** The countries whose [hover] state is true are the hovered one. *)
Definition highlighted `{Turf} (pg : page) : Prop :=
  forall id, lookup id (hover pg) = Some true <-> hoveredCountryName pg = Some id.

End Removal.


(** ** The icons of the migration chart *)

Module Migration.

(** An element of [migrationData]. *)
Record period : Type := {
  year : Z;
  iconCount : Z;
  color : string
}.

(** [Math.max(...xs)] for a list that is not empty. *)
Definition maxOf (xs : list Z) : Z :=
  match xs with
  | [] => 0
  | x :: rest => fold_left Z.max rest x
  end.

(** [getPreviousColor]; [None] when [migrationData] is empty, where reading
    the colour of its last element throws. *)
Definition getPreviousColor (migrationData : list period) (iconIndex : Z)
  : option string :=
  match find (fun d => Z.ltb iconIndex (iconCount d)) migrationData with
  | Some d => Some (color d)
  | None =>
      match rev migrationData with
      | d :: _ => Some (color d)
      | [] => None
      end
  end.

(** What [updateMigrationViz] asks of an icon: to appear with a fill, the
    transition lasting [duration] after [delay], or to fade out. *)
Inductive iconUpdate : Type :=
| Appear (fill : string) (duration delay : Z)
| FadeOut (duration : Z).

(** [previousIconCount]. *)
Definition previousIconCount (migrationData : list period) (y : Z) : Z :=
  match filter (fun d => Z.ltb (year d) y) migrationData with
  | [] => 0
  | previousData => maxOf (map iconCount previousData)
  end.

(** The callback of [icons.each] for the icon at index [i]; [None] when
    [getPreviousColor] throws. *)
Definition updateIcon (migrationData : list period) (dataPoint : period)
  (previous : Z) (i : nat) : option iconUpdate :=
  if Z.ltb (Z.of_nat i) (iconCount dataPoint) then
    if Z.leb previous (Z.of_nat i) then
      Some (Appear (color dataPoint) 800 ((Z.of_nat i - previous) * 20))
    else
      match getPreviousColor migrationData (Z.of_nat i) with
      | Some c => Some (Appear c 0 0)
      | None => None
      end
  else Some (FadeOut 300).

(** The outcome of [updateMigrationViz]: nothing is touched, an icon's
    update throws, or every icon receives its update. *)
Inductive outcome : Type :=
| Untouched
| Throws
| Updated (updates : list iconUpdate).

(** All the updates, unless one throws. *)
Fixpoint collect (us : list (option iconUpdate)) : option (list iconUpdate) :=
  match us with
  | [] => Some []
  | Some u :: rest =>
      match collect rest with
      | Some done => Some (u :: done)
      | None => None
      end
  | None :: _ => None
  end.

(** [updateMigrationViz] for a chart of [icons] icons, if the chart is
    there. *)
Definition updateMigrationViz (migrationViz : option nat)
  (migrationData : list period) (y : Z) : outcome :=
  match migrationViz with
  | None => Untouched
  | Some icons =>
      match find (fun d => Z.eqb (year d) y) migrationData with
      | None => Untouched
      | Some dataPoint =>
          let previous := previousIconCount migrationData y in
          match collect (map (updateIcon migrationData dataPoint previous)
                           (seq 0 icons)) with
          | Some updates => Updated updates
          | None => Throws
          end
      end
  end.

(** The years rise along [migrationData]. *)
Fixpoint ascendingYears (migrationData : list period) : bool :=
  match migrationData with
  | [] => true
  | d :: rest =>
      forallb (fun e => Z.ltb (year d) (year e)) rest && ascendingYears rest
  end.

End Migration.

(** ** Sample data

    A planar stand-in for turf and a few records, on which the definitions
    above can be run. *)

Module Sample.

Definition planarDistance (a b : coords) : Q :=
  111 * (Qabs (fst a - fst b) + Qabs (snd a - snd b)).

#[global] Instance planar : Turf := {|
  Line := (coords * coords)%type;
  distance := planarDistance;
  greatCircle := fun a b _ => (a, b);
  along := fun l d =>
    match d with
    | JS.Fin q => Some (fst l)
    | JS.PInf | JS.NaN => Some (snd l)
    | JS.NInf => Some (fst l)
    end
|}.

(** A projector that throws west of the antimeridian seam at [-120]. *)
Definition seamProjector : projector :=
  fun c => if Qle_bool (fst c) (-120) then None
           else Some {| px := fst c; py := snd c |}.

Definition plainProjector : projector :=
  fun c => Some {| px := fst c; py := snd c |}.

Definition CA : Removal.place :=
  {| Removal.lat := Some 36; Removal.lon := Some (-119); Removal.name := Some "CA"%string |}.
Definition TX : Removal.place :=
  {| Removal.lat := Some 31; Removal.lon := Some (-99); Removal.name := Some "TX"%string |}.
Definition Mexico : Removal.place :=
  {| Removal.lat := Some 23; Removal.lon := Some (-102); Removal.name := Some "Mexico"%string |}.
Definition Guatemala : Removal.place :=
  {| Removal.lat := Some 15; Removal.lon := Some (-90); Removal.name := Some "Guatemala"%string |}.

Definition removal (o d : Removal.place) (c scaled : Z) : Removal.flow :=
  {| Removal.origin := Some o;
     Removal.destination := Some d;
     Removal.count := Some c;
     Removal.scaled_count := Some scaled |}.

(** The three records of the aggregation scenario. *)
Definition scenario : list Removal.flow :=
  [removal CA Mexico 100 2; removal TX Mexico 50 1; removal CA Guatemala 30 1].

Definition halves : nat -> Q := fun _ => 1 # 2.

(** A particle on the route from California to Mexico. *)
Definition toMexico : Removal.particle :=
  {| Removal.line := ((-119, 36), (-102, 23));
     Removal.pdistance := 3330;
     Removal.progress := 0;
     Removal.speed := Removal.SPEED_FACTOR;
     Removal.startOffset := 1 # 2;
     Removal.flowIndex := 0;
     Removal.particleIndex := 0;
     Removal.destinationName := Some "Mexico"%string;
     Removal.filtered := false;
     Removal.opacity := 1;
     Removal.pcolor := Removal.red |}.

(** A particle that leaves from west of the seam. *)
Definition fromWashington : Removal.particle :=
  {| Removal.line := ((-121, 47), (-90, 15));
     Removal.pdistance := 6993;
     Removal.progress := 6 # 10;
     Removal.speed := Removal.SPEED_FACTOR;
     Removal.startOffset := 1 # 2;
     Removal.flowIndex := 1;
     Removal.particleIndex := 0;
     Removal.destinationName := Some "Guatemala"%string;
     Removal.filtered := false;
     Removal.opacity := 1;
     Removal.pcolor := Removal.red |}.

(** A particle one frame before the end of its route. *)
Definition arriving : Removal.particle :=
  Removal.withProgress (9995 # 10000) toMexico.

(** A background particle of the detention map, one frame before the end. *)
Definition background : Detention.particle :=
  {| Detention.line := ((-88, 42), (-106, 32));
     Detention.pdistance := 3108;
     Detention.progress := 999 # 1000;
     Detention.speed := Detention.DETENTION_SPEED_FACTOR;
     Detention.startOffset := 1 # 3;
     Detention.type := "background";
     Detention.flowIndex := 0 |}.

(** The random source that always answers 0.99, and the particle
    [createParticles] builds with it for the first record of the scenario. *)
Definition late : nat -> Q := fun _ => 99 # 100.

Definition lateParticle : Removal.particle :=
  {| Removal.line := ((-119, 36), (-102, 23));
     Removal.pdistance := planarDistance (-119, 36) (-102, 23);
     Removal.progress := 0;
     Removal.speed := Removal.SPEED_FACTOR;
     Removal.startOffset := 99 # 100;
     Removal.flowIndex := 0;
     Removal.particleIndex := 0;
     Removal.destinationName := Some "Mexico"%string;
     Removal.filtered := false;
     Removal.opacity := 1;
     Removal.pcolor := Removal.red |}.

Definition Chicago : Detention.place :=
  {| Detention.lat := Some 42; Detention.lon := Some (-88);
     Detention.facility_name := Some "Broadview"%string |}.
Definition ElPaso : Detention.place :=
  {| Detention.lat := Some 32; Detention.lon := Some (-106);
     Detention.facility_name := Some "El Paso"%string |}.
Definition Alexandria : Detention.place :=
  {| Detention.lat := Some 31; Detention.lon := Some (-92);
     Detention.facility_name := Some "Alexandria"%string |}.

Definition transfer (o d : Detention.place) (c : Z) : Detention.flow :=
  {| Detention.origin := Some o;
     Detention.destination := Some d;
     Detention.count := JS.Num c |}.

(** A transfer that starts and ends at the same facility. *)
Definition onTheSpot : Detention.flow := transfer Chicago Chicago 100.

(** A removal record whose precomputed particle number is above the cap of
    the detention map, and one with a larger count but fewer particles. *)
Definition dense : Removal.flow := removal CA Mexico 10 40.
Definition sparse : Removal.flow := removal TX Mexico 5000 1.

(** A removal record that ends where it starts. *)
Definition nowhere : Removal.flow := removal CA CA 7 3.

(** A background particle that leaves from west of the seam. *)
Definition fromSeattle : Detention.particle :=
  {| Detention.line := ((-122, 47), (-106, 32));
     Detention.pdistance := 3441;
     Detention.progress := 1 # 2;
     Detention.speed := Detention.DETENTION_SPEED_FACTOR;
     Detention.startOffset := 1 # 3;
     Detention.type := "background";
     Detention.flowIndex := 1 |}.

Definition running (ps : list Removal.particle) : Removal.state :=
  {| Removal.animationActive := true;
     Removal.canvas := true;
     Removal.ctx := true;
     Removal.particles := ps;
     Removal.selectedCountryName := Removal.Null |}.

Definition traveller : Detention.person :=
  {| Detention.path := Some [Chicago; ElPaso; Alexandria] |}.

Definition arrived : Detention.animatedPoint :=
  {| Detention.currentSegment := 1;
     Detention.pointProgress := 1;
     Detention.visible := true;
     Detention.pulsePhase := 0;
     Detention.trail := [] |}.

Definition bothArrived : Detention.animatedPoints :=
  {| Detention.person1 := arrived; Detention.person2 := arrived |}.

(** A destination on the prime meridian and a facility placed on it. *)
Definition Ghana : Removal.place :=
  {| Removal.lat := Some 6; Removal.lon := Some 0; Removal.name := Some "Ghana"%string |}.

Definition Greenwich : Detention.place :=
  {| Detention.lat := Some 51; Detention.lon := Some 0;
     Detention.facility_name := Some "Greenwich"%string |}.


(** The string built-ins on names of ASCII letters with single spaces between
    the words; the names of the sample have no leading article and no
    [and]. *)
Definition lowerAscii (c : Ascii.ascii) : Ascii.ascii :=
  let n := Ascii.nat_of_ascii c in
  if Nat.leb 65 n && Nat.leb n 90 then Ascii.ascii_of_nat (n + 32) else c.

Fixpoint lowerCase (s : string) : string :=
  match s with
  | EmptyString => EmptyString
  | String c rest => String (lowerAscii c) (lowerCase rest)
  end.

(** The pieces of [s] between spaces, after the piece [cur] that is being
    read. *)
Fixpoint pieces (cur s : string) : string * list string :=
  match s with
  | EmptyString => (cur, [])
  | String c rest =>
      if Ascii.eqb c (Ascii.ascii_of_nat 32) then (cur, let (w, ws) := pieces EmptyString rest in w :: ws)
      else pieces (cur ++ String c EmptyString) rest
  end.

Definition withoutSuffix (suffix s : string) : string :=
  let n := (String.length s - String.length suffix)%nat in
  if String.eqb (String.substring n (String.length suffix) s) suffix
     && Nat.leb (String.length suffix) (String.length s)
  then String.substring 0 n s else s.

#[global] Instance asciiStrings : Removal.Strings := {|
  Removal.toLowerCase := lowerCase;
  Removal.withoutLeadingThe := fun s => s;
  Removal.withoutOfAmerica := withoutSuffix " of america";
  Removal.withAmpersands := fun s => s;
  Removal.trim := fun s => s;
  Removal.splitSpaces := pieces EmptyString;
  Removal.codeUnits := String.length
|}.

(** Entering the first step, scrolling down. *)
Definition firstStep : Removal.response :=
  {| Removal.index := 0; Removal.scrollDirection := down |}.

(** The page of the removal narrative once the map, the flows of the
    scenario and two countries are loaded and the timer of step 4 has shown
    the countries. *)
Definition explored : Removal.page :=
  fst (Removal.run "undefined" []
         [Removal.MapLoaded true;
          Removal.FlowsLoaded halves (Some scenario);
          Removal.CountriesLoaded (Some ["Mexico"; "Canada"]%string);
          Removal.TimerFires Removal.ShowCountryLayers]
         Removal.initialPage).

Definition pointer : pixel := {| px := 40; py := 60 |}.

(** The story page after the interactive step has been entered. *)
Definition exploring : Detention.story :=
  fst (Detention.onStepEnter JS.NaN [traveller] None "step interactive-step"
         Detention.initialStory).

(** Scrolling back up from the interactive step, with a frame in between. *)
Definition scrolledBack : list Detention.storyEvent :=
  [Detention.Enter "step reflection-step"; Detention.Update 16;
   Detention.Enter "step story1-step"; Detention.Update 16].


Definition moved (o d : Detention.facilityRef) (c : Z) : Detention.transfer :=
  {| Detention.tOrigin := Some o;
     Detention.tDestination := Some d;
     Detention.tCount := JS.Num c |}.



(** Three periods of the migration chart. *)
Definition eras : list Migration.period :=
  [{| Migration.year := 1850; Migration.iconCount := 2;
      Migration.color := "#1f77b4" |};
   {| Migration.year := 1900; Migration.iconCount := 5;
      Migration.color := "#ff7f0e" |};
   {| Migration.year := 1950; Migration.iconCount := 4;
      Migration.color := "#2ca02c" |}]%string.

(** A projector that throws for every position. *)
Definition brokenProjector : projector := fun _ => None.

(** The readings of a clock that advances by a millisecond. *)
Definition millis : Detention.clock := fun n => (16 + Z.of_nat n)%Z.

(** The stage of the detention animation with the given globals. *)
Definition staging (g : Detention.story) : Detention.stage :=
  {| Detention.globals := g;
     Detention.detentionCanvas := true;
     Detention.detentionCtx := true;
     Detention.detentionParticles := [fromSeattle];
     Detention.detentionHighlights := [traveller];
     Detention.counters := (Detention.Element None, Detention.Element None);
     Detention.lastFrameTime := 0 |}.

(** After the intro step, and after the first story step that follows it. *)
Definition atIntro : Detention.stage :=
  staging (fst (Detention.storyRun JS.NaN [traveller] None
                  [Detention.Enter "step intro-step"]
                  Detention.initialStory)).

(** The stage after the intro step with two background particles. *)
Definition crowded : Detention.stage :=
  Detention.withDetentionParticles [fromSeattle; background] atIntro.

Definition atStory : Detention.stage :=
  staging (fst (Detention.storyRun JS.NaN [traveller] None
                  [Detention.Enter "step intro-step";
                   Detention.Enter "step story1-step"]
                  Detention.initialStory)).

End Sample.

(* ===================================================================== *)
(** * Part II: properties                                                 *)
(* ===================================================================== *)

(** ** The destination filter *)

Section Filter.
Context `{Turf}.
Import Removal.

Lemma applyKey_destinationName (key : filterKey) (p : particle) :
  destinationName (applyKey key p) = destinationName p.
Proof. destruct key; reflexivity. Qed.

Lemma applyKey_twice (key : filterKey) (p : particle) :
  applyKey key (applyKey key p) = applyKey key p.
Proof.
  destruct key as [| |k]; reflexivity.
Qed.

(** C5.  Applying the filter a second time with the same key changes
    nothing: the state after two applications, and with it the tag, opacity
    and colour of every particle, is the state after one. *)
Theorem filter_idempotent (key : filterKey) (st : state) :
  filterParticlesByDestination key (filterParticlesByDestination key st)
  = filterParticlesByDestination key st.
Proof.
  unfold filterParticlesByDestination.
  destruct (negb (canvas st) || negb (ctx st)
            || Nat.eqb (List.length (particles st)) 0) eqn:G.
  - rewrite G. reflexivity.
  - cbn [canvas ctx particles animationActive selectedCountryName].
    rewrite length_map, G. f_equal.
    rewrite map_map. apply map_ext. intros p. apply applyKey_twice.
Qed.

Lemma differsFrom_false (n : option string) (k : string) :
  differsFrom n k = false <-> n = Some k.
Proof.
  destruct n as [s|]; simpl.
  - rewrite negb_false_iff, String.eqb_eq. split; congruence.
  - split; discriminate.
Qed.

Lemma differsFrom_true (n : option string) (k : string) :
  differsFrom n k = true <-> n <> Some k.
Proof.
  rewrite <- differsFrom_false. destruct (differsFrom n k); split; congruence.
Qed.

Lemma looks_filter (key : filterKey) (st : state) :
  canvas st = true -> ctx st = true ->
  looks (filterParticlesByDestination key st)
  = map (fun p => look (applyKey key p)) (particles st).
Proof.
  intros Hc Hx. unfold looks, filterParticlesByDestination.
  rewrite Hc, Hx. simpl.
  destruct (particles st) as [|p ps] eqn:E; simpl.
  - rewrite E. reflexivity.
  - rewrite map_map. reflexivity.
Qed.

(** C4.  With the canvas overlay in place, [undefined] puts
    every particle in the default state (not filtered, opacity 1, red),
    [null] puts every particle in the faded state (filtered, opacity 0.2,
    gray), and a string key leaves exactly the particles whose destination
    name is the key in the default state and puts the others in the
    de-emphasised state (filtered, opacity 0.5, gray).  On a field that is
    not empty the result of [null] differs from the results of [undefined]
    and of every string key; the results of [undefined] and of a string key
    differ exactly when some particle has another destination than the
    key. *)
Theorem filter_three_way (st : state)
  (Hcanvas : canvas st = true) (Hctx : ctx st = true) :
  looks (filterParticlesByDestination Undefined st)
    = map (fun _ => (false, 1, red)) (particles st)
  /\ looks (filterParticlesByDestination Null st)
    = map (fun _ => (true, 2 # 10, gray)) (particles st)
  /\ (forall k i p, nth_error (particles st) i = Some p ->
        (destinationName p = Some k ->
         nth_error (looks (filterParticlesByDestination (Key k) st)) i
         = Some (false, 1, red))
        /\ (destinationName p <> Some k ->
            nth_error (looks (filterParticlesByDestination (Key k) st)) i
            = Some (true, 5 # 10, gray)))
  /\ (particles st <> [] ->
        looks (filterParticlesByDestination Undefined st)
          <> looks (filterParticlesByDestination Null st)
        /\ forall k, looks (filterParticlesByDestination Null st)
                     <> looks (filterParticlesByDestination (Key k) st))
  /\ (forall k,
        looks (filterParticlesByDestination Undefined st)
          <> looks (filterParticlesByDestination (Key k) st)
        <-> exists p, In p (particles st) /\ destinationName p <> Some k).
Proof.
  pose proof (fun key => looks_filter key st Hcanvas Hctx) as L.
  split; [apply L|]. split; [apply L|]. split; [|split].
  - intros k i p Hi. rewrite L, nth_error_map, Hi. simpl.
    unfold look, applyKey. simpl. split.
    + intros E. apply differsFrom_false in E. rewrite E. reflexivity.
    + intros E. apply differsFrom_true in E. rewrite E. reflexivity.
  - intros Hne. split; [|intros k]; rewrite !L;
      destruct (particles st) as [|p ps]; try congruence; simpl.
    + discriminate.
    + unfold look. simpl.
      destruct (differsFrom (destinationName p) k); discriminate.
  - intros k. rewrite !L. clear L.
    induction (particles st) as [|p ps IH].
    + simpl. split; [congruence|]. intros (q & [] & _).
    + simpl. unfold look at 1. simpl.
      destruct (differsFrom (destinationName p) k) eqn:E.
      * split; [|discriminate]. intros _. exists p.
        split; [left; reflexivity|]. now apply differsFrom_true.
      * split.
        -- intros Hd. destruct (proj1 IH) as (q & Hq & Hk).
           { intros Heq. apply Hd. f_equal. exact Heq. }
           exists q. split; [right; exact Hq|exact Hk].
        -- intros (q & [->|Hq] & Hk) Heq.
           ++ apply differsFrom_true in Hk. congruence.
           ++ injection Heq as Heq. revert Heq. apply IH. eauto.
Qed.

(** C4, the limit of the distinction: when the key names the destination of
    every particle, the field after the string key cannot be told from the
    field after [undefined]. *)
Lemma filter_key_matching_all_is_default :
  Removal.particles (Sample.running [Sample.toMexico]) <> []
  /\ looks (filterParticlesByDestination Undefined (Sample.running [Sample.toMexico]))
     = looks (filterParticlesByDestination (Key "Mexico") (Sample.running [Sample.toMexico])).
Proof. split; [discriminate|reflexivity]. Qed.

End Filter.

Lemma filter_three_way_witness :
  Removal.looks (Removal.filterParticlesByDestination Removal.Undefined
           (Sample.running [Sample.toMexico; Sample.fromWashington]))
    <> Removal.looks (Removal.filterParticlesByDestination Removal.Null
                (Sample.running [Sample.toMexico; Sample.fromWashington])).
Proof.
  apply (filter_three_way
           (Sample.running [Sample.toMexico; Sample.fromWashington])
           eq_refl eq_refl).
  discriminate.
Defined.

(** ** Leaving the last step *)




(** ** The animated point of a highlighted person *)

Section AnimatedPoint.
Import Detention.

Variable who : person.
Variable pth : list place.
Hypothesis Hpath : path who = Some pth.

Lemma update_atDestination (dt : Q) (point : animatedPoint) :
  atDestination pth point ->
  atDestination pth (updateAnimatedPoint dt (Some who) point).
Proof.
  intros [Hseg Hprog]. unfold updateAnimatedPoint.
  destruct (visible point); simpl; [|split; assumption].
  rewrite Hpath.
  destruct (Z.ltb (Z.of_nat (List.length pth)) 2); [split; assumption|].
  rewrite Hprog.
  change (Qle_bool 1 (1 + SEGMENT_ANIMATION_SPEED)) with true. cbv iota.
  rewrite Hseg.
  replace (Z.leb (Z.of_nat (List.length pth) - 1)
             (Z.of_nat (List.length pth) - 2 + 1)) with true
    by (symmetry; apply Z.leb_le; lia).
  split; reflexivity.
Qed.

Lemma updates_atDestination (deltas : list Q) (point : animatedPoint) :
  atDestination pth point ->
  atDestination pth (updates (Some who) deltas point).
Proof.
  revert point. induction deltas as [|dt rest IH]; intros point Hend.
  - exact Hend.
  - simpl. apply IH. now apply update_atDestination.
Qed.

Lemma update_segment_bounded (dt : Q) (point : animatedPoint) :
  (0 <= currentSegment point <= Z.of_nat (List.length pth) - 2)%Z ->
  (0 <= currentSegment (updateAnimatedPoint dt (Some who) point)
   <= Z.of_nat (List.length pth) - 2)%Z.
Proof.
  intros Hb. unfold updateAnimatedPoint.
  destruct (visible point); simpl; [|assumption].
  rewrite Hpath.
  destruct (Z.ltb (Z.of_nat (List.length pth)) 2) eqn:Hlen; [assumption|].
  apply Z.ltb_ge in Hlen.
  destruct (Qle_bool 1 (pointProgress point + SEGMENT_ANIMATION_SPEED));
    [|assumption].
  destruct (Z.leb (Z.of_nat (List.length pth) - 1) (currentSegment point + 1))
    eqn:Hend; simpl.
  - lia.
  - apply Z.leb_gt in Hend. lia.
Qed.

(** *** The way to the destination *)

Hypothesis Hlen : (2 <= List.length pth)%nat.

Lemma phase_incomplete (j : nat) :
  (j <= 49)%nat -> Qle_bool 1 (phaseAfter j) = false.
Proof.
  intros Hj.
  assert (Hall : forallb (fun k => negb (Qle_bool 1 (phaseAfter k))) (seq 0 50)
                 = true) by (vm_compute; reflexivity).
  rewrite forallb_forall in Hall. apply negb_true_iff, Hall, in_seq. lia.
Qed.

Lemma updates_app (d1 d2 : list Q) (point : animatedPoint) :
  updates (Some who) (d1 ++ d2) point
  = updates (Some who) d2 (updates (Some who) d1 point).
Proof.
  revert point. induction d1 as [|dt d1 IH]; intros point; simpl;
    [reflexivity|apply IH].
Qed.

(** Within a segment the point keeps its index and adds the speed. *)
Lemma within_segment (deltas : list Q) :
  forall (j : nat) (point : animatedPoint),
    visible point = true -> pointProgress point = phaseAfter j ->
    (j + List.length deltas <= 49)%nat ->
    visible (updates (Some who) deltas point) = true
    /\ currentSegment (updates (Some who) deltas point) = currentSegment point
    /\ pointProgress (updates (Some who) deltas point)
       = phaseAfter (j + List.length deltas).
Proof.
  induction deltas as [|dt rest IH]; intros j point Hv Hp Hj; simpl in *.
  - rewrite Nat.add_0_r. auto.
  - assert (Hstep : updateAnimatedPoint dt (Some who) point
                    = {| currentSegment := currentSegment point;
                         pointProgress := phaseAfter (S j);
                         visible := true;
                         pulsePhase := pulsePhase point + dt * (3 # 1000);
                         trail := trail point |}).
    { unfold updateAnimatedPoint. rewrite Hv, Hpath. simpl negb. cbv iota.
      replace (Z.ltb (Z.of_nat (List.length pth)) 2) with false
        by (symmetry; apply Z.ltb_ge; lia).
      rewrite Hp. change (phaseAfter j + SEGMENT_ANIMATION_SPEED)
        with (phaseAfter (S j)).
      rewrite phase_incomplete by lia. reflexivity. }
    rewrite Hstep.
    destruct (IH (S j)
                {| currentSegment := currentSegment point;
                   pointProgress := phaseAfter (S j);
                   visible := true;
                   pulsePhase := pulsePhase point + dt * (3 # 1000);
                   trail := trail point |} eq_refl eq_refl)
      as (H1 & H2 & H3); [simpl; lia|].
    rewrite H1, H2, H3. simpl currentSegment.
    replace (j + S (List.length rest))%nat with (S j + List.length rest)%nat by lia.
    auto.
Qed.

(** The fiftieth update of a segment completes it. *)
Lemma segment_completed (dt : Q) (point : animatedPoint) :
  visible point = true -> pointProgress point = phaseAfter 49 ->
  let point' := updateAnimatedPoint dt (Some who) point in
  visible point' = true
  /\ if Z.leb (Z.of_nat (List.length pth) - 1) (currentSegment point + 1)
     then atDestination pth point'
     else currentSegment point' = (currentSegment point + 1)%Z
          /\ pointProgress point' = 0.
Proof.
  intros Hv Hp. unfold updateAnimatedPoint. rewrite Hv, Hpath. simpl negb.
  cbv iota.
  replace (Z.ltb (Z.of_nat (List.length pth)) 2) with false
    by (symmetry; apply Z.ltb_ge; lia).
  rewrite Hp.
  change (Qle_bool 1 (phaseAfter 49 + SEGMENT_ANIMATION_SPEED)) with true.
  cbv iota zeta.
  destruct (Z.leb (Z.of_nat (List.length pth) - 1) (currentSegment point + 1));
    simpl; repeat split.
Qed.

Lemma reaches_destination (m : nat) :
  forall (deltas : list Q) (point : animatedPoint),
    visible point = true -> pointProgress point = 0 ->
    (currentSegment point + Z.of_nat m = Z.of_nat (List.length pth) - 2)%Z ->
    List.length deltas = (50 * S m)%nat ->
    atDestination pth (updates (Some who) deltas point).
Proof.
  induction m as [|m IH]; intros deltas point Hv Hp Hseg Hn.
  - rewrite <- (firstn_skipn 49 deltas), updates_app.
    destruct (within_segment (firstn 49 deltas) 0 point Hv Hp) as (Hvis & Hsame & Hphase).
    { rewrite length_firstn. lia. }
    rewrite length_firstn, Hn in Hphase. simpl in Hphase.
    destruct (skipn 49 deltas) as [|dt rest] eqn:E.
    { apply (f_equal (@List.length Q)) in E. rewrite length_skipn, Hn in E.
      discriminate. }
    assert (Hrest : rest = []).
    { apply (f_equal (@List.length Q)) in E. rewrite length_skipn, Hn in E.
      simpl in E. destruct rest; [reflexivity|discriminate]. }
    subst rest. cbn [updates].
    destruct (segment_completed dt _ Hvis Hphase) as (_ & Hdone).
    rewrite Hsame in Hdone.
    replace (Z.leb (Z.of_nat (List.length pth) - 1) (currentSegment point + 1))
      with true in Hdone by (symmetry; apply Z.leb_le; lia).
    exact Hdone.
  - rewrite <- (firstn_skipn 49 deltas), updates_app.
    destruct (within_segment (firstn 49 deltas) 0 point Hv Hp) as (Hvis & Hsame & Hphase).
    { rewrite length_firstn. lia. }
    rewrite length_firstn, Hn in Hphase.
    replace (0 + Nat.min 49 (50 * S (S m)))%nat with 49%nat in Hphase by lia.
    destruct (skipn 49 deltas) as [|dt rest] eqn:E.
    { apply (f_equal (@List.length Q)) in E. rewrite length_skipn, Hn in E.
      simpl in E. lia. }
    assert (Hrest : List.length rest = (50 * S m)%nat).
    { apply (f_equal (@List.length Q)) in E. rewrite length_skipn, Hn in E.
      simpl in E. lia. }
    cbn [updates].
    destruct (segment_completed dt _ Hvis Hphase) as (Hvis' & Hnext).
    rewrite Hsame in Hnext.
    replace (Z.leb (Z.of_nat (List.length pth) - 1) (currentSegment point + 1))
      with false in Hnext by (symmetry; apply Z.leb_gt; lia).
    destruct Hnext as (Hseg' & Hzero).
    apply IH; [exact Hvis'|exact Hzero|rewrite Hseg'; lia|exact Hrest].
Qed.

End AnimatedPoint.

Section AnimatedPoints.
Import Detention.

Lemma frames_pointOf (detentionHighlights : list person) (i : nat)
  (deltas : list Q) (pts : animatedPoints) :
  (i < 2)%nat ->
  pointOf i (frames detentionHighlights deltas pts)
  = updates (nth_error detentionHighlights i) deltas (pointOf i pts).
Proof.
  intros Hi. revert pts. induction deltas as [|dt rest IH]; intros pts; simpl.
  - reflexivity.
  - rewrite IH. destruct i as [|[|i]]; [reflexivity|reflexivity|lia].
Qed.

(** C10.  The animated point of a highlighted person does not loop.  Once
    the point of either person rests at the end of the last segment of the
    path (segment [path.length - 2], progress 1), every further frame of
    [updateAnimatedPoints], whatever the frame times, leaves it there: the
    segment index and the progress do not change, so the index is not reset
    to the first segment.  No update takes the segment index out of
    [0 .. path.length - 2].  A point started by [startPersonAnimation] on a
    path of at least two facilities does reach that state, after fifty
    frames per segment. *)
Theorem point_stays_at_destination
  (detentionHighlights : list person) (i : nat) (who : person)
  (pth : list place) (deltas : list Q) (pts : animatedPoints)
  (Hi : (i < 2)%nat)
  (Hwho : nth_error detentionHighlights i = Some who)
  (Hpath : path who = Some pth)
  (Hend : atDestination pth (pointOf i pts)) :
  currentSegment (pointOf i (frames detentionHighlights deltas pts))
    = (Z.of_nat (List.length pth) - 2)%Z
  /\ pointProgress (pointOf i (frames detentionHighlights deltas pts)) = 1
  /\ (forall (dt : Q) (other : animatedPoints),
        (0 <= currentSegment (pointOf i other)
         <= Z.of_nat (List.length pth) - 2)%Z ->
        (0 <= currentSegment
                (pointOf i (updateAnimatedPoints dt detentionHighlights other))
         <= Z.of_nat (List.length pth) - 2)%Z)
  /\ ((2 <= List.length pth)%nat ->
      forall (journey : list Q) (other : animatedPoints),
        List.length journey = (50 * (List.length pth - 1))%nat ->
        pointOf i other = startPersonAnimation (pointOf i other) ->
        atDestination pth (pointOf i (frames detentionHighlights journey other))).
Proof.
  rewrite frames_pointOf, Hwho by exact Hi.
  destruct (updates_atDestination who pth Hpath deltas _ Hend) as [Hseg Hprog].
  split; [exact Hseg|]. split; [exact Hprog|]. split.
  - intros dt other Hb.
    change (updateAnimatedPoints dt detentionHighlights other)
      with (frames detentionHighlights [dt] other).
    rewrite frames_pointOf, Hwho by exact Hi. simpl.
    now apply update_segment_bounded.
  - intros Hlen journey other Hn Hstart.
    rewrite frames_pointOf, Hwho by exact Hi.
    apply (reaches_destination who pth Hpath Hlen (List.length pth - 2)).
    + rewrite Hstart. reflexivity.
    + rewrite Hstart. reflexivity.
    + rewrite Hstart. simpl. lia.
    + rewrite Hn. f_equal. lia.
Qed.

End AnimatedPoints.

Lemma point_stays_at_destination_witness :
  Detention.currentSegment
    (Detention.pointOf 0
       (Detention.frames [Sample.traveller] [16; 17; 16; 33] Sample.bothArrived))
  = 1%Z
  /\ Detention.pointProgress
       (Detention.pointOf 0
          (Detention.frames [Sample.traveller] [16; 17; 16; 33] Sample.bothArrived))
     = 1.
Proof.
  pose proof (point_stays_at_destination [Sample.traveller] 0 Sample.traveller
                [Sample.Chicago; Sample.ElPaso; Sample.Alexandria]
                [16; 17; 16; 33] Sample.bothArrived
                (Nat.lt_0_succ 1) eq_refl eq_refl (conj eq_refl eq_refl))
    as (Hseg & Hprog & _).
  split; [exact Hseg|exact Hprog].
Defined.

(** ** The phase of a particle *)

Lemma Qle_bool_false (x y : Q) : Qle_bool x y = false <-> y < x.
Proof.
  split.
  - intros E. apply Qnot_le_lt. intros Hle.
    apply Qle_bool_iff in Hle. congruence.
  - intros Hlt. destruct (Qle_bool x y) eqn:E; [|reflexivity].
    apply Qle_bool_iff in E. exfalso. apply (Qlt_not_le _ _ Hlt E).
Qed.

Lemma advance_wraps (p s o : Q) : 1 <= p + s -> advance p s o = o.
Proof.
  intros Hle. unfold advance. apply Qle_bool_iff in Hle. now rewrite Hle.
Qed.

Lemma advance_moves (p s o : Q) : p + s < 1 -> advance p s o = p + s.
Proof.
  intros Hlt. unfold advance. apply Qle_bool_false in Hlt. now rewrite Hlt.
Qed.

Lemma advance_below_one (p s o : Q) : o < 1 -> advance p s o < 1.
Proof.
  intros Ho. unfold advance.
  destruct (Qle_bool 1 (p + s)) eqn:E; [exact Ho|].
  now apply Qle_bool_false.
Qed.

Lemma advance_above_offset (p s o : Q) :
  0 <= s -> o <= p -> o <= advance p s o.
Proof.
  intros Hs Hp. unfold advance.
  destruct (Qle_bool 1 (p + s)); [apply Qle_refl|]. lra.
Qed.

Lemma forEachPush_In (A B : Type) (f : nat -> nat -> A -> list B) (l : list A) :
  forall (pushed i : nat) (b : B),
    In b (forEachPush f pushed i l) ->
    exists pushed' i' a, In a l /\ In b (f pushed' i' a).
Proof.
  induction l as [|a l IH]; intros pushed i b Hb; simpl in Hb.
  - contradiction.
  - apply in_app_or in Hb. destruct Hb as [Hb|Hb].
    + exists pushed, i, a. split; [left; reflexivity|exact Hb].
    + destruct (IH _ _ _ Hb) as (k & j & a' & Ha & Hin).
      exists k, j, a'. split; [right; exact Ha|exact Hin].
Qed.

Section Phase.
Context `{Turf}.

Lemma createParticles_phased (random : nat -> Q) (flows : list Removal.flow)
  (ps : list Removal.particle) (p : Removal.particle) :
  (forall k, 0 <= random k /\ random k < 1) ->
  Removal.createParticles random flows = Some ps -> In p ps ->
  Removal.phased p /\ Removal.progress p = 0
  /\ Removal.speed p = Removal.SPEED_FACTOR.
Proof.
  intros Hr Hc Hp. unfold Removal.createParticles in Hc.
  destruct (forallb Removal.guardReturns flows); [|discriminate].
  injection Hc as <-.
  apply forEachPush_In in Hp. destruct Hp as (k & i & f & _ & Hp).
  unfold Removal.particlesOfFlow in Hp.
  destruct (Removal.origin f) as [o|]; [|contradiction].
  destruct (Removal.destination f) as [d|]; [|contradiction].
  destruct (JS.truthyNum (Removal.lat o)); [|contradiction].
  destruct (JS.truthyNum (Removal.lon o)); [|contradiction].
  destruct (JS.truthyNum (Removal.lat d)); [|contradiction].
  destruct (JS.truthyNum (Removal.lon d)); [|contradiction].
  destruct (Qeq_bool q q1 && Qeq_bool q0 q2); [contradiction|].
  cbv zeta in Hp.
  destruct (JS.Qltb _ 1); [contradiction|].
  apply in_map_iff in Hp. destruct Hp as (j & <- & _).
  unfold Removal.phased. simpl. destruct (Hr (k + j)%nat) as [H0 H1].
  repeat split; auto. unfold Removal.SPEED_FACTOR. lra.
Qed.

Lemma stagger_in_range (j : nat) (n : Z) :
  (j < Z.to_nat n)%nat ->
  0 <= inject_Z (Z.of_nat j) / inject_Z n
  /\ inject_Z (Z.of_nat j) / inject_Z n < 1.
Proof.
  intros Hj.
  assert (Hn : (0 < n)%Z) by lia.
  assert (Hn' : 0 < inject_Z n)
    by (change 0 with (inject_Z 0); rewrite <- Zlt_Qlt; exact Hn).
  split.
  - apply Qle_shift_div_l; [exact Hn'|]. rewrite Qmult_0_l.
    change 0 with (inject_Z 0). rewrite <- Zle_Qle. lia.
  - apply Qlt_shift_div_r; [exact Hn'|]. rewrite Qmult_1_l.
    rewrite <- Zlt_Qlt. lia.
Qed.

Lemma createDetentionParticles_phased (flows : list Detention.flow)
  (p : Detention.particle) :
  In p (Detention.createDetentionParticles flows) ->
  Detention.phased p /\ Detention.progress p = Detention.startOffset p.
Proof.
  intros Hp. unfold Detention.createDetentionParticles in Hp.
  apply forEachPush_In in Hp. destruct Hp as (k & i & f & _ & Hp).
  unfold Detention.particlesOfFlow in Hp.
  destruct (Detention.origin f) as [o|]; [|contradiction].
  destruct (Detention.destination f) as [d|]; [|contradiction].
  destruct (JS.truthyNum (Detention.lat o)); [|contradiction].
  destruct (JS.truthyNum (Detention.lon o)); [|contradiction].
  destruct (JS.truthyNum (Detention.lat d)); [|contradiction].
  destruct (JS.truthyNum (Detention.lon d)); [|contradiction].
  destruct (Qeq_bool q q1 && Qeq_bool q0 q2); [contradiction|].
  cbv zeta in Hp.
  destruct (JS.Qltb _ (1 # 10)); [contradiction|].
  destruct (Detention.numParticles (Detention.count f)) as [n|]; [|contradiction].
  apply in_map_iff in Hp. destruct Hp as (j & <- & Hj).
  apply in_seq in Hj. unfold Detention.phased. simpl.
  destruct (stagger_in_range j n) as [H0 H1]; [lia|].
  repeat split; auto. unfold Detention.DETENTION_SPEED_FACTOR. lra.
Qed.

End Phase.

Section Wrap.

Variables s o : Q.
Hypothesis Ho : o < 1.
Hypothesis Hs : 0 <= s.

Lemma run_below_one (n : nat) (x : Q) :
  Nat.iter (S n) (fun y => advance y s o) x < 1.
Proof. simpl. now apply advance_below_one. Qed.

Lemma run_above_offset (n : nat) (x : Q) :
  o <= x -> o <= Nat.iter n (fun y => advance y s o) x.
Proof.
  intros Hx. induction n as [|n IH]; simpl.
  - exact Hx.
  - now apply advance_above_offset.
Qed.

Lemma run_after_wrap (n m : nat) (x : Q) :
  1 <= Nat.iter n (fun y => advance y s o) x + s ->
  o <= Nat.iter (S n + m) (fun y => advance y s o) x
  /\ Nat.iter (S n + m) (fun y => advance y s o) x < 1.
Proof.
  intros Hw. split.
  - rewrite Nat.add_comm, Nat.iter_add. apply run_above_offset.
    simpl. rewrite advance_wraps by exact Hw. apply Qle_refl.
  - apply (run_below_one (n + m) x).
Qed.

End Wrap.

Section Progress.
Context `{Turf}.

Lemma removal_ticks (n : nat) (p : Removal.particle) :
  Removal.progress (Nat.iter n Removal.tick p)
  = Nat.iter n (fun y => advance y (Removal.speed p) (Removal.startOffset p))
      (Removal.progress p)
  /\ Removal.speed (Nat.iter n Removal.tick p) = Removal.speed p
  /\ Removal.startOffset (Nat.iter n Removal.tick p) = Removal.startOffset p.
Proof.
  induction n as [|n (IH1 & IH2 & IH3)]; simpl.
  - repeat split.
  - rewrite IH1, IH2, IH3. repeat split.
Qed.

Lemma detention_ticks (n : nat) (p : Detention.particle) :
  Detention.progress (Nat.iter n Detention.tick p)
  = Nat.iter n (fun y => advance y (Detention.speed p) (Detention.startOffset p))
      (Detention.progress p)
  /\ Detention.speed (Nat.iter n Detention.tick p) = Detention.speed p
  /\ Detention.startOffset (Nat.iter n Detention.tick p) = Detention.startOffset p.
Proof.
  induction n as [|n (IH1 & IH2 & IH3)]; simpl.
  - repeat split.
  - rewrite IH1, IH2, IH3. repeat split.
Qed.

(** C2.  For a particle of either map whose start offset lies in [0, 1) and
    whose speed is not negative (as the builders make them): a frame in
    which [progress + speed] reaches 1 leaves the progress at the start
    offset, not at 0; after the wrap check of any frame the progress is
    below 1; and from the first wrap on, after any number of further
    frames, the progress lies in [startOffset, 1). *)
Theorem progress_in_range_after_wrap (p : Removal.particle) (q : Detention.particle)
  (Hp : Removal.phased p) (Hq : Detention.phased q) :
  ((1 <= Removal.progress p + Removal.speed p ->
    Removal.progress (Removal.tick p) = Removal.startOffset p)
   /\ (forall n, Removal.progress (Nat.iter (S n) Removal.tick p) < 1)
   /\ (forall n m,
         1 <= Removal.progress (Nat.iter n Removal.tick p) + Removal.speed p ->
         Removal.startOffset p
           <= Removal.progress (Nat.iter (S n + m) Removal.tick p)
         /\ Removal.progress (Nat.iter (S n + m) Removal.tick p) < 1))
  /\ ((1 <= Detention.progress q + Detention.speed q ->
       Detention.progress (Detention.tick q) = Detention.startOffset q)
      /\ (forall n, Detention.progress (Nat.iter (S n) Detention.tick q) < 1)
      /\ (forall n m,
            1 <= Detention.progress (Nat.iter n Detention.tick q)
                 + Detention.speed q ->
            Detention.startOffset q
              <= Detention.progress (Nat.iter (S n + m) Detention.tick q)
            /\ Detention.progress (Nat.iter (S n + m) Detention.tick q) < 1)).
Proof.
  destruct Hp as (_ & Hp1 & Hp2). destruct Hq as (_ & Hq1 & Hq2).
  split; (split; [|split]).
  - intros Hw. simpl. now apply advance_wraps.
  - intros n. rewrite (proj1 (removal_ticks (S n) p)).
    now apply run_below_one.
  - intros n m Hw. rewrite (proj1 (removal_ticks n p)) in Hw.
    rewrite (proj1 (removal_ticks (S n + m) p)).
    now apply run_after_wrap.
  - intros Hw. simpl. now apply advance_wraps.
  - intros n. rewrite (proj1 (detention_ticks (S n) q)).
    now apply run_below_one.
  - intros n m Hw. rewrite (proj1 (detention_ticks n q)) in Hw.
    rewrite (proj1 (detention_ticks (S n + m) q)).
    now apply run_after_wrap.
Qed.

End Progress.

Lemma progress_in_range_after_wrap_witness :
  Removal.progress (Removal.tick Sample.arriving) = 1 # 2
  /\ Detention.progress (Detention.tick Sample.background) = 1 # 3
  /\ Removal.progress (Nat.iter 3 Removal.tick Sample.arriving) < 1.
Proof.
  assert (Hp : Removal.phased Sample.arriving)
    by (repeat split; unfold Qle, Qlt; simpl; lia).
  assert (Hq : Detention.phased Sample.background)
    by (repeat split; unfold Qle, Qlt; simpl; lia).
  pose proof (progress_in_range_after_wrap Sample.arriving Sample.background Hp Hq)
    as ((Hwrap & Hbelow & _) & (Hwrap' & _)).
  split; [|split].
  - apply Hwrap. unfold Qle. simpl. lia.
  - apply Hwrap'. unfold Qle. simpl. lia.
  - apply (Hbelow 2%nat).
Defined.

(** ** Drawing a particle *)

Section Drawing.
Context `{Turf}.
Import Removal.

Lemma sampleAt_finite (dist prog so : Q) :
  so < 1 -> sampleAt dist prog so = JS.Fin (dist * ((prog - so) / (1 - so))).
Proof.
  intros Hso. unfold sampleAt, JS.jsdiv.
  destruct (Qeq_bool (1 - so) 0) eqn:E.
  - apply Qeq_bool_iff in E. lra.
  - reflexivity.
Qed.

Lemma draw_waiting (proj : projector) (p : particle) :
  progress p < startOffset p -> draw proj p = [].
Proof.
  intros Hlt. unfold draw. apply Qle_bool_false in Hlt. now rewrite Hlt.
Qed.

Lemma fresh_progress (p : particle) (n : nat) :
  progress p = 0 -> 0 <= speed p -> startOffset p < 1 ->
  inject_Z (Z.of_nat n) * speed p < startOffset p ->
  progress (Nat.iter n tick p) == inject_Z (Z.of_nat n) * speed p.
Proof.
  intros H0 Hs Ho. induction n as [|n IH]; intros Hn.
  - simpl. rewrite H0. ring.
  - assert (E : inject_Z (Z.of_nat (S n)) * speed p
                == inject_Z (Z.of_nat n) * speed p + speed p).
    { rewrite Nat2Z.inj_succ. unfold Z.succ. rewrite inject_Z_plus. ring. }
    rewrite E in Hn. rewrite E.
    assert (Hn' : inject_Z (Z.of_nat n) * speed p < startOffset p) by lra.
    specialize (IH Hn').
    change (Nat.iter (S n) tick p) with (tick (Nat.iter n tick p)).
    unfold tick at 1. simpl.
    destruct (removal_ticks n p) as (_ & -> & ->).
    rewrite advance_moves by lra. lra.
Qed.

(** C9.  A particle is drawn only when its progress has reached its start
    offset, and the circle is then placed at the projection of the point
    [turf.along] returns for the distance
    [distance * ((progress - startOffset) / (1 - startOffset))]; below the
    start offset nothing is drawn.  A particle built with progress 0 stays
    undrawn in frame [n] when [n] steps of its speed end below its start
    offset by more than [n * 2^-53], which is more than the rounding of the
    [n] additions can add up to; in particular a particle that
    [createParticles] built with start offset 0.99 is not drawn in any of
    the frames before frame 1100, the frame in which its progress reaches
    0.99.  Summed up in doubles, the phase of that particle is below 0.99 in
    each of the first 1099 frames and has reached it in frame 1100. *)
Theorem drawn_from_start_offset (proj : projector) (p : particle) :
  (forall call, In call (draw proj p) ->
     startOffset p <= progress p
     /\ exists c pix,
          along (line p) (sampleAt (pdistance p) (progress p) (startOffset p))
            = Some c
          /\ proj c = Some pix
          /\ call = FillCircle pix PARTICLE_RADIUS (styleOf p))
  /\ (startOffset p < 1 ->
      sampleAt (pdistance p) (progress p) (startOffset p)
      = JS.Fin (pdistance p
                * ((progress p - startOffset p) / (1 - startOffset p))))
  /\ (progress p < startOffset p -> draw proj p = [])
  /\ (forall n,
        progress p = 0 -> 0 <= speed p -> startOffset p < 1 ->
        inject_Z (Z.of_nat n) * (speed p + (1 # 2 ^ 53)) < startOffset p ->
        draw proj (Nat.iter n tick p) = [])
  /\ (forall random flows ps n,
        (forall k, 0 <= random k /\ random k < 1) ->
        createParticles random flows = Some ps -> In p ps ->
        startOffset p == 99 # 100 -> (n < 1100)%nat ->
        progress (Nat.iter n tick p) < 99 # 100
        /\ draw proj (Nat.iter n tick p) = [])
  /\ (forallb (fun phase => negb (reached phase (JS.literal 99 100)))
        (phasesDouble 1099 (JS.ofInteger 0) SPEED_FACTOR_double
           (JS.literal 99 100)) = true
      /\ option_map (fun phase => reached phase (JS.literal 99 100))
           (nth_error
              (phasesDouble 1100 (JS.ofInteger 0) SPEED_FACTOR_double
                 (JS.literal 99 100)) 1099)
         = Some true).
Proof.
  assert (Hfresh : forall n,
            progress p = 0 -> 0 <= speed p -> startOffset p < 1 ->
            inject_Z (Z.of_nat n) * speed p < startOffset p ->
            progress (Nat.iter n tick p) < startOffset p
            /\ draw proj (Nat.iter n tick p) = []).
  { intros n H0 Hs Ho Hn.
    pose proof (fresh_progress p n H0 Hs Ho Hn) as E.
    assert (Hlt : progress (Nat.iter n tick p) < startOffset p) by lra.
    split; [exact Hlt|]. apply draw_waiting.
    destruct (removal_ticks n p) as (_ & _ & ->). exact Hlt. }
  split; [|split; [|split; [|split; [|split]]]].
  - intros call Hin. unfold draw in Hin.
    destruct (Qle_bool (startOffset p) (progress p)) eqn:Hvis; [|contradiction].
    apply Qle_bool_iff in Hvis. split; [exact Hvis|].
    destruct (along _ _) as [c|]; [|contradiction].
    destruct (proj c) as [pix|] eqn:Hproj; [|contradiction].
    destruct Hin as [<-|[]]. exists c, pix. auto.
  - apply sampleAt_finite.
  - apply draw_waiting.
  - intros n H0 Hs Ho Hn. apply Hfresh; try assumption.
    assert (Hn0 : 0 <= inject_Z (Z.of_nat n)).
    { change 0 with (inject_Z 0). rewrite <- Zle_Qle. lia. }
    assert (Hm : 0 <= inject_Z (Z.of_nat n) * (1 # 2 ^ 53)).
    { apply Qmult_le_0_compat; [exact Hn0|]. unfold Qle. simpl. lia. }
    lra.
  - intros random flows ps n Hr Hc Hin Hso Hn.
    destruct (createParticles_phased random flows ps p Hr Hc Hin)
      as ((_ & Ho & Hs) & H0 & Hspeed).
    assert (Hx : inject_Z (Z.of_nat n) <= 1099).
    { change 1099 with (inject_Z 1099). rewrite <- Zle_Qle. lia. }
    destruct (Hfresh n H0 Hs Ho) as [Hlt Hd].
    + rewrite Hspeed, Hso. unfold SPEED_FACTOR. lra.
    + split; [lra|exact Hd].
  - split; vm_compute; reflexivity.
Qed.

End Drawing.

(** The margin is needed: 1100 steps of 0.0009 are 0.99 and lie below the
    start offset 0.990000000000001, but summed up in doubles they come to
    0.9900000000000112, and the particle is drawn in frame 1100. *)
Example rounding_carries_a_phase_past_its_offset :
  inject_Z 1100 * Removal.SPEED_FACTOR < 990000000000001 # 10 ^ 15
  /\ option_map
       (fun phase =>
          Removal.reached phase (JS.literal 990000000000001 (10 ^ 15)))
       (nth_error
          (Removal.phasesDouble 1100 (JS.ofInteger 0)
             Removal.SPEED_FACTOR_double
             (JS.literal 990000000000001 (10 ^ 15))) 1099)
     = Some true.
Proof. split; [unfold Qlt; simpl; lia|vm_compute; reflexivity]. Qed.

Lemma drawn_from_start_offset_witness :
  Removal.createParticles Sample.late [Sample.removal Sample.CA Sample.Mexico 100 1]
    = Some [Sample.lateParticle]
  /\ Removal.draw Sample.plainProjector
       (Nat.iter 1099 Removal.tick Sample.lateParticle) = [].
Proof.
  assert (Hbuilt : Removal.createParticles Sample.late
                     [Sample.removal Sample.CA Sample.Mexico 100 1]
                   = Some [Sample.lateParticle]) by reflexivity.
  split; [exact Hbuilt|].
  pose proof (drawn_from_start_offset Sample.plainProjector Sample.lateParticle)
    as (_ & _ & _ & _ & Hlate & _).
  apply (Hlate Sample.late [Sample.removal Sample.CA Sample.Mexico 100 1]
           [Sample.lateParticle] 1099%nat).
  - intros k. unfold Sample.late, Qle, Qlt. simpl. lia.
  - exact Hbuilt.
  - left. reflexivity.
  - reflexivity.
  - lia.
Defined.

(** ** A frame with a particle that cannot be placed *)

Lemma forEachDraw_spec (P : Type) (step : P -> P * list drawCall) (ps : list P) :
  forEachDraw step ps
  = (map (fun p => fst (step p)) ps, flat_map (fun p => snd (step p)) ps).
Proof.
  induction ps as [|p ps IH]; simpl.
  - reflexivity.
  - rewrite IH. destruct (step p). reflexivity.
Qed.

Section Frame.
Context `{Turf}.

Lemma removal_draw_positioned (proj : projector) (p : Removal.particle) :
  Removal.draw proj p
  = if Qle_bool (Removal.startOffset p) (Removal.progress p) then
      match Removal.positioned proj p with
      | Some pix => [FillCircle pix Removal.PARTICLE_RADIUS (Removal.styleOf p)]
      | None => []
      end
    else [].
Proof.
  unfold Removal.draw, Removal.positioned.
  destruct (Qle_bool _ _); [|reflexivity].
  destruct (along _ _); reflexivity.
Qed.

Lemma detention_draw_positioned (proj : projector) (p : Detention.particle) :
  Detention.draw proj p
  = if Qle_bool (Detention.startOffset p) (Detention.progress p) then
      match Detention.positioned proj p with
      | Some pix =>
          [FillCircle pix Detention.BACKGROUND_PARTICLE_RADIUS
             (Hex Detention.BACKGROUND_PARTICLE_COLOR)]
      | None => []
      end
    else [].
Proof.
  unfold Detention.draw, Detention.positioned.
  destruct (Qle_bool _ _); [|reflexivity].
  destruct (along _ _); reflexivity.
Qed.

Lemma drawParticles_running (proj : projector) (st : Removal.state) :
  Removal.animationActive st = true -> Removal.canvas st = true ->
  Removal.ctx st = true ->
  Removal.drawParticles proj st
  = (Removal.withParticles (map Removal.tick (Removal.particles st)) st,
     ClearRect
       :: flat_map (fun p => Removal.draw proj (Removal.tick p)) (Removal.particles st)
       ++ [RequestAnimationFrame]).
Proof.
  intros Ha Hc Hx. unfold Removal.drawParticles. rewrite Ha, Hc, Hx. simpl.
  rewrite forEachDraw_spec. reflexivity.
Qed.

Lemma removal_tick_progress (p : Removal.particle) :
  Removal.progress (Removal.tick p)
  = let q := Removal.progress p + Removal.speed p in
    if Qle_bool 1 q then Removal.startOffset p else q.
Proof. reflexivity. Qed.

Lemma detention_tick_progress (p : Detention.particle) :
  Detention.progress (Detention.tick p)
  = let q := Detention.progress p + Detention.speed p in
    if Qle_bool 1 q then Detention.startOffset p else q.
Proof. reflexivity. Qed.

Lemma removal_draw_placed (proj : projector) (p : Removal.particle)
  (c : coords) (pix : pixel) :
  Removal.startOffset p <= Removal.progress p ->
  along (Removal.line p)
    (sampleAt (Removal.pdistance p) (Removal.progress p) (Removal.startOffset p))
  = Some c ->
  proj c = Some pix ->
  Removal.draw proj p
  = [FillCircle pix Removal.PARTICLE_RADIUS (Removal.styleOf p)].
Proof.
  intros Hvis Hal Hpr. unfold Removal.draw.
  apply Qle_bool_iff in Hvis. now rewrite Hvis, Hal, Hpr.
Qed.

Lemma detention_draw_placed (proj : projector) (p : Detention.particle)
  (c : coords) (pix : pixel) :
  Detention.startOffset p <= Detention.progress p ->
  along (Detention.line p)
    (sampleAt (Detention.pdistance p) (Detention.progress p)
       (Detention.startOffset p))
  = Some c ->
  proj c = Some pix ->
  Detention.draw proj p
  = [FillCircle pix Detention.BACKGROUND_PARTICLE_RADIUS
       (Hex Detention.BACKGROUND_PARTICLE_COLOR)].
Proof.
  intros Hvis Hal Hpr. unfold Detention.draw.
  apply Qle_bool_iff in Hvis. now rewrite Hvis, Hal, Hpr.
Qed.

(** A running frame of the detention map with moving background particles:
    the particles after it, and its calls around those of the animated
    points, which do not depend on the particles. *)
Lemma drawDetentionParticles_running (proj : projector) (now : Detention.clock)
  (st : Detention.stage) :
  Detention.detentionAnimationActive (Detention.globals st) = true ->
  Detention.detentionCanvas st = true -> Detention.detentionCtx st = true ->
  Detention.stopBackgroundParticles (Detention.globals st) = false ->
  Detention.detentionParticles (fst (Detention.drawDetentionParticles proj now st))
  = map Detention.tick (Detention.detentionParticles st)
  /\ Detention.globals (fst (Detention.drawDetentionParticles proj now st))
     = Detention.staged (Detention.currentHighlight (Detention.globals st)) false
         (match Detention.drawAnimatedPoints proj now 1
                  (Detention.detentionMap (Detention.globals st))
                  (Detention.detentionHighlights st)
                  (Detention.updateAnimatedPoints
                     (inject_Z (now 0%nat - Detention.lastFrameTime st))
                     (Detention.detentionHighlights st)
                     (Detention.points (Detention.globals st))) with
          | Detention.Passed pts _ => pts
          | Detention.Aborted pts _ => pts
          end)
         (Detention.globals st)
  /\ Detention.detentionCanvas (fst (Detention.drawDetentionParticles proj now st))
     = true
  /\ Detention.detentionCtx (fst (Detention.drawDetentionParticles proj now st))
     = true
  /\ snd (Detention.drawDetentionParticles proj now st)
     = Detention.Plain ClearRect
       :: map Detention.Plain
            (flat_map (fun p => Detention.draw proj (Detention.tick p))
               (Detention.detentionParticles st))
       ++ match Detention.drawAnimatedPoints proj now 1
                  (Detention.detentionMap (Detention.globals st))
                  (Detention.detentionHighlights st)
                  (Detention.updateAnimatedPoints
                     (inject_Z (now 0%nat - Detention.lastFrameTime st))
                     (Detention.detentionHighlights st)
                     (Detention.points (Detention.globals st))) with
          | Detention.Passed _ calls =>
              calls ++ [Detention.Plain RequestAnimationFrame]
          | Detention.Aborted _ calls => calls
          end.
Proof.
  intros Ha Hc Hx Hs. unfold Detention.drawDetentionParticles.
  rewrite Ha, Hc, Hx, Hs. cbn [negb orb andb].
  unfold Detention.backgroundPass. rewrite forEachDraw_spec.
  destruct (Detention.drawAnimatedPoints _ _ _ _ _ _) as [pts calls|pts calls];
    cbn [fst snd Detention.detentionParticles Detention.globals
         Detention.detentionCanvas Detention.detentionCtx];
    repeat split; reflexivity.
Qed.

(** C7.  A particle that cannot be positioned or projected does not stop the
    frame.  When the projector (or [turf.along]) throws for one particle of a
    running frame of [drawParticles], every particle of the array, that one
    included, has its phase advanced by its speed and wrapped to its start
    offset; every other particle that has reached its start offset and can
    be placed has its circle drawn; the frame draws exactly what it would
    draw if the particle were not in the array, and ends by requesting the
    next frame.  The particle is tried again in the next frame (no handler
    having run in between): if it can be placed then and has reached its
    start offset, its circle is drawn.  In a
    running frame of [drawDetentionParticles] with moving background
    particles the same holds of a background particle: all phases advance,
    the other particles are drawn, the calls of the frame are those of the
    frame without the particle, the frame requests the next one whenever the
    drawing of the animated points, which comes after the particles, does not
    throw, and the particle is tried again in that next frame. *)
Theorem bad_particle_skipped (proj proj' : projector) (st : Removal.state)
  (before after : list Removal.particle) (bad : Removal.particle)
  (now now' : Detention.clock) (dst : Detention.stage)
  (dbefore dafter : list Detention.particle) (dbad : Detention.particle)
  (Hactive : Removal.animationActive st = true)
  (Hcanvas : Removal.canvas st = true) (Hctx : Removal.ctx st = true)
  (Hps : Removal.particles st = before ++ bad :: after)
  (Hthrow : Removal.positioned proj (Removal.tick bad) = None)
  (Hdactive : Detention.detentionAnimationActive (Detention.globals dst) = true)
  (Hdcanvas : Detention.detentionCanvas dst = true)
  (Hdctx : Detention.detentionCtx dst = true)
  (Hmoving : Detention.stopBackgroundParticles (Detention.globals dst) = false)
  (Hdps : Detention.detentionParticles dst = dbefore ++ dbad :: dafter)
  (Hdthrow : Detention.positioned proj (Detention.tick dbad) = None) :
  let frame := Removal.drawParticles proj st in
  let dframe := Detention.drawDetentionParticles proj now dst in
  (Removal.particles (fst frame) = map Removal.tick (before ++ bad :: after)
   /\ map Removal.progress (Removal.particles (fst frame))
      = map (fun p => let q := Removal.progress p + Removal.speed p in
                      if Qle_bool 1 q then Removal.startOffset p else q)
          (before ++ bad :: after))
  /\ snd frame
     = ClearRect
         :: (flat_map (fun p => Removal.draw proj (Removal.tick p)) before
             ++ flat_map (fun p => Removal.draw proj (Removal.tick p)) after)
         ++ [RequestAnimationFrame]
  /\ snd frame
     = snd (Removal.drawParticles proj (Removal.withParticles (before ++ after) st))
  /\ (forall q c pix,
        In q (before ++ after) ->
        Removal.startOffset q <= Removal.progress (Removal.tick q) ->
        along (Removal.line q)
          (sampleAt (Removal.pdistance q) (Removal.progress (Removal.tick q))
             (Removal.startOffset q)) = Some c ->
        proj c = Some pix ->
        In (FillCircle pix Removal.PARTICLE_RADIUS (Removal.styleOf q))
           (snd frame))
  /\ (forall pix,
        Removal.startOffset bad
          <= Removal.progress (Removal.tick (Removal.tick bad)) ->
        Removal.positioned proj' (Removal.tick (Removal.tick bad)) = Some pix ->
        In (FillCircle pix Removal.PARTICLE_RADIUS (Removal.styleOf bad))
           (snd (Removal.drawParticles proj' (fst frame))))
  /\ (Detention.detentionParticles (fst dframe)
      = map Detention.tick (dbefore ++ dbad :: dafter)
      /\ map Detention.progress (Detention.detentionParticles (fst dframe))
         = map (fun p => let q := Detention.progress p + Detention.speed p in
                         if Qle_bool 1 q then Detention.startOffset p else q)
             (dbefore ++ dbad :: dafter))
  /\ snd dframe
     = snd (Detention.drawDetentionParticles proj now
              (Detention.withDetentionParticles (dbefore ++ dafter) dst))
  /\ (forall q c pix,
        In q (dbefore ++ dafter) ->
        Detention.startOffset q <= Detention.progress (Detention.tick q) ->
        along (Detention.line q)
          (sampleAt (Detention.pdistance q)
             (Detention.progress (Detention.tick q))
             (Detention.startOffset q)) = Some c ->
        proj c = Some pix ->
        In (Detention.Plain
              (FillCircle pix Detention.BACKGROUND_PARTICLE_RADIUS
                 (Hex Detention.BACKGROUND_PARTICLE_COLOR)))
           (snd dframe))
  /\ (forall pts calls,
        Detention.drawAnimatedPoints proj now 1
          (Detention.detentionMap (Detention.globals dst))
          (Detention.detentionHighlights dst)
          (Detention.updateAnimatedPoints
             (inject_Z (now 0%nat - Detention.lastFrameTime dst))
             (Detention.detentionHighlights dst)
             (Detention.points (Detention.globals dst)))
        = Detention.Passed pts calls ->
        last (snd dframe) (Detention.Plain ClearRect)
        = Detention.Plain RequestAnimationFrame)
  /\ (forall pix,
        In (Detention.Plain RequestAnimationFrame) (snd dframe) ->
        Detention.startOffset dbad
          <= Detention.progress (Detention.tick (Detention.tick dbad)) ->
        Detention.positioned proj' (Detention.tick (Detention.tick dbad))
        = Some pix ->
        In (Detention.Plain
              (FillCircle pix Detention.BACKGROUND_PARTICLE_RADIUS
                 (Hex Detention.BACKGROUND_PARTICLE_COLOR)))
           (snd (Detention.drawDetentionParticles proj' now' (fst dframe)))).
Proof.
  intros frame dframe. unfold frame, dframe. clear frame dframe.
  assert (Hbad : Removal.draw proj (Removal.tick bad) = []).
  { rewrite removal_draw_positioned, Hthrow. now destruct (Qle_bool _ _). }
  assert (Hdbad : Detention.draw proj (Detention.tick dbad) = []).
  { rewrite detention_draw_positioned, Hdthrow. now destruct (Qle_bool _ _). }
  destruct (drawDetentionParticles_running proj now dst Hdactive Hdcanvas
              Hdctx Hmoving) as (Hdparts & Hdglobals & Hdcan' & Hdctx' & Hdcalls).
  rewrite (drawParticles_running proj st Hactive Hcanvas Hctx).
  cbn [fst snd]. rewrite Hps.
  split; [|split; [|split; [|split; [|split; [|split; [|split; [|split;
    [|split]]]]]]]].
  - split; [reflexivity|]. cbn [Removal.particles Removal.withParticles].
    rewrite map_map. apply map_ext. intros p. apply removal_tick_progress.
  - rewrite flat_map_app. simpl. rewrite Hbad. reflexivity.
  - rewrite drawParticles_running by assumption. simpl.
    rewrite !flat_map_app. simpl. rewrite Hbad. reflexivity.
  - intros q c pix Hq Hvis Hal Hpr.
    right. apply in_or_app. left. apply in_flat_map.
    exists q. split.
    + apply in_app_or in Hq. apply in_or_app.
      destruct Hq as [Hq|Hq]; [left|right; right]; exact Hq.
    + rewrite (removal_draw_placed proj (Removal.tick q) c pix Hvis Hal Hpr).
      left. reflexivity.
  - intros pix Hvis Hpos.
    rewrite drawParticles_running by assumption. cbn [snd].
    right. apply in_or_app. left. apply in_flat_map.
    exists (Removal.tick bad). split.
    + simpl. rewrite map_app. apply in_or_app. right. left. reflexivity.
    + rewrite removal_draw_positioned, Hpos.
      apply Qle_bool_iff in Hvis. simpl in Hvis |- *. rewrite Hvis.
      left. reflexivity.
  - rewrite Hdparts, Hdps. split; [reflexivity|].
    rewrite map_map. apply map_ext. intros p. apply detention_tick_progress.
  - rewrite Hdcalls.
    destruct (drawDetentionParticles_running proj now
                (Detention.withDetentionParticles (dbefore ++ dafter) dst)
                Hdactive Hdcanvas Hdctx Hmoving) as (_ & _ & _ & _ & ->).
    cbn [Detention.withDetentionParticles Detention.detentionParticles
         Detention.globals Detention.detentionHighlights
         Detention.lastFrameTime].
    rewrite Hdps, !flat_map_app. simpl. rewrite Hdbad. reflexivity.
  - intros q c pix Hq Hvis Hal Hpr. rewrite Hdcalls.
    right. apply in_or_app. left. apply in_map. apply in_flat_map.
    exists q. split.
    + rewrite Hdps. apply in_app_or in Hq. apply in_or_app.
      destruct Hq as [Hq|Hq]; [left|right; right]; exact Hq.
    + rewrite (detention_draw_placed proj (Detention.tick q) c pix Hvis Hal Hpr).
      left. reflexivity.
  - intros pts calls Hpass. rewrite Hdcalls, Hpass.
    change (Detention.Plain ClearRect
            :: map Detention.Plain
                 (flat_map (fun p => Detention.draw proj (Detention.tick p))
                    (Detention.detentionParticles dst))
            ++ calls ++ [Detention.Plain RequestAnimationFrame])
      with ((Detention.Plain ClearRect
             :: map Detention.Plain
                  (flat_map (fun p => Detention.draw proj (Detention.tick p))
                     (Detention.detentionParticles dst)))
            ++ calls ++ [Detention.Plain RequestAnimationFrame]).
    rewrite app_assoc. apply last_last.
  - intros pix _ Hvis Hpos.
    destruct (drawDetentionParticles_running proj' now'
                (fst (Detention.drawDetentionParticles proj now dst)))
      as (_ & _ & _ & _ & ->).
    + rewrite Hdglobals. exact Hdactive.
    + exact Hdcan'.
    + exact Hdctx'.
    + rewrite Hdglobals. reflexivity.
    + right. apply in_or_app. left. apply in_map. apply in_flat_map.
      exists (Detention.tick dbad). split.
      * rewrite Hdparts, Hdps, map_app. apply in_or_app. right. left.
        reflexivity.
      * rewrite detention_draw_positioned, Hpos.
        apply Qle_bool_iff in Hvis. simpl in Hvis |- *. rewrite Hvis.
        left. reflexivity.
Qed.

End Frame.

(** ** Particles per flow *)

Lemma filter_none (B : Type) (t : B -> bool) (l : list B) :
  (forall b, In b l -> t b = false) -> filter t l = [].
Proof.
  induction l as [|b l IH]; intros Hall; simpl.
  - reflexivity.
  - rewrite (Hall b) by (left; reflexivity). apply IH.
    intros b' Hb'. apply Hall. right. exact Hb'.
Qed.

Lemma filter_all (B : Type) (t : B -> bool) (l : list B) :
  (forall b, In b l -> t b = true) -> filter t l = l.
Proof.
  induction l as [|b l IH]; intros Hall; simpl.
  - reflexivity.
  - rewrite (Hall b) by (left; reflexivity). f_equal. apply IH.
    intros b' Hb'. apply Hall. right. exact Hb'.
Qed.

Section PerFlow.
Variables (A B : Type) (f : nat -> nat -> A -> list B) (g : B -> nat).
Hypothesis Hg : forall k i a b, In b (f k i a) -> g b = i.

Lemma forEachPush_later (l : list A) :
  forall pushed start j, (j < start)%nat ->
    filter (fun b => Nat.eqb (g b) j) (forEachPush f pushed start l) = [].
Proof.
  induction l as [|a l IH]; intros pushed start j Hj; simpl.
  - reflexivity.
  - rewrite filter_app, IH by lia. rewrite app_nil_r.
    apply filter_none. intros b Hb. apply Nat.eqb_neq.
    rewrite (Hg _ _ _ _ Hb). lia.
Qed.

(** The elements pushed for the element at index [i] are those its callback
    returned. *)
Lemma forEachPush_at (l : list A) :
  forall pushed start i a, nth_error l i = Some a ->
    exists pushed',
      filter (fun b => Nat.eqb (g b) (start + i)) (forEachPush f pushed start l)
      = f pushed' (start + i)%nat a.
Proof.
  induction l as [|x l IH]; intros pushed start i a Hi.
  - destruct i; discriminate.
  - simpl. rewrite filter_app. destruct i as [|i]; simpl in Hi.
    + injection Hi as ->. rewrite Nat.add_0_r.
      rewrite forEachPush_later by lia. rewrite app_nil_r.
      exists pushed. apply filter_all. intros b Hb. apply Nat.eqb_eq.
      apply (Hg _ _ _ _ Hb).
    + destruct (IH (pushed + List.length (f pushed start x))%nat (S start) i a Hi)
        as (k & Hk).
      replace (start + S i)%nat with (S start + i)%nat by lia.
      exists k. rewrite Hk.
      rewrite filter_none; [reflexivity|].
      intros b Hb. apply Nat.eqb_neq. rewrite (Hg _ _ _ _ Hb). lia.
Qed.

End PerFlow.

Section Builders.
Context `{Turf}.

Lemma detention_flowIndex (k i : nat) (f : Detention.flow) (p : Detention.particle) :
  In p (Detention.particlesOfFlow i f) -> Detention.flowIndex p = i.
Proof.
  unfold Detention.particlesOfFlow.
  destruct (Detention.origin f) as [o|]; [|contradiction].
  destruct (Detention.destination f) as [d|]; [|contradiction].
  destruct (JS.truthyNum (Detention.lat o)); [|contradiction].
  destruct (JS.truthyNum (Detention.lon o)); [|contradiction].
  destruct (JS.truthyNum (Detention.lat d)); [|contradiction].
  destruct (JS.truthyNum (Detention.lon d)); [|contradiction].
  destruct (Qeq_bool q q1 && Qeq_bool q0 q2); [contradiction|].
  cbv zeta. destruct (JS.Qltb _ (1 # 10)); [contradiction|].
  destruct (Detention.numParticles (Detention.count f)); [|contradiction].
  intros Hp. apply in_map_iff in Hp. destruct Hp as (j & <- & _). reflexivity.
Qed.

Lemma removal_flowIndex (random : nat -> Q) (k i : nat) (f : Removal.flow)
  (p : Removal.particle) :
  In p (Removal.particlesOfFlow random k i f) -> Removal.flowIndex p = i.
Proof.
  unfold Removal.particlesOfFlow.
  destruct (Removal.origin f) as [o|]; [|contradiction].
  destruct (Removal.destination f) as [d|]; [|contradiction].
  destruct (JS.truthyNum (Removal.lat o)); [|contradiction].
  destruct (JS.truthyNum (Removal.lon o)); [|contradiction].
  destruct (JS.truthyNum (Removal.lat d)); [|contradiction].
  destruct (JS.truthyNum (Removal.lon d)); [|contradiction].
  destruct (Qeq_bool q q1 && Qeq_bool q0 q2); [contradiction|].
  cbv zeta. destruct (JS.Qltb _ 1); [contradiction|].
  intros Hp. apply in_map_iff in Hp. destruct Hp as (j & <- & _). reflexivity.
Qed.

Lemma detention_particlesFor (flows : list Detention.flow) (i : nat)
  (f : Detention.flow) :
  nth_error flows i = Some f ->
  Detention.particlesFor i (Detention.createDetentionParticles flows)
  = Detention.particlesOfFlow i f.
Proof.
  intros Hi. unfold Detention.particlesFor, Detention.createDetentionParticles.
  destruct (forEachPush_at _ _ (fun _ => Detention.particlesOfFlow)
              Detention.flowIndex
              (fun k j a b => detention_flowIndex k j a b) flows 0 0 i f Hi)
    as (k & Hk).
  exact Hk.
Qed.

Lemma removal_particlesFor (random : nat -> Q) (flows : list Removal.flow)
  (ps : list Removal.particle) (i : nat) (f : Removal.flow) :
  Removal.createParticles random flows = Some ps ->
  nth_error flows i = Some f ->
  exists k, Removal.particlesFor i ps = Removal.particlesOfFlow random k i f.
Proof.
  intros Hc Hi. unfold Removal.createParticles in Hc.
  destruct (forallb Removal.guardReturns flows); [|discriminate].
  injection Hc as <-.
  apply (forEachPush_at _ _ (Removal.particlesOfFlow random) Removal.flowIndex
           (removal_flowIndex random) flows 0 0 i f Hi).
Qed.

Lemma truthyNum_Some (x : option Q) (q : Q) : JS.truthyNum x = Some q -> x = Some q.
Proof.
  destruct x as [y|]; simpl; [|discriminate].
  destruct (Qeq_bool y 0); [discriminate|]. exact (fun E => E).
Qed.

Lemma Qltb_true (x y : Q) : JS.Qltb x y = true <-> x < y.
Proof.
  unfold JS.Qltb. rewrite negb_true_iff. apply Qle_bool_false.
Qed.

Lemma detention_degenerate (i : nat) (f : Detention.flow) (a b : coords) :
  Detention.endpoints f = Some (a, b) ->
  coincident a b \/ distance a b < 1 # 10 ->
  Detention.particlesOfFlow i f = [].
Proof.
  unfold Detention.endpoints, Detention.particlesOfFlow, coincident.
  destruct (Detention.origin f) as [o|]; [|discriminate].
  destruct (Detention.destination f) as [d|]; [|discriminate].
  destruct (JS.truthyNum (Detention.lat o)) as [olat|] eqn:E1;
    [apply truthyNum_Some in E1; rewrite E1|reflexivity].
  destruct (JS.truthyNum (Detention.lon o)) as [olon|] eqn:E2;
    [apply truthyNum_Some in E2; rewrite E2|reflexivity].
  destruct (JS.truthyNum (Detention.lat d)) as [dlat|] eqn:E3;
    [apply truthyNum_Some in E3; rewrite E3|reflexivity].
  destruct (JS.truthyNum (Detention.lon d)) as [dlon|] eqn:E4;
    [apply truthyNum_Some in E4; rewrite E4|reflexivity].
  intros [= <- <-]. simpl. intros [[Hlon Hlat]|Hnear].
  - apply Qeq_bool_iff in Hlon, Hlat. now rewrite Hlon, Hlat.
  - destruct (Qeq_bool olat dlat && Qeq_bool olon dlon); [reflexivity|].
    apply Qltb_true in Hnear. now rewrite Hnear.
Qed.

Lemma removal_degenerate (random : nat -> Q) (k i : nat) (f : Removal.flow)
  (a b : coords) :
  Removal.endpoints f = Some (a, b) ->
  coincident a b \/ distance a b < 1 ->
  Removal.particlesOfFlow random k i f = [].
Proof.
  unfold Removal.endpoints, Removal.particlesOfFlow, coincident.
  destruct (Removal.origin f) as [o|]; [|discriminate].
  destruct (Removal.destination f) as [d|]; [|discriminate].
  destruct (JS.truthyNum (Removal.lat o)) as [olat|] eqn:E1;
    [apply truthyNum_Some in E1; rewrite E1|reflexivity].
  destruct (JS.truthyNum (Removal.lon o)) as [olon|] eqn:E2;
    [apply truthyNum_Some in E2; rewrite E2|reflexivity].
  destruct (JS.truthyNum (Removal.lat d)) as [dlat|] eqn:E3;
    [apply truthyNum_Some in E3; rewrite E3|reflexivity].
  destruct (JS.truthyNum (Removal.lon d)) as [dlon|] eqn:E4;
    [apply truthyNum_Some in E4; rewrite E4|reflexivity].
  intros [= <- <-]. simpl. intros [[Hlon Hlat]|Hnear].
  - apply Qeq_bool_iff in Hlon, Hlat. now rewrite Hlon, Hlat.
  - destruct (Qeq_bool olat dlat && Qeq_bool olon dlon); [reflexivity|].
    apply Qltb_true in Hnear. now rewrite Hnear.
Qed.

(** C6.  A flow whose two ends have the same coordinates, or lie closer
    together than the threshold of the builder (0.1 km on the detention map,
    1 km on the removal map, as [turf.distance] measures it), gets no
    particle: none of the particles built carries its index. *)
Theorem degenerate_flow_has_no_particles
  (dflows : list Detention.flow) (i : nat) (df : Detention.flow) (a b : coords)
  (random : nat -> Q) (rflows : list Removal.flow) (ps : list Removal.particle)
  (j : nat) (rf : Removal.flow) (a' b' : coords)
  (Hdf : nth_error dflows i = Some df)
  (Hdends : Detention.endpoints df = Some (a, b))
  (Hddeg : coincident a b \/ distance a b < 1 # 10)
  (Hbuilt : Removal.createParticles random rflows = Some ps)
  (Hrf : nth_error rflows j = Some rf)
  (Hrends : Removal.endpoints rf = Some (a', b'))
  (Hrdeg : coincident a' b' \/ distance a' b' < 1) :
  Detention.particlesFor i (Detention.createDetentionParticles dflows) = []
  /\ Removal.particlesFor j ps = [].
Proof.
  split.
  - rewrite (detention_particlesFor dflows i df Hdf).
    now apply (detention_degenerate i df a b).
  - destruct (removal_particlesFor random rflows ps j rf Hbuilt Hrf) as (k & ->).
    now apply (removal_degenerate random k j rf a' b').
Qed.

Lemma numParticles_value (cnt : JS.numeric) (c : Z) :
  JS.numberOf cnt = Some c ->
  Detention.numParticles cnt
  = Some (Z.min Detention.MAX_PARTICLES_PER_ROUTE
            (Z.max 1 (Qceiling (inject_Z c
                                / inject_Z Detention.TRANSFERS_PER_PARTICLE)))).
Proof. intros E. unfold Detention.numParticles. now rewrite E. Qed.

Lemma ceil_ratio_monotone (c c' : Z) :
  (c <= c')%Z ->
  (Qceiling (inject_Z c / inject_Z Detention.TRANSFERS_PER_PARTICLE)
   <= Qceiling (inject_Z c' / inject_Z Detention.TRANSFERS_PER_PARTICLE))%Z.
Proof.
  intros Hle. apply Qceiling_resp_le. rewrite Zle_Qle in Hle.
  unfold Qdiv. apply Qmult_le_compat_r; [exact Hle|].
  unfold Qle. simpl. lia.
Qed.

Lemma detention_kept_length (i : nat) (f : Detention.flow) (c : Z) :
  Detention.kept f = true -> JS.numberOf (Detention.count f) = Some c ->
  Z.of_nat (List.length (Detention.particlesOfFlow i f))
  = Z.min Detention.MAX_PARTICLES_PER_ROUTE
      (Z.max 1 (Qceiling (inject_Z c
                          / inject_Z Detention.TRANSFERS_PER_PARTICLE))).
Proof.
  unfold Detention.kept, Detention.particlesOfFlow. intros Hk Hc.
  destruct (Detention.origin f) as [o|]; [|discriminate].
  destruct (Detention.destination f) as [d|]; [|discriminate].
  destruct (JS.truthyNum (Detention.lat o)); [|discriminate].
  destruct (JS.truthyNum (Detention.lon o)); [|discriminate].
  destruct (JS.truthyNum (Detention.lat d)); [|discriminate].
  destruct (JS.truthyNum (Detention.lon d)); [|discriminate].
  apply andb_true_iff in Hk. destruct Hk as [Hk1 Hk2].
  apply negb_true_iff in Hk1, Hk2. rewrite Hk1. cbv zeta. rewrite Hk2.
  rewrite (numParticles_value _ c Hc).
  rewrite length_map, length_seq.
  unfold Detention.MAX_PARTICLES_PER_ROUTE. lia.
Qed.

Lemma detention_skipped (i : nat) (f : Detention.flow) :
  Detention.kept f = false -> Detention.particlesOfFlow i f = [].
Proof.
  unfold Detention.kept, Detention.particlesOfFlow. intros Hk.
  destruct (Detention.origin f) as [o|]; [|reflexivity].
  destruct (Detention.destination f) as [d|]; [|reflexivity].
  destruct (JS.truthyNum (Detention.lat o)); [|reflexivity].
  destruct (JS.truthyNum (Detention.lon o)); [|reflexivity].
  destruct (JS.truthyNum (Detention.lat d)); [|reflexivity].
  destruct (JS.truthyNum (Detention.lon d)); [|reflexivity].
  destruct (Qeq_bool _ _ && Qeq_bool _ _); [reflexivity|].
  cbv zeta. simpl in Hk. apply negb_false_iff in Hk. now rewrite Hk.
Qed.

Lemma detention_uncounted (i : nat) (f : Detention.flow) :
  Detention.count f = JS.Absent -> Detention.particlesOfFlow i f = [].
Proof.
  unfold Detention.particlesOfFlow. intros ->.
  destruct (Detention.origin f) as [o|]; [|reflexivity].
  destruct (Detention.destination f) as [d|]; [|reflexivity].
  destruct (JS.truthyNum (Detention.lat o)); [|reflexivity].
  destruct (JS.truthyNum (Detention.lon o)); [|reflexivity].
  destruct (JS.truthyNum (Detention.lat d)); [|reflexivity].
  destruct (JS.truthyNum (Detention.lon d)); [|reflexivity].
  destruct (Qeq_bool _ _ && Qeq_bool _ _); [reflexivity|].
  cbv zeta. now destruct (JS.Qltb _ _).
Qed.

Lemma removal_kept_length (random : nat -> Q) (k i : nat) (f : Removal.flow) :
  Removal.kept f = true ->
  List.length (Removal.particlesOfFlow random k i f)
  = Z.to_nat (JS.orZ (Removal.scaled_count f) 1).
Proof.
  unfold Removal.kept, Removal.particlesOfFlow. intros Hk.
  destruct (Removal.origin f) as [o|]; [|discriminate].
  destruct (Removal.destination f) as [d|]; [|discriminate].
  destruct (JS.truthyNum (Removal.lat o)); [|discriminate].
  destruct (JS.truthyNum (Removal.lon o)); [|discriminate].
  destruct (JS.truthyNum (Removal.lat d)); [|discriminate].
  destruct (JS.truthyNum (Removal.lon d)); [|discriminate].
  apply andb_true_iff in Hk. destruct Hk as [Hk1 Hk2].
  apply negb_true_iff in Hk1, Hk2. rewrite Hk1. cbv zeta. rewrite Hk2.
  now rewrite length_map, length_seq.
Qed.

Lemma removal_skipped (random : nat -> Q) (k i : nat) (f : Removal.flow) :
  Removal.kept f = false -> Removal.particlesOfFlow random k i f = [].
Proof.
  unfold Removal.kept, Removal.particlesOfFlow. intros Hk.
  destruct (Removal.origin f) as [o|]; [|reflexivity].
  destruct (Removal.destination f) as [d|]; [|reflexivity].
  destruct (JS.truthyNum (Removal.lat o)); [|reflexivity].
  destruct (JS.truthyNum (Removal.lon o)); [|reflexivity].
  destruct (JS.truthyNum (Removal.lat d)); [|reflexivity].
  destruct (JS.truthyNum (Removal.lon d)); [|reflexivity].
  destruct (Qeq_bool _ _ && Qeq_bool _ _); [reflexivity|].
  cbv zeta. simpl in Hk. apply negb_false_iff in Hk. now rewrite Hk.
Qed.

(** C1.  For a flow that [createDetentionParticles] does not skip (both ends
    present with truthy coordinates that differ, at least 0.1 km apart) and
    whose count reads as the number [c] (a [null] count reads as 0), the
    number of particles built is
    [min(MAX_PARTICLES_PER_ROUTE, max(1, ceil(c / TRANSFERS_PER_PARTICLE)))]:
    at least 1, at most [MAX_PARTICLES_PER_ROUTE], and not smaller for a flow
    with a larger count.  A flow the builder skips gets no particle, and
    neither does a flow whose count is not there.  On the removal map
    [createParticles] builds [flow.scaled_count || 1] particles for a flow it
    does not skip, whatever the count, and none for a flow it skips. *)
Theorem particles_per_kept_flow
  (dflows : list Detention.flow)
  (random : nat -> Q) (rflows : list Removal.flow) (ps : list Removal.particle)
  (Hbuilt : Removal.createParticles random rflows = Some ps) :
  let built k :=
    List.length (Detention.particlesFor k (Detention.createDetentionParticles dflows)) in
  (forall i f c,
     nth_error dflows i = Some f -> Detention.kept f = true ->
     JS.numberOf (Detention.count f) = Some c ->
     Z.of_nat (built i)
       = Z.min Detention.MAX_PARTICLES_PER_ROUTE
           (Z.max 1 (Qceiling (inject_Z c
                               / inject_Z Detention.TRANSFERS_PER_PARTICLE)))
     /\ (1 <= built i)%nat
     /\ (Z.of_nat (built i) <= Detention.MAX_PARTICLES_PER_ROUTE)%Z)
  /\ (forall i i' f f' c c',
        nth_error dflows i = Some f -> nth_error dflows i' = Some f' ->
        Detention.kept f = true -> Detention.kept f' = true ->
        JS.numberOf (Detention.count f) = Some c ->
        JS.numberOf (Detention.count f') = Some c' ->
        (c <= c')%Z -> (built i <= built i')%nat)
  /\ (forall i f,
        nth_error dflows i = Some f ->
        Detention.kept f = false \/ Detention.count f = JS.Absent ->
        built i = 0%nat)
  /\ (forall j rf,
        nth_error rflows j = Some rf ->
        List.length (Removal.particlesFor j ps)
        = if Removal.kept rf
          then Z.to_nat (JS.orZ (Removal.scaled_count rf) 1)
          else 0%nat).
Proof.
  intros built. unfold built.
  split; [|split; [|split]].
  - intros i f c Hf Hkept Hc.
    rewrite (detention_particlesFor dflows i f Hf).
    pose proof (detention_kept_length i f c Hkept Hc) as E.
    unfold Detention.MAX_PARTICLES_PER_ROUTE in *.
    split; [exact E|]. split; lia.
  - intros i i' f f' c c' Hf Hf' Hkept Hkept' Hc Hc' Hle.
    rewrite (detention_particlesFor dflows i f Hf).
    rewrite (detention_particlesFor dflows i' f' Hf').
    pose proof (detention_kept_length i f c Hkept Hc) as E.
    pose proof (detention_kept_length i' f' c' Hkept' Hc') as E'.
    pose proof (ceil_ratio_monotone c c' Hle) as Hmono.
    unfold Detention.MAX_PARTICLES_PER_ROUTE in *. lia.
  - intros i f Hf Hskip.
    rewrite (detention_particlesFor dflows i f Hf).
    destruct Hskip as [Hk|Hc].
    + now rewrite detention_skipped.
    + now rewrite detention_uncounted.
  - intros j rf Hrf.
    destruct (removal_particlesFor random rflows ps j rf Hbuilt Hrf) as (k & ->).
    destruct (Removal.kept rf) eqn:Hk.
    + now apply removal_kept_length.
    + now rewrite removal_skipped.
Qed.

End Builders.

(** C1, the limits of the bound: a transfer with count 100 that starts and
    ends at the same facility gets no particle at all, a removal record with
    [scaled_count] 40 gets 40 particles, more than
    [MAX_PARTICLES_PER_ROUTE], and a record with a larger count but a smaller
    [scaled_count] gets fewer. *)
Lemma particle_number_not_bounded_for_every_flow :
  Detention.count Sample.onTheSpot = JS.Num 100%Z
  /\ List.length (Detention.particlesFor 0
                    (Detention.createDetentionParticles [Sample.onTheSpot])) = 0%nat
  /\ exists ps,
       Removal.createParticles Sample.halves [Sample.dense; Sample.sparse] = Some ps
       /\ Removal.count Sample.dense = Some 10%Z
       /\ Removal.count Sample.sparse = Some 5000%Z
       /\ List.length (Removal.particlesFor 0 ps) = 40%nat
       /\ (Z.to_nat Detention.MAX_PARTICLES_PER_ROUTE
           < List.length (Removal.particlesFor 0 ps))%nat
       /\ List.length (Removal.particlesFor 1 ps) = 1%nat.
Proof.
  split; [reflexivity|]. split; [reflexivity|].
  eexists. split; [reflexivity|].
  split; [reflexivity|]. split; [reflexivity|].
  split; [reflexivity|]. split; [vm_compute; lia|reflexivity].
Qed.

Lemma degenerate_flow_has_no_particles_witness :
  Detention.particlesFor 0 (Detention.createDetentionParticles [Sample.onTheSpot]) = []
  /\ Removal.particlesFor 1
       (forEachPush (Removal.particlesOfFlow Sample.halves) 0 0
          [Sample.dense; Sample.nowhere]) = [].
Proof.
  apply (degenerate_flow_has_no_particles
           [Sample.onTheSpot] 0 Sample.onTheSpot (-88, 42) (-88, 42)
           Sample.halves [Sample.dense; Sample.nowhere]
           (forEachPush (Removal.particlesOfFlow Sample.halves) 0 0
              [Sample.dense; Sample.nowhere])
           1 Sample.nowhere (-119, 36) (-119, 36)).
  - reflexivity.
  - reflexivity.
  - left. split; reflexivity.
  - reflexivity.
  - reflexivity.
  - reflexivity.
  - left. split; reflexivity.
Defined.

Lemma particles_per_kept_flow_witness :
  (1 <= List.length
          (Detention.particlesFor 0
             (Detention.createDetentionParticles
                [Sample.transfer Sample.Chicago Sample.ElPaso 120;
                 Sample.transfer Sample.ElPaso Sample.Alexandria 5000])))%nat
  /\ (List.length
        (Detention.particlesFor 0
           (Detention.createDetentionParticles
              [Sample.transfer Sample.Chicago Sample.ElPaso 120;
               Sample.transfer Sample.ElPaso Sample.Alexandria 5000]))
      <= List.length
           (Detention.particlesFor 1
              (Detention.createDetentionParticles
                 [Sample.transfer Sample.Chicago Sample.ElPaso 120;
                  Sample.transfer Sample.ElPaso Sample.Alexandria 5000])))%nat.
Proof.
  pose proof (particles_per_kept_flow
                [Sample.transfer Sample.Chicago Sample.ElPaso 120;
                 Sample.transfer Sample.ElPaso Sample.Alexandria 5000]
                Sample.halves [Sample.dense; Sample.sparse]
                (forEachPush (Removal.particlesOfFlow Sample.halves) 0 0
                   [Sample.dense; Sample.sparse])
                eq_refl)
    as (Hone & Hmono & _).
  split.
  - exact (proj1 (proj2 (Hone 0%nat
                           (Sample.transfer Sample.Chicago Sample.ElPaso 120)
                           120%Z eq_refl eq_refl eq_refl))).
  - apply (Hmono 0%nat 1%nat
             (Sample.transfer Sample.Chicago Sample.ElPaso 120)
             (Sample.transfer Sample.ElPaso Sample.Alexandria 5000)
             120%Z 5000%Z); try reflexivity. lia.
Defined.

Lemma bad_particle_skipped_witness :
  snd (Removal.drawParticles Sample.seamProjector
         (Sample.running [Sample.fromWashington; Sample.arriving]))
  = snd (Removal.drawParticles Sample.seamProjector
           (Removal.withParticles ([] ++ [Sample.arriving])
              (Sample.running [Sample.fromWashington; Sample.arriving])))
  /\ snd (Detention.drawDetentionParticles Sample.seamProjector Sample.millis
            Sample.crowded)
     = snd (Detention.drawDetentionParticles Sample.seamProjector Sample.millis
              (Detention.withDetentionParticles ([] ++ [Sample.background])
                 Sample.crowded))
  /\ last (snd (Detention.drawDetentionParticles Sample.seamProjector
                  Sample.millis Sample.crowded))
        (Detention.Plain ClearRect)
     = Detention.Plain RequestAnimationFrame.
Proof.
  pose proof (bad_particle_skipped Sample.seamProjector Sample.plainProjector
                (Sample.running [Sample.fromWashington; Sample.arriving])
                [] [Sample.arriving] Sample.fromWashington
                Sample.millis Sample.millis Sample.crowded
                [] [Sample.background] Sample.fromSeattle
                eq_refl eq_refl eq_refl eq_refl eq_refl
                eq_refl eq_refl eq_refl eq_refl eq_refl eq_refl)
    as (_ & _ & Hsame & _ & _ & _ & Hdsame & _ & Hnext & _).
  split; [exact Hsame|]. split; [exact Hdsame|].
  apply (Hnext (Detention.points (Detention.globals Sample.crowded)) []).
  reflexivity.
Defined.

(** ** Aggregation by destination *)

(** *** Objects as ordered maps *)

Section Objects.
Variable V : Type.
Implicit Types (obj : list (string * V)) (ks : list string).

Lemma lookup_assign_same (k : string) (v : V) obj :
  lookup k (assign k v obj) = Some v.
Proof.
  induction obj as [|[k' v'] obj IH]; simpl.
  - now rewrite String.eqb_refl.
  - destruct (String.eqb k' k) eqn:E; simpl; rewrite E; [reflexivity|exact IH].
Qed.

Lemma assign_assign (k : string) (v w : V) obj :
  assign k v (assign k w obj) = assign k v obj.
Proof.
  induction obj as [|[k' v'] obj IH]; simpl.
  - now rewrite String.eqb_refl.
  - destruct (String.eqb k' k) eqn:E; simpl; rewrite E; [reflexivity|].
    now rewrite IH.
Qed.

Lemma assign_same (k : string) (v : V) obj :
  lookup k obj = Some v -> assign k v obj = obj.
Proof.
  induction obj as [|[k' v'] obj IH]; simpl; [discriminate|].
  destruct (String.eqb k' k) eqn:E.
  - now intros [= ->].
  - intros Hl. now rewrite IH.
Qed.

Variable F : string -> V.

Lemma lookup_tabulated (k : string) ks :
  lookup k (map (fun x => (x, F x)) ks)
  = if in_dec string_dec k ks then Some (F k) else None.
Proof.
  induction ks as [|x ks IH]; simpl; [reflexivity|].
  destruct (String.eqb x k) eqn:E.
  - apply String.eqb_eq in E. subst x.
    destruct (string_dec k k); [reflexivity|congruence].
  - apply String.eqb_neq in E. rewrite IH.
    destruct (string_dec x k); [congruence|].
    destruct (in_dec string_dec k ks); reflexivity.
Qed.

Lemma assign_absent (k : string) (v : V) ks :
  ~ In k ks ->
  assign k v (map (fun x => (x, F x)) ks) = map (fun x => (x, F x)) ks ++ [(k, v)].
Proof.
  induction ks as [|x ks IH]; simpl; intros Hk; [reflexivity|].
  destruct (String.eqb x k) eqn:E.
  - apply String.eqb_eq in E. tauto.
  - rewrite IH by tauto. reflexivity.
Qed.

Lemma assign_present (k : string) (v : V) (G : string -> V) ks :
  NoDup ks -> In k ks -> G k = v ->
  (forall x, In x ks -> x <> k -> G x = F x) ->
  assign k v (map (fun x => (x, F x)) ks) = map (fun x => (x, G x)) ks.
Proof.
  induction ks as [|x ks IH]; simpl; intros Hnd Hin Hk Hother; [contradiction|].
  apply NoDup_cons_iff in Hnd. destruct Hnd as [Hx Hnd].
  destruct (String.eqb x k) eqn:E.
  - apply String.eqb_eq in E. subst x. rewrite Hk. f_equal.
    apply map_ext_in. intros y Hy. f_equal. symmetry. apply Hother.
    + right. exact Hy.
    + intros ->. contradiction.
  - apply String.eqb_neq in E. rewrite (Hother x) by auto. f_equal.
    apply IH; auto. destruct Hin as [Hin|Hin]; [congruence|exact Hin].
Qed.

End Objects.

(** *** First-seen order *)

Section FirstSeen.
Import Removal.

Lemma firstSeen_In (x : string) (l : list string) :
  In x (firstSeen l) <-> In x l.
Proof.
  induction l as [|a l IH]; simpl; [tauto|].
  rewrite filter_In, IH, negb_true_iff, String.eqb_neq.
  destruct (string_dec a x) as [->|Hne]; [tauto|].
  split; [tauto|]. intros [E|Hin]; [congruence|]. right. split; [exact Hin|].
  congruence.
Qed.

Lemma firstSeen_NoDup (l : list string) : NoDup (firstSeen l).
Proof.
  induction l as [|a l IH]; simpl; constructor.
  - rewrite filter_In, String.eqb_refl. simpl. intros [_ Hf]. discriminate.
  - now apply NoDup_filter.
Qed.

Lemma firstSeen_snoc (l : list string) (k : string) :
  firstSeen (l ++ [k])
  = if in_dec string_dec k l then firstSeen l else firstSeen l ++ [k].
Proof.
  induction l as [|a l IH]; simpl; [reflexivity|].
  rewrite IH.
  destruct (string_dec a k) as [->|Hne].
  - destruct (in_dec string_dec k l); [reflexivity|].
    rewrite filter_app. simpl. rewrite String.eqb_refl. simpl.
    now rewrite app_nil_r.
  - destruct (in_dec string_dec k l); [reflexivity|].
    rewrite filter_app. simpl.
    assert (E : String.eqb k a = false) by (apply String.eqb_neq; congruence).
    rewrite E. reflexivity.
Qed.

End FirstSeen.

(** *** The groups the first pass builds *)

Section Groups.
Import Removal.

Lemma optEqb_true (x : option string) (d : string) :
  optEqb x d = true <-> x = Some d.
Proof.
  destruct x as [y|]; simpl.
  - rewrite String.eqb_eq. split; congruence.
  - split; discriminate.
Qed.

Lemma optEqb_false (x : option string) (d : string) :
  optEqb x d = false <-> x <> Some d.
Proof.
  rewrite <- optEqb_true. destruct (optEqb x d); split; congruence.
Qed.

Lemma sumCounts_app (l1 l2 : list flow) :
  sumCounts (l1 ++ l2) = (sumCounts l1 + sumCounts l2)%Z.
Proof.
  unfold sumCounts. induction l1 as [|f l1 IH]; simpl; [reflexivity|].
  rewrite IH. lia.
Qed.

Lemma orZ_Some (v : Z) : JS.orZ (Some v) 0 = v.
Proof.
  unfold JS.orZ. destruct (Z.eqb v 0) eqn:E; [|reflexivity].
  apply Z.eqb_eq in E. congruence.
Qed.

Lemma bump_assign (k : string) (c : Z) (obj : list (string * Z)) :
  bump k c obj = assign k (JS.orZ (lookup k obj) 0 + c)%Z obj.
Proof.
  unfold bump. destruct (Z.eqb (JS.orZ (lookup k obj) 0) 0) eqn:E; [|reflexivity].
  apply Z.eqb_eq in E. rewrite lookup_assign_same, assign_assign, E.
  reflexivity.
Qed.

Lemma named_snoc (nameOf : flow -> option string) (flows : list flow) (f : flow) :
  named nameOf (flows ++ [f])
  = named nameOf flows ++ match nameOf f with Some n => [n] | None => [] end.
Proof. unfold named. rewrite flat_map_app. simpl. now rewrite app_nil_r. Qed.

Lemma named_In (nameOf : flow -> option string) (n : string) (flows : list flow) :
  In n (named nameOf flows) <-> exists f, In f flows /\ nameOf f = Some n.
Proof.
  unfold named. rewrite in_flat_map. split.
  - intros (f & Hf & Hn). exists f. split; [exact Hf|].
    destruct (nameOf f) as [m|]; [|contradiction].
    destruct Hn as [->|[]]. reflexivity.
  - intros (f & Hf & Hn). exists f. split; [exact Hf|]. rewrite Hn.
    left. reflexivity.
Qed.

Lemma filter_unnamed (nameOf : flow -> option string) (n : string)
  (flows : list flow) :
  ~ In n (named nameOf flows) ->
  filter (fun f => optEqb (nameOf f) n) flows = [].
Proof.
  intros Hn. apply filter_none. intros f Hf. apply optEqb_false.
  intros E. apply Hn. apply named_In. exists f. auto.
Qed.

Lemma filter_snoc (nameOf : flow -> option string) (n : string)
  (flows : list flow) (f : flow) :
  filter (fun g => optEqb (nameOf g) n) (flows ++ [f])
  = if optEqb (nameOf f) n
    then filter (fun g => optEqb (nameOf g) n) flows ++ [f]
    else filter (fun g => optEqb (nameOf g) n) flows.
Proof.
  rewrite filter_app. simpl. destruct (optEqb (nameOf f) n); [reflexivity|].
  apply app_nil_r.
Qed.

Lemma originTotalsOf_snoc (flows : list flow) (f : flow) :
  originTotalsOf (flows ++ [f])
  = match originNameOf f with
    | Some o => bump o (JS.orZ (count f) 0) (originTotalsOf flows)
    | None => originTotalsOf flows
    end.
Proof.
  unfold originTotalsOf, originsSeen. rewrite named_snoc.
  destruct (originNameOf f) as [o|] eqn:Ho.
  - rewrite bump_assign, lookup_tabulated. simpl. rewrite firstSeen_snoc.
    destruct (in_dec string_dec o (named originNameOf flows)) as [Hin|Hout].
    + destruct (in_dec string_dec o (firstSeen (named originNameOf flows)))
        as [_|Hno]; [|exfalso; apply Hno; now apply firstSeen_In].
      rewrite orZ_Some. symmetry. apply assign_present.
      * apply firstSeen_NoDup.
      * now apply firstSeen_In.
      * unfold flowsFrom. rewrite filter_snoc, Ho. simpl.
        rewrite String.eqb_refl, sumCounts_app. simpl. lia.
      * intros x _ Hx. unfold flowsFrom. rewrite filter_snoc, Ho. simpl.
        assert (E : String.eqb o x = false) by (apply String.eqb_neq; congruence).
        now rewrite E.
    + destruct (in_dec string_dec o (firstSeen (named originNameOf flows)))
        as [Hyes|_]; [exfalso; apply Hout; now apply firstSeen_In|].
      rewrite assign_absent by (rewrite firstSeen_In; exact Hout).
      rewrite map_app. simpl. f_equal.
      * apply map_ext_in. intros x Hx. f_equal.
        unfold flowsFrom. rewrite filter_snoc, Ho. simpl.
        assert (E : String.eqb o x = false).
        { apply String.eqb_neq. intros ->. apply Hout.
          exact (proj1 (firstSeen_In _ _) Hx). }
        now rewrite E.
      * f_equal. f_equal. unfold flowsFrom. rewrite filter_snoc, Ho. simpl.
        rewrite String.eqb_refl, sumCounts_app.
        fold (flowsFrom o flows).
        unfold flowsFrom. rewrite (filter_unnamed originNameOf o flows Hout).
        simpl. lia.
  - rewrite app_nil_r. apply map_ext. intros x. f_equal.
    unfold flowsFrom. rewrite filter_snoc, Ho. reflexivity.
Qed.

Lemma tallyOf_unseen (d : string) (flows : list flow) :
  ~ In d (named destinationNameOf flows) ->
  tallyOf d flows = {| tdestination := d; ttotal := 0; torigins := [] |}.
Proof.
  intros Hd. unfold tallyOf, originTotals, flowsTo.
  rewrite (filter_unnamed destinationNameOf d flows Hd). reflexivity.
Qed.

Lemma tallyOf_other (d : string) (flows : list flow) (f : flow) :
  destinationNameOf f <> Some d -> tallyOf d (flows ++ [f]) = tallyOf d flows.
Proof.
  intros Hd. unfold tallyOf, originTotals, flowsTo. rewrite filter_snoc.
  apply optEqb_false in Hd. now rewrite Hd.
Qed.

Lemma tallyOf_step (d : string) (flows : list flow) (f : flow) :
  destinationNameOf f = Some d ->
  tallyOf d (flows ++ [f])
  = {| tdestination := tdestination (tallyOf d flows);
       ttotal := ttotal (tallyOf d flows) + JS.orZ (count f) 0;
       torigins :=
         match originNameOf f with
         | Some originName =>
             bump originName (JS.orZ (count f) 0) (torigins (tallyOf d flows))
         | None => torigins (tallyOf d flows)
         end |}.
Proof.
  intros Hd. unfold tallyOf, originTotals, flowsTo. simpl.
  rewrite filter_snoc. apply optEqb_true in Hd. rewrite Hd.
  rewrite originTotalsOf_snoc, sumCounts_app. simpl. f_equal. lia.
Qed.

Lemma addFlow_talliesOf (flows : list flow) (f : flow) :
  addFlow (talliesOf flows) f = talliesOf (flows ++ [f]).
Proof.
  unfold addFlow, talliesOf, destinationsSeen. rewrite named_snoc.
  destruct (destinationNameOf f) as [d|] eqn:Hd.
  - rewrite lookup_tabulated. simpl. rewrite firstSeen_snoc.
    destruct (in_dec string_dec d (named destinationNameOf flows)) as [Hin|Hout].
    + destruct (in_dec string_dec d (firstSeen (named destinationNameOf flows)))
        as [_|Hno]; [|exfalso; apply Hno; now apply firstSeen_In].
      apply assign_present.
      * apply firstSeen_NoDup.
      * now apply firstSeen_In.
      * now apply tallyOf_step.
      * intros x _ Hx. apply tallyOf_other. congruence.
    + destruct (in_dec string_dec d (firstSeen (named destinationNameOf flows)))
        as [Hyes|_]; [exfalso; apply Hout; now apply firstSeen_In|].
      rewrite assign_absent by (rewrite firstSeen_In; exact Hout).
      rewrite map_app. simpl. f_equal.
      * apply map_ext_in. intros x Hx. f_equal. symmetry.
        apply tallyOf_other. intros E. apply Hout.
        apply (proj1 (firstSeen_In _ _)) in Hx. congruence.
      * f_equal. f_equal. rewrite (tallyOf_step d flows f Hd).
        now rewrite (tallyOf_unseen d flows Hout).
  - rewrite app_nil_r. apply map_ext. intros x. f_equal. symmetry.
    apply tallyOf_other. congruence.
Qed.

(** The first pass builds, for every destination in first-seen order, the
    sum of the counts of its flows and the totals of its origins. *)
Lemma first_pass (flows : list flow) :
  fold_left addFlow flows [] = talliesOf flows.
Proof.
  induction flows as [|f flows IH] using rev_ind.
  - reflexivity.
  - rewrite fold_left_app. simpl. rewrite IH. apply addFlow_talliesOf.
Qed.

End Groups.

(** *** The ranking of the origins *)

Section Ranking.
Import Removal.

Lemma insertDesc_perm (x : originShare) (l : list originShare) :
  Permutation (insertDesc x l) (x :: l).
Proof.
  induction l as [|y l IH]; simpl; [reflexivity|].
  destruct (Z.ltb (ocount x) (ocount y)); [|reflexivity].
  rewrite IH. apply perm_swap.
Qed.

Lemma sortDesc_perm (l : list originShare) : Permutation (sortDesc l) l.
Proof.
  induction l as [|x l IH]; simpl; [reflexivity|].
  rewrite insertDesc_perm. now constructor.
Qed.

Lemma insertDesc_sorted (x : originShare) (l : list originShare) :
  StronglySorted descending l -> StronglySorted descending (insertDesc x l).
Proof.
  induction l as [|y l IH]; simpl; intros Hs.
  - repeat constructor.
  - inversion Hs as [|y' l' Hl Hy]; subst.
    destruct (Z.ltb (ocount x) (ocount y)) eqn:E.
    + apply Z.ltb_lt in E. constructor; [now apply IH|].
      apply Forall_forall. intros z Hz.
      apply (Permutation_in _ (insertDesc_perm x l)) in Hz.
      destruct Hz as [<-|Hz].
      * unfold descending. lia.
      * rewrite Forall_forall in Hy. now apply Hy.
    + apply Z.ltb_ge in E. constructor; [exact Hs|].
      constructor; [exact E|].
      rewrite Forall_forall in Hy |- *. intros z Hz.
      specialize (Hy z Hz). unfold descending in *. lia.
Qed.

Lemma sortDesc_sorted (l : list originShare) :
  StronglySorted descending (sortDesc l).
Proof.
  induction l as [|x l IH]; simpl; [constructor|]. now apply insertDesc_sorted.
Qed.



Lemma firstn_In_list (A : Type) (n : nat) (l : list A) (x : A) :
  In x (firstn n l) -> In x l.
Proof.
  revert l. induction n as [|n IH]; intros [|y l]; simpl; try contradiction.
  intros [->|Hx]; [left; reflexivity|right; now apply IH].
Qed.

Lemma magnitude_positive (m : positive) (e : Z) : 0 < JS.magnitude m e.
Proof.
  unfold JS.magnitude.
  apply Qmult_lt_0_compat; [unfold Qlt; simpl; lia|].
  apply Qpower_0_lt. reflexivity.
Qed.

(** Below 10^21 [toFixed(1)] keeps the sign of the double and gives the
    decimal with one digit that is nearest to it. *)
Lemma toFixed1_nearest (negative : bool) (m : positive) (e : Z) :
  JS.magnitude m e < inject_Z (10 ^ 21) ->
  exists t,
    toFixed1 (SpecFloat.S754_finite negative m e) = Decimal negative t
    /\ (0 <= t)%Z
    /\ Qabs (inject_Z t - JS.magnitude m e * 10) <= 1 # 2.
Proof.
  intros Hlt. unfold toFixed1. cbv zeta.
  apply Qle_bool_false in Hlt. rewrite Hlt.
  eexists. split; [reflexivity|].
  pose proof (magnitude_positive m e) as Hpos.
  set (a := JS.magnitude m e) in *.
  pose proof (Qfloor_le (a * 10 + (1 # 2))) as Hlo.
  pose proof (Qlt_floor (a * 10 + (1 # 2))) as Hhi.
  rewrite inject_Z_plus in Hhi. change (inject_Z 1) with 1 in Hhi.
  split.
  - change 0%Z with (Qfloor 0). apply Qfloor_resp_le. lra.
  - apply Qabs_Qle_condition. split; lra.
Qed.

End Ranking.

(** *** The aggregation *)

Section Aggregation.
Import Removal.

Lemma aggregate_tabulated (flows : list flow) :
  aggregateFlowsByDestination flows
  = map (fun d => (d, finish (tallyOf d flows))) (destinationsSeen flows).
Proof.
  unfold aggregateFlowsByDestination. rewrite first_pass. unfold talliesOf.
  rewrite map_map. reflexivity.
Qed.


End Aggregation.

(** The rounding of the quotient shows in the digit: 23 of 80 is 28.75
    percent, the double of [(23 / 80) * 100] lies below it, and [toFixed(1)]
    gives 28.7; the double of [(1 / 400) * 100] is 0.25 and gives 0.3; a
    small negative percent keeps its sign. *)
Example percent_follows_the_double :
  Removal.render (Removal.toFixed1 (Removal.percentOf 23 80)) = Some "28.7"%string
  /\ Removal.render (Removal.toFixed1 (Removal.percentOf 1 400)) = Some "0.3"%string
  /\ Removal.render (Removal.toFixed1 (Removal.percentOf (-1) 3000))
     = Some "-0.0"%string
  /\ Removal.toFixed1 (Removal.percentOf 0 0) = Removal.TextNaN
  /\ Removal.toFixed1 (Removal.percentOf 5 0) = Removal.TextInfinity.
Proof. vm_compute. repeat split. Qed.


(** ** The program on the sample data *)

(** The flows [loadData] lets through never make [createParticles] throw. *)
Lemma createParticles_after_loadData `{Turf} (random : nat -> Q)
  (allFlows : list Removal.flow) :
  exists ps, Removal.createParticles random (Removal.loadData allFlows) = Some ps.
Proof.
  unfold Removal.createParticles, Removal.loadData.
  assert (E : forallb Removal.guardReturns (filter Removal.hasCoordinates allFlows)
              = true).
  { apply forallb_forall. intros f Hf. apply filter_In in Hf.
    destruct Hf as [_ Hf]. unfold Removal.hasCoordinates in Hf.
    unfold Removal.guardReturns.
    destruct (Removal.origin f) as [o|]; [|discriminate].
    destruct (Removal.destination f); [|discriminate].
    destruct (JS.truthyNum (Removal.lat o)); [|reflexivity].
    destruct (JS.truthyNum (Removal.lon o)); reflexivity. }
  rewrite E. eexists. reflexivity.
Qed.

(** A person with three facilities is at the last one after two segments of
    fifty frames each, and is still there a hundred frames later. *)
Example traveller_arrives :
  let start := Detention.startPersonAnimation Sample.arrived in
  let after n := Detention.updates (Some Sample.traveller) (repeat 16 n) start in
  (Detention.currentSegment (after 50%nat), Detention.pointProgress (after 50%nat))
    = (1%Z, 0)
  /\ Detention.currentSegment (after 100%nat) = 1%Z
  /\ Detention.pointProgress (after 100%nat) = 1
  /\ Detention.currentSegment (after 200%nat) = 1%Z
  /\ Detention.pointProgress (after 200%nat) = 1.
Proof. vm_compute. repeat split. Qed.

(** Three particles for 120 transfers, the cap for 5000, none on the spot. *)
Example detention_particle_numbers :
  map (fun i =>
         List.length
           (Detention.particlesFor i
              (Detention.createDetentionParticles
                 [Sample.transfer Sample.Chicago Sample.ElPaso 120;
                  Sample.onTheSpot;
                  Sample.transfer Sample.ElPaso Sample.Alexandria 5000;
                  Sample.transfer Sample.Alexandria Sample.Chicago 1])))
      [0; 1; 2; 3]%nat
  = [3; 0; 15; 1]%nat.
Proof. reflexivity. Qed.

(** One particle for a [null] count, none for a count that is not there. *)
Example particles_without_a_count :
  map (fun cnt =>
         List.length
           (Detention.createDetentionParticles
              [{| Detention.origin := Some Sample.Chicago;
                  Detention.destination := Some Sample.ElPaso;
                  Detention.count := cnt |}]))
      [JS.IsNull; JS.Absent; JS.Num 0; JS.Num (-7)]
  = [1; 0; 1; 1]%nat.
Proof. reflexivity. Qed.

(** The three looks of a particle that goes to Mexico and of one that goes
    to Guatemala, under [undefined], [null] and the key Mexico. *)
Example filter_looks :
  map (fun key =>
         Removal.looks
           (Removal.filterParticlesByDestination key
              (Sample.running [Sample.toMexico; Sample.fromWashington])))
      [Removal.Undefined; Removal.Null; Removal.Key "Mexico"]
  = [[(false, 1, Removal.red); (false, 1, Removal.red)];
     [(true, 2 # 10, Removal.gray); (true, 2 # 10, Removal.gray)];
     [(false, 1, Removal.red); (true, 5 # 10, Removal.gray)]].
Proof. reflexivity. Qed.

(* ===================================================================== *)
(** * Part III: further properties of the program                         *)
(* ===================================================================== *)

(** ** The entries of the aggregation *)

Section AggregationEntries.
Import Removal.

Lemma addFlow_unnamed (aggregated : list (string * tally)) (f : flow) :
  destinationNameOf f = None -> addFlow aggregated f = aggregated.
Proof. intros E. unfold addFlow. now rewrite E. Qed.

Lemma fold_addFlow_named (flows : list flow) :
  forall aggregated,
    fold_left addFlow (filter hasDestinationName flows) aggregated
    = fold_left addFlow flows aggregated.
Proof.
  induction flows as [|f flows IH]; intros aggregated; simpl; [reflexivity|].
  unfold hasDestinationName at 1.
  destruct (destinationNameOf f) eqn:E; simpl.
  - apply IH.
  - rewrite (addFlow_unnamed aggregated f E). apply IH.
Qed.

(** For flows with ordinary names, a destination has an entry exactly when
    some flow names it, no destination has two entries, and flows without a
    destination name (a missing destination, a missing or empty name) leave
    the result as it is without them. *)
Theorem aggregate_entries (flows : list flow) (d : string)
  (Hnames : ordinaryNames flows = true) :
  ((exists e, lookup d (aggregateFlowsByDestination flows) = Some e)
   <-> exists f, In f flows /\ destinationNameOf f = Some d)
  /\ NoDup (keys (aggregateFlowsByDestination flows))
  /\ aggregateFlowsByDestination (filter hasDestinationName flows)
     = aggregateFlowsByDestination flows.
Proof.
  split; [|split].
  - rewrite aggregate_tabulated, lookup_tabulated.
    destruct (in_dec string_dec d (destinationsSeen flows)) as [Hin|Hout].
    + split; [intros _|eauto].
      apply (proj1 (firstSeen_In _ _)) in Hin.
      apply (proj1 (named_In _ _ _)) in Hin. exact Hin.
    + split; [intros (e & He); discriminate|].
      intros Hf. exfalso. apply Hout. apply firstSeen_In.
      apply (proj2 (named_In _ _ _)). exact Hf.
  - rewrite aggregate_tabulated. unfold keys. rewrite map_map. simpl.
    rewrite map_id. apply firstSeen_NoDup.
  - unfold aggregateFlowsByDestination. now rewrite fold_addFlow_named.
Qed.

Lemma sumValues_app (a b : list (string * Z)) :
  sumValues (a ++ b) = (sumValues a + sumValues b)%Z.
Proof.
  unfold sumValues. induction a as [|x a IH]; simpl; [reflexivity|].
  rewrite IH. lia.
Qed.





End AggregationEntries.

Lemma aggregate_entries_witness :
  NoDup (keys (Removal.aggregateFlowsByDestination Sample.scenario)).
Proof.
  exact (proj1 (proj2 (aggregate_entries Sample.scenario "Mexico" eq_refl))).
Defined.


(** ** The top origins *)

Section TopOrigins.
Import Removal.

Lemma sorted_app_order (l1 l2 : list originShare) :
  StronglySorted descending (l1 ++ l2) ->
  forall x y, In x l1 -> In y l2 -> descending x y.
Proof.
  induction l1 as [|a l1 IH]; simpl; intros Hs x y Hx Hy; [contradiction|].
  inversion Hs as [|a' l' Hl Ha]; subst. destruct Hx as [<-|Hx].
  - rewrite Forall_forall in Ha. apply Ha. apply in_or_app. now right.
  - now apply IH.
Qed.

Lemma share_name_count (tot : Z) (entry : string * Z) :
  oname (share tot entry) = fst entry /\ ocount (share tot entry) = snd entry.
Proof. split; reflexivity. Qed.

(** For flows with ordinary names, [top_origins] holds the five origins
    with the largest counts, or all of them when there are fewer: it has
    [min 5 n] elements for [n] origins, names no origin twice, gives each
    origin the count recorded for it in [origins], and no origin left out
    has a larger count than one that is listed. *)
Theorem top_origins_are_the_largest (flows : list flow) (d : string)
  (e : destinationData)
  (Hordinary : ordinaryNames flows = true)
  (He : lookup d (aggregateFlowsByDestination flows) = Some e) :
  List.length (top_origins e) = Nat.min 5 (List.length (origins e))
  /\ NoDup (map oname (top_origins e))
  /\ (forall s, In s (top_origins e) ->
        lookup (oname s) (origins e) = Some (ocount s))
  /\ (forall s o c,
        In s (top_origins e) -> lookup o (origins e) = Some c ->
        ~ In o (map oname (top_origins e)) -> (c <= ocount s)%Z).
Proof.
  rewrite aggregate_tabulated, lookup_tabulated in He.
  destruct (in_dec string_dec d (destinationsSeen flows)); [|discriminate].
  injection He as <-.
  cbn [finish tallyOf total origins top_origins ttotal torigins].
  set (tot := sumCounts (flowsTo d flows)).
  set (entries := originTotals d flows).
  set (ranking := sortDesc (map (share tot) entries)).
  assert (Hperm : Permutation ranking (map (share tot) entries))
    by apply sortDesc_perm.
  assert (Hnames : map oname (map (share tot) entries)
                   = originsSeen (flowsTo d flows)).
  { unfold entries, originTotals, originTotalsOf. rewrite !map_map. simpl.
    apply map_id. }
  assert (Hnd : NoDup (map oname ranking)).
  { apply (Permutation_NoDup (l := map oname (map (share tot) entries))).
    - apply Permutation_map. now symmetry.
    - rewrite Hnames. apply firstSeen_NoDup. }
  assert (Hentry : forall s, In s ranking ->
                     lookup (oname s) entries = Some (ocount s)).
  { intros s Hs. apply (Permutation_in _ Hperm) in Hs.
    apply in_map_iff in Hs. destruct Hs as ([o c] & <- & Hin). simpl.
    unfold entries, originTotals, originTotalsOf in *.
    apply in_map_iff in Hin. destruct Hin as (o' & [= -> <-] & Hin).
    rewrite lookup_tabulated.
    destruct (in_dec string_dec o (originsSeen (flowsTo d flows)));
      [reflexivity|contradiction]. }
  split; [|split; [|split]].
  - rewrite length_firstn. unfold ranking.
    rewrite (Permutation_length (sortDesc_perm _)), length_map. reflexivity.
  - rewrite <- firstn_map.
    rewrite <- (firstn_skipn 5 (map oname ranking)) in Hnd.
    now apply NoDup_app_remove_r in Hnd.
  - intros s Hs. apply Hentry. now apply firstn_In_list in Hs.
  - intros s o c Hs Ho Hout.
    assert (Hin : In (share tot (o, c)) ranking).
    { apply (Permutation_in _ (Permutation_sym Hperm)). apply in_map.
      unfold entries, originTotals, originTotalsOf in *.
      rewrite lookup_tabulated in Ho.
      destruct (in_dec string_dec o (originsSeen (flowsTo d flows)));
        [|discriminate].
      injection Ho as <-. apply in_map_iff. exists o. auto. }
    rewrite <- (firstn_skipn 5 ranking) in Hin. apply in_app_or in Hin.
    destruct Hin as [Hin|Hin].
    + exfalso. apply Hout. apply in_map_iff. exists (share tot (o, c)). auto.
    + pose proof (sortDesc_sorted (map (share tot) entries)) as Hsorted.
      fold ranking in Hsorted. rewrite <- (firstn_skipn 5 ranking) in Hsorted.
      apply (sorted_app_order _ _ Hsorted s (share tot (o, c)) Hs Hin).
Qed.

End TopOrigins.

Lemma top_origins_are_the_largest_witness :
  List.length
    [{| Removal.oname := "CA"; Removal.ocount := 100;
        Removal.percent := Removal.Decimal false 667 |};
     {| Removal.oname := "TX"; Removal.ocount := 50;
        Removal.percent := Removal.Decimal false 333 |}]
  = Nat.min 5 (List.length [("CA"%string, 100%Z); ("TX"%string, 50%Z)]).
Proof.
  apply (top_origins_are_the_largest Sample.scenario "Mexico"
           {| Removal.ddestination := "Mexico";
              Removal.total := 150;
              Removal.origins := [("CA"%string, 100%Z); ("TX"%string, 50%Z)];
              Removal.top_origins :=
                [{| Removal.oname := "CA"; Removal.ocount := 100;
                    Removal.percent := Removal.Decimal false 667 |};
                 {| Removal.oname := "TX"; Removal.ocount := 50;
                    Removal.percent := Removal.Decimal false 333 |}] |}
           eq_refl eq_refl).
Defined.

(** ** The fields the builders make *)

Lemma forEachPush_length_le (A B : Type) (f : nat -> nat -> A -> list B)
  (bound : nat) (Hf : forall k i a, (List.length (f k i a) <= bound)%nat)
  (l : list A) :
  forall pushed start,
    (List.length (forEachPush f pushed start l) <= bound * List.length l)%nat.
Proof.
  induction l as [|a l IH]; intros pushed start; simpl; [lia|].
  rewrite length_app.
  specialize (IH (pushed + List.length (f pushed start a))%nat (S start)).
  specialize (Hf pushed start a). lia.
Qed.

Lemma forEachPush_In_nth (A B : Type) (f : nat -> nat -> A -> list B)
  (l : list A) :
  forall pushed start b,
    In b (forEachPush f pushed start l) ->
    exists k i a, nth_error l i = Some a /\ In b (f k (start + i)%nat a).
Proof.
  induction l as [|a l IH]; intros pushed start b Hb; simpl in Hb;
    [contradiction|].
  apply in_app_or in Hb. destruct Hb as [Hb|Hb].
  - exists pushed, 0%nat, a. rewrite Nat.add_0_r. auto.
  - destruct (IH _ _ _ Hb) as (k & i & a' & Hi & Hin).
    exists k, (S i), a'. split; [exact Hi|].
    now replace (start + S i)%nat with (S start + i)%nat by lia.
Qed.

Section Fields.
Context `{Turf}.

Lemma detention_particlesOfFlow_length (i : nat) (f : Detention.flow) :
  (List.length (Detention.particlesOfFlow i f)
   <= Z.to_nat Detention.MAX_PARTICLES_PER_ROUTE)%nat.
Proof.
  unfold Detention.particlesOfFlow.
  destruct (Detention.origin f) as [o|]; [|simpl; lia].
  destruct (Detention.destination f) as [d|]; [|simpl; lia].
  destruct (JS.truthyNum (Detention.lat o)); [|simpl; lia].
  destruct (JS.truthyNum (Detention.lon o)); [|simpl; lia].
  destruct (JS.truthyNum (Detention.lat d)); [|simpl; lia].
  destruct (JS.truthyNum (Detention.lon d)); [|simpl; lia].
  destruct (Qeq_bool q q1 && Qeq_bool q0 q2); [simpl; lia|].
  cbv zeta. destruct (JS.Qltb _ (1 # 10)); [simpl; lia|].
  destruct (JS.numberOf (Detention.count f)) as [c|] eqn:Hc.
  - rewrite (numParticles_value _ c Hc). rewrite length_map, length_seq.
    unfold Detention.MAX_PARTICLES_PER_ROUTE. lia.
  - unfold Detention.numParticles. rewrite Hc. simpl. lia.
Qed.

Lemma detention_particlesFor_outside (flows : list Detention.flow) (i : nat) :
  nth_error flows i = None ->
  Detention.particlesFor i (Detention.createDetentionParticles flows) = [].
Proof.
  intros Hi. apply filter_none. intros p Hp. apply Nat.eqb_neq. intros E.
  unfold Detention.createDetentionParticles in Hp.
  apply forEachPush_In_nth in Hp. destruct Hp as (k & j & f & Hj & Hin).
  apply (detention_flowIndex k) in Hin. simpl in Hin.
  rewrite Hin in E. subst j. congruence.
Qed.

(** The background field is bounded whatever the counts are: no flow gets
    more than [MAX_PARTICLES_PER_ROUTE] particles, skipped and unknown flows
    get none, and the whole field has at most [MAX_PARTICLES_PER_ROUTE]
    particles per flow record. *)
Theorem detention_field_is_bounded (flows : list Detention.flow) (i : nat) :
  (List.length (Detention.particlesFor i (Detention.createDetentionParticles flows))
   <= Z.to_nat Detention.MAX_PARTICLES_PER_ROUTE)%nat
  /\ (List.length (Detention.createDetentionParticles flows)
      <= Z.to_nat Detention.MAX_PARTICLES_PER_ROUTE * List.length flows)%nat
  /\ (forall p, In p (Detention.createDetentionParticles flows) ->
        (Detention.flowIndex p < List.length flows)%nat).
Proof.
  split; [|split].
  - destruct (nth_error flows i) as [f|] eqn:Hi.
    + rewrite (detention_particlesFor flows i f Hi).
      apply detention_particlesOfFlow_length.
    + rewrite (detention_particlesFor_outside flows i Hi). simpl. lia.
  - apply forEachPush_length_le. intros _ j f.
    apply detention_particlesOfFlow_length.
  - intros p Hp. unfold Detention.createDetentionParticles in Hp.
    apply forEachPush_In_nth in Hp. destruct Hp as (k & j & f & Hj & Hin).
    apply (detention_flowIndex k) in Hin. simpl in Hin. rewrite Hin.
    apply nth_error_Some. congruence.
Qed.

(** A background particle never waits: it is built with its progress at its
    start offset, so in every frame its progress has reached the start
    offset, and it is left undrawn only when it cannot be placed. *)
Theorem background_particles_never_wait (flows : list Detention.flow)
  (p : Detention.particle) (proj : projector) (n : nat)
  (Hp : In p (Detention.createDetentionParticles flows)) :
  Detention.startOffset (Nat.iter n Detention.tick p)
    <= Detention.progress (Nat.iter n Detention.tick p)
  /\ (Detention.draw proj (Nat.iter n Detention.tick p) = [] ->
      Detention.positioned proj (Nat.iter n Detention.tick p) = None).
Proof.
  destruct (createDetentionParticles_phased flows p Hp) as ((_ & Ho & Hs) & H0).
  assert (Hvis : Detention.startOffset (Nat.iter n Detention.tick p)
                 <= Detention.progress (Nat.iter n Detention.tick p)).
  { destruct (detention_ticks n p) as (-> & _ & ->).
    apply run_above_offset; [exact Hs|]. rewrite H0. apply Qle_refl. }
  split; [exact Hvis|].
  rewrite detention_draw_positioned. apply Qle_bool_iff in Hvis. rewrite Hvis.
  destruct (Detention.positioned proj _); [discriminate|reflexivity].
Qed.

Lemma truthyNum_zero (x : option Q) (q : Q) :
  x = Some q -> q == 0 -> JS.truthyNum x = None.
Proof.
  intros -> Hq. simpl. apply Qeq_bool_iff in Hq. now rewrite Hq.
Qed.

Lemma detention_zero_line (i : nat) (f : Detention.flow) (a b : coords) :
  Detention.endpoints f = Some (a, b) -> onZeroLine a b ->
  Detention.particlesOfFlow i f = [].
Proof.
  unfold Detention.endpoints, Detention.particlesOfFlow, onZeroLine.
  destruct (Detention.origin f) as [o|]; [|discriminate].
  destruct (Detention.destination f) as [d|]; [|discriminate].
  destruct (Detention.lat o) as [olat|] eqn:E1; [|discriminate].
  destruct (Detention.lon o) as [olon|] eqn:E2; [|discriminate].
  destruct (Detention.lat d) as [dlat|] eqn:E3; [|discriminate].
  destruct (Detention.lon d) as [dlon|] eqn:E4; [|discriminate].
  intros [= <- <-]. simpl fst. simpl snd. intros [Hz|[Hz|[Hz|Hz]]].
  - rewrite (truthyNum_zero (Some olon) olon eq_refl Hz).
    now destruct (JS.truthyNum (Some olat)).
  - now rewrite (truthyNum_zero (Some olat) olat eq_refl Hz).
  - rewrite (truthyNum_zero (Some dlon) dlon eq_refl Hz).
    destruct (JS.truthyNum (Some olat)); [|reflexivity].
    destruct (JS.truthyNum (Some olon)); [|reflexivity].
    now destruct (JS.truthyNum (Some dlat)).
  - rewrite (truthyNum_zero (Some dlat) dlat eq_refl Hz).
    destruct (JS.truthyNum (Some olat)); [|reflexivity].
    now destruct (JS.truthyNum (Some olon)).
Qed.

Lemma removal_zero_line (f : Removal.flow) (a b : coords) :
  Removal.endpoints f = Some (a, b) -> onZeroLine a b ->
  Removal.hasCoordinates f = false
  /\ forall random k i, Removal.particlesOfFlow random k i f = [].
Proof.
  unfold Removal.endpoints, Removal.particlesOfFlow, Removal.hasCoordinates,
    onZeroLine.
  destruct (Removal.origin f) as [o|]; [|discriminate].
  destruct (Removal.destination f) as [d|]; [|discriminate].
  destruct (Removal.lat o) as [olat|] eqn:E1; [|discriminate].
  destruct (Removal.lon o) as [olon|] eqn:E2; [|discriminate].
  destruct (Removal.lat d) as [dlat|] eqn:E3; [|discriminate].
  destruct (Removal.lon d) as [dlon|] eqn:E4; [|discriminate].
  intros [= <- <-]. simpl fst. simpl snd. intros [Hz|[Hz|[Hz|Hz]]].
  - rewrite (truthyNum_zero (Some olon) olon eq_refl Hz).
    now destruct (JS.truthyNum (Some olat)).
  - now rewrite (truthyNum_zero (Some olat) olat eq_refl Hz).
  - rewrite (truthyNum_zero (Some dlon) dlon eq_refl Hz).
    destruct (JS.truthyNum (Some olat)); [|now split].
    destruct (JS.truthyNum (Some olon)); [|now split].
    now destruct (JS.truthyNum (Some dlat)).
  - rewrite (truthyNum_zero (Some dlat) dlat eq_refl Hz).
    destruct (JS.truthyNum (Some olat)); [|now split].
    now destruct (JS.truthyNum (Some olon)).
Qed.

(** A coordinate that is exactly 0 counts as missing.  A flow with an end on
    the equator or on the prime meridian gets no particle on either map, and
    [loadData] drops it before the removal map sees it. *)
Theorem flows_on_the_zero_lines_are_dropped
  (dflows : list Detention.flow) (i : nat) (df : Detention.flow) (a b : coords)
  (allFlows : list Removal.flow) (rf : Removal.flow) (a' b' : coords)
  (Hdf : nth_error dflows i = Some df)
  (Hdends : Detention.endpoints df = Some (a, b))
  (Hdzero : onZeroLine a b)
  (Hrends : Removal.endpoints rf = Some (a', b'))
  (Hrzero : onZeroLine a' b') :
  Detention.particlesFor i (Detention.createDetentionParticles dflows) = []
  /\ ~ In rf (Removal.loadData allFlows)
  /\ (forall random flows ps j,
        Removal.createParticles random flows = Some ps ->
        nth_error flows j = Some rf ->
        Removal.particlesFor j ps = []).
Proof.
  destruct (removal_zero_line rf a' b' Hrends Hrzero) as [Hdrop Hnone].
  split; [|split].
  - rewrite (detention_particlesFor dflows i df Hdf).
    now apply (detention_zero_line i df a b).
  - unfold Removal.loadData. rewrite filter_In. intros [_ Hk]. congruence.
  - intros random flows ps j Hbuilt Hj.
    destruct (removal_particlesFor random flows ps j rf Hbuilt Hj) as (k & ->).
    apply Hnone.
Qed.

(** Behind [loadData] the builder of the removal map does not throw, and
    every particle it builds belongs to one of the loaded flows: its
    [flowIndex] is the index of a flow with four truthy coordinates, its
    [destinationName] is the name of the destination of that flow, and it
    starts unfiltered, opaque and red at progress 0. *)
Theorem particles_belong_to_loaded_flows (random : nat -> Q)
  (allFlows : list Removal.flow) :
  exists ps,
    Removal.createParticles random (Removal.loadData allFlows) = Some ps
    /\ forall p, In p ps ->
         exists f d,
           nth_error (Removal.loadData allFlows) (Removal.flowIndex p) = Some f
           /\ In f allFlows
           /\ Removal.hasCoordinates f = true
           /\ Removal.destination f = Some d
           /\ Removal.destinationName p = Removal.name d
           /\ Removal.look p = (false, 1, Removal.red)
           /\ Removal.progress p = 0.
Proof.
  destruct (createParticles_after_loadData random allFlows) as (ps & Hps).
  exists ps. split; [exact Hps|]. intros p Hp.
  unfold Removal.createParticles in Hps.
  destruct (forallb Removal.guardReturns (Removal.loadData allFlows));
    [|discriminate].
  injection Hps as <-.
  apply forEachPush_In_nth in Hp. destruct Hp as (k & i & f & Hi & Hin).
  simpl in Hin.
  assert (Hf : In f (Removal.loadData allFlows)) by (eapply nth_error_In; eauto).
  unfold Removal.loadData in Hf. apply filter_In in Hf. destruct Hf as [Hall Hc].
  pose proof (removal_flowIndex random k i f p Hin) as Hidx.
  unfold Removal.particlesOfFlow in Hin.
  destruct (Removal.origin f) as [o|]; [|contradiction].
  destruct (Removal.destination f) as [d|] eqn:Hd; [|contradiction].
  exists f, d. rewrite Hidx.
  destruct (JS.truthyNum (Removal.lat o)); [|contradiction].
  destruct (JS.truthyNum (Removal.lon o)); [|contradiction].
  destruct (JS.truthyNum (Removal.lat d)); [|contradiction].
  destruct (JS.truthyNum (Removal.lon d)); [|contradiction].
  destruct (Qeq_bool q q1 && Qeq_bool q0 q2); [contradiction|].
  cbv zeta in Hin. destruct (JS.Qltb _ 1); [contradiction|].
  apply in_map_iff in Hin. destruct Hin as (j & <- & _).
  repeat split; auto.
Qed.

End Fields.

(** ** The filter and the frames *)

Section FilterAndFrames.
Context `{Turf}.
Import Removal.

Lemma applyKey_tick (key : filterKey) (p : particle) :
  tick (applyKey key p) = applyKey key (tick p).
Proof. destruct key; reflexivity. Qed.

Lemma applyKey_positioned (key : filterKey) (proj : projector) (p : particle) :
  positioned proj (applyKey key p) = positioned proj p.
Proof. destruct key; reflexivity. Qed.

Lemma applyKey_last (k1 k2 : filterKey) (p : particle) :
  applyKey k2 (applyKey k1 p) = applyKey k2 p.
Proof. destruct k1, k2; reflexivity. Qed.

Lemma filter_particles (key : filterKey) (st : state) :
  canvas st = true -> ctx st = true ->
  particles (filterParticlesByDestination key st)
  = map (applyKey key) (particles st)
  /\ animationActive (filterParticlesByDestination key st) = animationActive st
  /\ canvas (filterParticlesByDestination key st) = true
  /\ ctx (filterParticlesByDestination key st) = true.
Proof.
  intros Hc Hx. unfold filterParticlesByDestination. rewrite Hc, Hx. simpl.
  destruct (particles st) as [|p ps] eqn:E; simpl; rewrite ?E; auto.
Qed.

Lemma centres_draw (key : filterKey) (proj : projector) (p : particle) :
  centres (draw proj (applyKey key p)) = centres (draw proj p)
  /\ forall s, In s (styles (draw proj (applyKey key p))) ->
               s = styleOf (applyKey key p).
Proof.
  rewrite !removal_draw_positioned, applyKey_positioned.
  replace (startOffset (applyKey key p)) with (startOffset p)
    by (destruct key; reflexivity).
  replace (progress (applyKey key p)) with (progress p)
    by (destruct key; reflexivity).
  destruct (Qle_bool (startOffset p) (progress p)); [|split; [reflexivity|]].
  - destruct (positioned proj p); simpl; split; try reflexivity.
    + intros s [<-|[]]. reflexivity.
    + intros s [].
  - intros s [].
Qed.

Lemma centres_field (key : filterKey) (proj : projector) (ps : list particle) :
  centres (flat_map (fun p => draw proj (tick p)) (map (applyKey key) ps))
  = centres (flat_map (fun p => draw proj (tick p)) ps).
Proof.
  unfold centres. induction ps as [|p ps IH]; simpl; [reflexivity|].
  rewrite !flat_map_app, IH, applyKey_tick. f_equal.
  apply (proj1 (centres_draw key proj (tick p))).
Qed.

(** The filter touches the style of the particles only.  Applied before a
    frame or after it, it leaves the same field; the frame of a filtered
    field draws its circles at the centres it would draw them at without
    the filter; and the circles are red at alpha 0.5 after [undefined], gray
    at alpha 0.1 after [null], and red at alpha 0.5 or gray at alpha 0.25
    after a string key. *)
Theorem filter_changes_style_only (key : filterKey) (proj : projector)
  (st : state)
  (Hactive : animationActive st = true)
  (Hcanvas : canvas st = true) (Hctx : ctx st = true) :
  fst (drawParticles proj (filterParticlesByDestination key st))
    = filterParticlesByDestination key (fst (drawParticles proj st))
  /\ centres (snd (drawParticles proj (filterParticlesByDestination key st)))
     = centres (snd (drawParticles proj st))
  /\ (forall s,
        In s (styles (snd (drawParticles proj
                             (filterParticlesByDestination key st)))) ->
        match key with
        | Undefined => s = Rgba 255 0 0 ((1 # 2) * 1)
        | Null => s = Rgba 128 128 128 ((1 # 2) * (2 # 10))
        | Key _ => s = Rgba 255 0 0 ((1 # 2) * 1)
                   \/ s = Rgba 128 128 128 ((1 # 2) * (5 # 10))
        end).
Proof.
  destruct (filter_particles key st Hcanvas Hctx) as (Hps & Ha & Hc & Hx).
  rewrite (drawParticles_running proj st Hactive Hcanvas Hctx).
  rewrite (drawParticles_running proj (filterParticlesByDestination key st))
    by congruence.
  rewrite Hps. cbn [fst snd]. split; [|split].
  - clear Hps Ha Hc Hx. destruct st as [a c x ps sel]. simpl in *. subst.
    unfold filterParticlesByDestination, withParticles. simpl.
    destruct ps as [|p ps]; simpl; [reflexivity|].
    rewrite !map_map. f_equal. f_equal.
    + apply applyKey_tick.
    + apply map_ext. intros q. apply applyKey_tick.
  - simpl. unfold centres. rewrite !flat_map_app. simpl. rewrite !app_nil_r.
    apply centres_field.
  - intros s Hs. simpl in Hs. unfold styles in Hs.
    rewrite flat_map_app in Hs. simpl in Hs. rewrite app_nil_r in Hs.
    apply in_flat_map in Hs. destruct Hs as (call & Hcall & Hs).
    apply in_flat_map in Hcall. destruct Hcall as (q & Hq & Hcall).
    apply in_map_iff in Hq. destruct Hq as (p & <- & _).
    rewrite applyKey_tick in Hcall.
    assert (Hst : In s (styles (draw proj (applyKey key (tick p))))).
    { unfold styles. apply in_flat_map. exists call. auto. }
    apply (proj2 (centres_draw key proj (tick p))) in Hst. subst s.
    destruct key as [| |k]; try reflexivity.
    unfold applyKey, styleOf. simpl.
    destruct (differsFrom (destinationName p) k); simpl; auto.
Qed.

(** Of two filters in a row the last one decides: the state is the one the
    second filter alone would leave.  In particular [undefined] undoes any
    filter: on a field whose particles are in the default state, filtering
    and then applying [undefined] gives back the same particles. *)
Theorem last_filter_wins (k1 k2 : filterKey) (st : state) :
  filterParticlesByDestination k2 (filterParticlesByDestination k1 st)
    = filterParticlesByDestination k2 st
  /\ ((forall p, In p (particles st) -> look p = (false, 1, red)) ->
      particles (filterParticlesByDestination Undefined
                   (filterParticlesByDestination k1 st))
      = particles st).
Proof.
  assert (Hlast : filterParticlesByDestination k2
                    (filterParticlesByDestination k1 st)
                  = filterParticlesByDestination k2 st).
  { unfold filterParticlesByDestination.
    destruct (negb (canvas st) || negb (ctx st)
              || Nat.eqb (List.length (particles st)) 0) eqn:G.
    - now rewrite G.
    - cbn [canvas ctx particles animationActive selectedCountryName].
      rewrite length_map, G. f_equal. rewrite map_map. apply map_ext.
      intros p. apply applyKey_last. }
  split; [exact Hlast|].
  intros Hdefault.
  assert (Hundo : filterParticlesByDestination Undefined
                    (filterParticlesByDestination k1 st)
                  = filterParticlesByDestination Undefined st)
    by (clear Hlast; unfold filterParticlesByDestination;
        destruct (negb (canvas st) || negb (ctx st)
                  || Nat.eqb (List.length (particles st)) 0) eqn:G;
        [now rewrite G|
         cbn [canvas ctx particles animationActive selectedCountryName];
         rewrite length_map, G; f_equal; rewrite map_map; apply map_ext;
         intros p; apply applyKey_last]).
  rewrite Hundo. unfold filterParticlesByDestination.
  destruct (negb (canvas st) || negb (ctx st)
            || Nat.eqb (List.length (particles st)) 0); [reflexivity|].
  cbn [particles]. rewrite <- (map_id (particles st)) at 2.
  apply map_ext_in. intros p Hp. specialize (Hdefault p Hp).
  destruct p. unfold look in Hdefault. simpl in Hdefault.
  injection Hdefault as -> -> ->. reflexivity.
Qed.

End FilterAndFrames.

Lemma filter_changes_style_only_witness :
  Removal.centres
    (snd (Removal.drawParticles Sample.plainProjector
            (Removal.filterParticlesByDestination Removal.Null
               (Sample.running [Sample.fromWashington; Sample.arriving]))))
  = Removal.centres
      (snd (Removal.drawParticles Sample.plainProjector
              (Sample.running [Sample.fromWashington; Sample.arriving]))).
Proof.
  apply (filter_changes_style_only Removal.Null Sample.plainProjector
           (Sample.running [Sample.fromWashington; Sample.arriving])
           eq_refl eq_refl eq_refl).
Defined.

Lemma last_filter_wins_witness :
  Removal.particles
    (Removal.filterParticlesByDestination Removal.Undefined
       (Removal.filterParticlesByDestination (Removal.Key "Mexico")
          (Sample.running [Sample.toMexico; Sample.fromWashington])))
  = [Sample.toMexico; Sample.fromWashington].
Proof.
  apply (last_filter_wins (Removal.Key "Mexico") Removal.Undefined
           (Sample.running [Sample.toMexico; Sample.fromWashington])).
  intros p [<-|[<-|[]]]; reflexivity.
Defined.

Lemma background_particles_never_wait_witness :
  Forall (fun p =>
            Detention.startOffset (Nat.iter 3 Detention.tick p)
            <= Detention.progress (Nat.iter 3 Detention.tick p))
         (Detention.createDetentionParticles
            [Sample.transfer Sample.Chicago Sample.ElPaso 120]).
Proof.
  apply Forall_forall. intros p Hp.
  apply (background_particles_never_wait
           [Sample.transfer Sample.Chicago Sample.ElPaso 120]
           p Sample.plainProjector 3 Hp).
Defined.

Lemma flows_on_the_zero_lines_are_dropped_witness :
  Detention.particlesFor 0
    (Detention.createDetentionParticles
       [Sample.transfer Sample.Chicago Sample.Greenwich 80]) = []
  /\ ~ In (Sample.removal Sample.CA Sample.Ghana 12 2)
          (Removal.loadData [Sample.dense; Sample.removal Sample.CA Sample.Ghana 12 2]).
Proof.
  pose proof (flows_on_the_zero_lines_are_dropped
                [Sample.transfer Sample.Chicago Sample.Greenwich 80] 0
                (Sample.transfer Sample.Chicago Sample.Greenwich 80)
                (-88, 42) (0, 51)
                [Sample.dense; Sample.removal Sample.CA Sample.Ghana 12 2]
                (Sample.removal Sample.CA Sample.Ghana 12 2)
                (-119, 36) (0, 6)
                eq_refl eq_refl
                (or_intror (or_intror (or_introl (Qeq_refl 0))))
                eq_refl
                (or_intror (or_intror (or_introl (Qeq_refl 0)))))
    as (Hnone & Hdrop & _).
  split; [exact Hnone|exact Hdrop].
Defined.

Lemma detention_field_is_bounded_witness :
  Forall (fun p => (Detention.flowIndex p < 2)%nat)
         (Detention.createDetentionParticles
            [Sample.transfer Sample.Chicago Sample.ElPaso 120;
             Sample.transfer Sample.ElPaso Sample.Alexandria 5000]).
Proof.
  apply Forall_forall. intros p Hp.
  apply (detention_field_is_bounded
           [Sample.transfer Sample.Chicago Sample.ElPaso 120;
            Sample.transfer Sample.ElPaso Sample.Alexandria 5000] 0).
  exact Hp.
Defined.

(** ** The destination circles *)


Section Circles.
Import Removal.

Lemma lookup_assign_other (V : Type) (k k' : string) (v : V)
  (obj : list (string * V)) :
  k' <> k -> lookup k' (assign k v obj) = lookup k' obj.
Proof.
  intros Hne. induction obj as [|[x w] obj IH]; simpl.
  - destruct (String.eqb k k') eqn:E; [|reflexivity].
    apply String.eqb_eq in E. congruence.
  - destruct (String.eqb x k) eqn:E; simpl.
    + apply String.eqb_eq in E. subst x.
      destruct (String.eqb k k') eqn:E'; [|reflexivity].
      apply String.eqb_eq in E'. congruence.
    + destruct (String.eqb x k'); [reflexivity|exact IH].
Qed.

Lemma lookup_In (V : Type) (k : string) (v : V) (obj : list (string * V)) :
  lookup k obj = Some v -> In (k, v) obj.
Proof.
  induction obj as [|[x w] obj IH]; simpl; [discriminate|].
  destruct (String.eqb x k) eqn:E.
  - apply String.eqb_eq in E. intros [= ->]. left. congruence.
  - intros Hl. right. now apply IH.
Qed.

Variable missing : string.







End Circles.


(* --------------------------------------------------------------------- *)
(** ** Countries of the base map and destinations                         *)
(* --------------------------------------------------------------------- *)

Section Matching.
Import Removal.
Context `{Strings}.




Lemma identityMapping_lookup (mapping : list (string * string)) (c m : string) :
  identityMapping mapping = true -> lookup c mapping = Some m -> m = c.
Proof.
  intros Hid Hl. apply lookup_In in Hl.
  unfold identityMapping in Hid. rewrite forallb_forall in Hid.
  apply Hid in Hl. simpl in Hl. apply String.eqb_eq in Hl. congruence.
Qed.

(** The table of country names never decides a match: a mapping in which
    every name stands for itself, as each entry of [COUNTRY_NAME_MAPPING]
    does, gives the results of the empty mapping, for every cache and every
    country name. *)
Theorem name_mapping_never_decides (V : Type) (mapping : list (string * string))
  (data : list (string * V)) (countryName : string) :
  identityMapping mapping = true ->
  getDestinationDataForCountry mapping data countryName
  = getDestinationDataForCountry [] data countryName.
Proof.
  intros Hid. unfold getDestinationDataForCountry.
  destruct (lookup countryName data) as [e|] eqn:Hexact; [reflexivity|].
  cbn [orElse lookup JS.truthyStr find].
  assert (Hmapped : match JS.truthyStr (lookup countryName mapping) with
                    | Some mappedName => lookup mappedName data
                    | None => None
                    end = None).
  { destruct (lookup countryName mapping) as [m|] eqn:Hm; [|reflexivity].
    apply (identityMapping_lookup _ _ _ Hid) in Hm. subst m. simpl.
    destruct (String.eqb countryName EmptyString); [reflexivity|exact Hexact]. }
  assert (Hreverse : find (fun entry => String.eqb (fst entry) countryName
                                        && present (lookup (snd entry) data))
                          mapping = None).
  { destruct (find _ mapping) as [[k v]|] eqn:F; [|reflexivity].
    apply find_some in F. destruct F as [Hin Ht]. simpl in Ht.
    apply andb_prop in Ht. destruct Ht as [Hk Hp].
    apply String.eqb_eq in Hk. subst k.
    unfold identityMapping in Hid. rewrite forallb_forall in Hid.
    apply Hid in Hin. simpl in Hin. apply String.eqb_eq in Hin. subst v.
    rewrite Hexact in Hp. discriminate. }
  rewrite Hmapped, Hreverse. reflexivity.
Qed.


End Matching.


Lemma name_mapping_never_decides_witness :
  Removal.getDestinationDataForCountry Removal.COUNTRY_NAME_MAPPING
    (Removal.aggregateFlowsByDestination Sample.scenario) "mexico"
  = Removal.getDestinationDataForCountry []
      (Removal.aggregateFlowsByDestination Sample.scenario) "mexico".
Proof.
  apply (name_mapping_never_decides _ Removal.COUNTRY_NAME_MAPPING).
  reflexivity.
Defined.

(* --------------------------------------------------------------------- *)
(** ** The page of the removal narrative                                  *)
(* --------------------------------------------------------------------- *)

Section Page.
Import Removal.
Context `{Turf} `{Strings}.
Variable missing : string.
Variable topDestinations : list (option card).

Ltac open_handlers :=
  unfold handle, handleStepEnter, focusOnDestination, onTimer, onFrame,
    callDrawParticles, onCountryMouseMove, onCountryMouseLeave, onCountryClick,
    onCircleMouseMove, onCircleMouseLeave, onCircleClick, onLoad, onFlows,
    onCountries, addCountryLayers, setupCountryInteractions,
    markDestinationCountries, addDestinationOverlay,
    setDestinationOverlayVisible, setCountryLayersVisible,
    disableMapInteractions, enableMapInteractions, flyToDefault, flyToWorld,
    setHover in *.

Ltac atomic x :=
  lazymatch x with
  | context [match _ with _ => _ end] => fail
  | _ => idtac
  end.

Ltac split_cases :=
  repeat (match goal with
          | |- context [match ?x with _ => _ end] =>
              atomic x; destruct x eqn:?
          end; cbn in *).

Lemma run_invariant (P : page -> Prop) (Q : call -> Prop) :
  (forall ev pg, P pg ->
     P (fst (handle missing topDestinations ev pg))
     /\ Forall Q (snd (handle missing topDestinations ev pg))) ->
  forall evs pg, P pg ->
    P (fst (run missing topDestinations evs pg))
    /\ Forall Q (snd (run missing topDestinations evs pg)).
Proof.
  intros Hstep evs. induction evs as [|ev evs IH]; intros pg Hp.
  - split; [exact Hp|constructor].
  - simpl. destruct (Hstep ev pg Hp) as [Hp' Hq].
    destruct (handle missing topDestinations ev pg) as [pg' calls].
    destruct (IH pg' Hp') as [Hp'' Hq'].
    destruct (run missing topDestinations evs pg') as [pg'' more].
    split; [exact Hp''|]. apply Forall_app. split; assumption.
Qed.

Lemma Forall_canvas (Q : call -> Prop) (l : list drawCall) :
  (forall d, Q (Canvas d)) -> Forall Q (map Canvas l).
Proof.
  intros Hq. apply Forall_forall. intros c Hc. apply in_map_iff in Hc.
  destruct Hc as (d & <- & _). apply Hq.
Qed.

Ltac calls_ok :=
  rewrite ?Forall_app;
  repeat split;
  try solve [apply Forall_canvas; intros; exact I
            | repeat constructor].

(** *** The overlay of the destination circles *)

Lemma handle_overlayOff (ev : event) (pg : page) :
  overlayOff pg ->
  overlayOff (fst (handle missing topDestinations ev pg))
  /\ Forall notToCircle (snd (handle missing topDestinations ev pg)).
Proof.
  unfold overlayOff. intros (Ha & Hv & Ht).
  destruct ev; open_handlers; cbn; split_cases;
    try solve [intuition (try congruence); calls_ok
              | rewrite Ha in *; discriminate].
Qed.

(** The circles of the destinations are never shown.  After any sequence of
    events of the page (the parts of the load handler, steps entered and
    left, timers, frames, the pointer over the countries and over the
    circles) [overlayActive] is false, the two layers of the circles are
    hidden, their tooltip is not displayed, and no click on a circle has
    moved the camera. *)
Theorem destination_circles_are_never_shown (evs : list event) :
  overlayActive (fst (run missing topDestinations evs initialPage)) = false
  /\ circlesVisible (fst (run missing topDestinations evs initialPage)) = false
  /\ (destinationTooltip (fst (run missing topDestinations evs initialPage)) = None
      \/ destinationTooltip (fst (run missing topDestinations evs initialPage))
         = Some None)
  /\ Forall notToCircle (snd (run missing topDestinations evs initialPage)).
Proof.
  assert (Hinit : overlayOff initialPage) by (unfold overlayOff; cbn; auto).
  destruct (run_invariant overlayOff notToCircle handle_overlayOff evs
              initialPage Hinit) as [(Ha & Hv & Ht) Hq].
  auto.
Qed.

(** *** The animation loop *)

Lemma forEachDraw_requests (proj : projector) (ps : list particle) :
  filter isRequest (snd (forEachDraw (stepParticle proj) ps)) = [].
Proof.
  induction ps as [|p ps IH]; [reflexivity|].
  simpl. destruct (forEachDraw (stepParticle proj) ps) as [rest' drawnRest].
  simpl in *. rewrite filter_app, IH, app_nil_r.
  unfold draw. split_cases; reflexivity.
Qed.

Lemma drawParticles_requests (proj : projector) (st : state) :
  animationActive (fst (drawParticles proj st)) = animationActive st
  /\ List.length (filter isRequest (snd (drawParticles proj st)))
     = (if animationActive st && canvas st && ctx st then 1 else 0)%nat
  /\ (animationActive st && canvas st && ctx st = false ->
      snd (drawParticles proj st) = []).
Proof.
  unfold drawParticles. destruct st as [a c x ps sel].
  destruct a, c, x; cbn;
    try (split; [reflexivity|split; [reflexivity|reflexivity]]).
  pose proof (forEachDraw_requests proj ps) as Hr.
  destruct (forEachDraw (stepParticle proj) ps) as [ps' drawn].
  cbn in *. rewrite filter_app, Hr. cbn.
  split; [reflexivity|split; [reflexivity|discriminate]].
Qed.

Lemma filter_animationActive (key : filterKey) (st : state) :
  animationActive (filterParticlesByDestination key st) = animationActive st.
Proof.
  unfold filterParticlesByDestination. split_cases; reflexivity.
Qed.

Lemma callDrawParticles_spec (proj : projector) (pg : page) :
  pendingFrames (fst (callDrawParticles proj pg))
  = (pendingFrames pg
     + if animationActive (field pg) && canvas (field pg) && ctx (field pg)
       then 1 else 0)%nat
  /\ animationActive (field (fst (callDrawParticles proj pg)))
     = animationActive (field pg)
  /\ (animationActive (field pg) && canvas (field pg) && ctx (field pg) = false ->
      snd (callDrawParticles proj pg) = []).
Proof.
  unfold callDrawParticles.
  destruct (drawParticles_requests proj (field pg)) as (Ha & Hn & He).
  destruct (drawParticles proj (field pg)) as [st calls]. cbn in *.
  rewrite Hn. split; [reflexivity|]. split; [exact Ha|].
  intros G. rewrite (He G). reflexivity.
Qed.

(** What entering a step does to the animation. *)
Lemma handleStepEnter_animation (proj : projector) (r : response) (pg : page) :
  let pg' := fst (handleStepEnter topDestinations proj r pg) in
  if Z.eqb (index r) 0 then
    animationActive (field pg') = true
    /\ pendingFrames pg'
       = (pendingFrames pg
          + if negb (animationActive (field pg))
               && canvas (field pg) && ctx (field pg)
            then 1 else 0)%nat
  else
    animationActive (field pg') = animationActive (field pg)
    /\ pendingFrames pg' = pendingFrames pg.
Proof.
  cbv zeta. unfold handleStepEnter.
  destruct (Z.eqb (index r) 0) eqn:E0.
  - cbn [field withActiveStep].
    destruct (animationActive (field pg)) eqn:Ea.
    + open_handlers. cbn. split_cases; cbn; rewrite ?Ea, ?Nat.add_0_r; auto.
    + destruct (callDrawParticles_spec proj
                  (withField (withAnimationActive true (field pg))
                     (withActiveStep (Some (index r)) pg))) as (Hp & Hact & _).
      destruct (callDrawParticles proj _) as [pg1 drawn]. cbn in Hp, Hact.
      open_handlers. cbn. split_cases; cbn; auto.
  - open_handlers. cbn. split_cases; cbn;
      rewrite ?filter_animationActive; cbn; auto.
Qed.

Lemma handle_loops (ev : event) (pg : page) :
  loops pg ->
  loops (fst (handle missing topDestinations ev pg))
  /\ Forall (fun _ => True) (snd (handle missing topDestinations ev pg)).
Proof.
  unfold loops. intros [Hle Hoff].
  split; [|apply Forall_forall; auto].
  destruct ev; try solve [open_handlers; cbn; split_cases;
                          rewrite ? filter_animationActive; cbn; auto].
  - cbn [handle]. pose proof (handleStepEnter_animation proj r pg) as Hs.
    cbv zeta in Hs. destruct (Z.eqb (index r) 0).
    + destruct Hs as [-> ->].
      destruct (animationActive (field pg)) eqn:Ea; cbn.
      * rewrite Nat.add_0_r. split; [exact Hle|discriminate].
      * rewrite (Hoff eq_refl). split; [|discriminate].
        destruct (canvas (field pg) && ctx (field pg)); cbn; lia.
    + destruct Hs as [-> ->]. auto.
  - cbn [handle]. unfold onFrame. destruct (pendingFrames pg) as [|n] eqn:En.
    + cbn. rewrite En. auto.
    + destruct (callDrawParticles_spec proj (withPendingFrames n pg))
        as (Hp & Hact & _).
      cbn in Hp, Hact. rewrite Hp, Hact.
      destruct (animationActive (field pg)) eqn:Ea.
      * split; [|discriminate]. cbn [andb].
        destruct (canvas (field pg) && ctx (field pg)); lia.
      * specialize (Hoff eq_refl). discriminate.
Qed.

(** The animation has at most one loop.  After any sequence of events of the
    page at most one callback of [drawParticles] waits for a frame, and none
    while [animationActive] is false. *)
Theorem animation_has_one_loop (evs : list event) :
  (pendingFrames (fst (run missing topDestinations evs initialPage))
   <= if animationActive (field (fst (run missing topDestinations evs initialPage)))
      then 1 else 0)%nat.
Proof.
  assert (Hinit : loops initialPage) by (unfold loops; cbn; auto).
  destruct (run_invariant loops (fun _ => True) handle_loops evs
              initialPage Hinit) as [[Hle Hoff] _].
  destruct (animationActive _); [exact Hle|].
  rewrite (Hoff eq_refl). constructor.
Qed.

Lemma handle_stalled (ev : event) (pg : page) :
  stalled pg ->
  stalled (fst (handle missing topDestinations ev pg))
  /\ Forall notCanvas (snd (handle missing topDestinations ev pg)).
Proof.
  unfold stalled. intros [Ha Hp].
  destruct ev; open_handlers; cbn; rewrite ?Ha, ?Hp; cbn; split_cases;
    rewrite ?filter_animationActive; cbn;
    try solve [intuition (try congruence); calls_ok].
Qed.

Lemma handleStepEnter_stalls (proj : projector) (r : response) (pg : page) :
  index r = 0%Z ->
  animationActive (field pg) = false ->
  canvas (field pg) && ctx (field pg) = false ->
  Forall notCanvas (snd (handleStepEnter topDestinations proj r pg)).
Proof.
  intros Hi Ha Hc. unfold handleStepEnter. rewrite Hi. cbn [Z.eqb].
  cbn [field withActiveStep]. rewrite Ha.
  destruct (callDrawParticles_spec proj
              (withField (withAnimationActive true (field pg))
                 (withActiveStep (Some 0%Z) pg))) as (_ & _ & Hd).
  cbn in Hd. specialize (Hd Hc).
  destruct (callDrawParticles proj _) as [pg1 drawn]. cbn in Hd. subst drawn.
  open_handlers. cbn. split_cases; calls_ok.
Qed.

(** The animation needs the canvas when the first step is entered.  If step
    0 is entered while [animationActive] is false and the canvas or its
    context is missing, the flag is set and the loop is not started; from
    then on nothing starts it: whatever happens afterwards (the map loads,
    the canvas is made, step 0 is entered again, frames come), the canvas
    is never drawn on. *)
Theorem animation_needs_the_canvas_at_step_zero (evs0 evs1 : list event)
  (proj : projector) (r : response) :
  index r = 0%Z ->
  animationActive (field (fst (run missing topDestinations evs0 initialPage)))
  = false ->
  canvas (field (fst (run missing topDestinations evs0 initialPage)))
  && ctx (field (fst (run missing topDestinations evs0 initialPage))) = false ->
  Forall notCanvas
    (snd (run missing topDestinations (StepEnter proj r :: evs1)
            (fst (run missing topDestinations evs0 initialPage)))).
Proof.
  set (pg := fst (run missing topDestinations evs0 initialPage)).
  intros Hi Ha Hc.
  assert (Hinit : loops initialPage) by (unfold loops; cbn; auto).
  destruct (run_invariant loops (fun _ => True) handle_loops evs0
              initialPage Hinit) as [[_ Hoff] _].
  fold pg in Hoff. specialize (Hoff Ha).
  cbn [run handle].
  pose proof (handleStepEnter_stalls proj r pg Hi Ha Hc) as Hcalls.
  pose proof (handleStepEnter_animation proj r pg) as Hs. cbv zeta in Hs.
  rewrite Hi in Hs. cbn [Z.eqb] in Hs. destruct Hs as [Hact Hpend].
  rewrite Ha, Hoff in Hpend. cbn [negb andb] in Hpend. rewrite Hc in Hpend.
  destruct (handleStepEnter topDestinations proj r pg) as [pg1 calls].
  cbn [fst snd] in *.
  destruct (run_invariant stalled notCanvas handle_stalled evs1 pg1
              (conj Hact Hpend)) as [_ Hmore].
  destruct (run missing topDestinations evs1 pg1) as [pg2 more].
  cbn [snd] in *. apply Forall_app. split; assumption.
Qed.

(** *** The highlighted country *)

Lemma handle_highlighted (ev : event) (pg : page) :
  highlighted pg ->
  highlighted (fst (handle missing topDestinations ev pg))
  /\ Forall (fun _ => True) (snd (handle missing topDestinations ev pg)).
Proof.
  unfold highlighted. intros Hh.
  split; [|apply Forall_forall; auto].
  destruct ev;
    try solve [open_handlers; cbn; split_cases; cbn; exact Hh].
  - cbn [handle fst]. unfold onCountryMouseMove.
    destruct (countriesActive pg); cbn [negb]; [|exact Hh].
    destruct featureName as [c|]; [|exact Hh].
    assert (Hcore : forall id,
              lookup id
                (assign c true
                   match hoveredCountryName pg with
                   | Some h => if negb (String.eqb h c)
                               then assign h false (hover pg) else hover pg
                   | None => hover pg
                   end) = Some true
              <-> Some c = Some id).
    { intros id. destruct (string_dec id c) as [->|Hne].
      - rewrite lookup_assign_same. split; reflexivity.
      - rewrite lookup_assign_other by exact Hne.
        split; [|congruence]. intros Hl. exfalso.
        destruct (hoveredCountryName pg) as [h|] eqn:Eh.
        + destruct (String.eqb h c) eqn:Ehc; cbn [negb] in Hl.
          * apply String.eqb_eq in Ehc. subst h.
            apply Hh in Hl. congruence.
          * destruct (string_dec id h) as [->|Hnh].
            -- rewrite lookup_assign_same in Hl. discriminate.
            -- rewrite lookup_assign_other in Hl by exact Hnh.
               apply Hh in Hl. congruence.
        + apply Hh in Hl. discriminate. }
    unfold setHover. cbn.
    destruct (hoveredCountryName pg) as [h|]; cbn;
      [destruct (negb (String.eqb h c)); cbn|];
      split_cases; exact Hcore.
  - cbn [handle fst]. unfold onCountryMouseLeave.
    assert (Hcore : forall id,
              lookup id
                match hoveredCountryName pg with
                | Some h => assign h false (hover pg)
                | None => hover pg
                end = Some true
              <-> None = Some id).
    { intros id. split; [|discriminate]. intros Hl. exfalso.
      destruct (hoveredCountryName pg) as [h|] eqn:Eh.
      - destruct (string_dec id h) as [->|Hnh].
        + rewrite lookup_assign_same in Hl. discriminate.
        + rewrite lookup_assign_other in Hl by exact Hnh.
          apply Hh in Hl. congruence.
      - apply Hh in Hl. discriminate. }
    unfold setHover. cbn.
    destruct (hoveredCountryName pg) as [h|] eqn:Eh; cbn; rewrite ?Eh;
      split_cases; rewrite ?Eh; exact Hcore.
Qed.

(** One country at most is highlighted, the one under the pointer.  After
    any sequence of events of the page, the feature state [hover] is true
    for a country exactly when it is [hoveredCountryName]. *)
Theorem hovered_country_is_the_highlighted_one (evs : list event) (id : string) :
  lookup id (hover (fst (run missing topDestinations evs initialPage)))
  = Some true
  <-> hoveredCountryName (fst (run missing topDestinations evs initialPage))
      = Some id.
Proof.
  assert (Hinit : highlighted initialPage).
  { intros k. cbn. split; discriminate. }
  destruct (run_invariant highlighted (fun _ => True) handle_highlighted evs
              initialPage Hinit) as [Hh _].
  apply Hh.
Qed.

(** *** Hovering and clicking a country *)

Lemma filter_last (k1 k2 : filterKey) (st : state) :
  filterParticlesByDestination k2 (filterParticlesByDestination k1 st)
  = filterParticlesByDestination k2 st.
Proof.
  unfold filterParticlesByDestination.
  destruct (negb (canvas st) || negb (ctx st)
            || Nat.eqb (List.length (particles st)) 0) eqn:G.
  - now rewrite G.
  - cbn [canvas ctx particles animationActive selectedCountryName].
    rewrite length_map, G. f_equal. rewrite map_map. apply map_ext.
    intros p. apply applyKey_last.
Qed.

Lemma filter_guard (st : state) :
  (forall key, filterParticlesByDestination key st = st)
  \/ (forall key,
        selectedCountryName (filterParticlesByDestination key st) = key).
Proof.
  unfold filterParticlesByDestination.
  destruct (negb (canvas st) || negb (ctx st)
            || Nat.eqb (List.length (particles st)) 0); auto.
Qed.

Lemma onCountryMouseMove_field (countryName : string) (pt : pixel) (pg : page) :
  countriesActive pg = true ->
  present (countryTooltip pg) = true ->
  field (onCountryMouseMove (Some countryName) pt pg)
  = filterParticlesByDestination
      match getDestinationDataForCountry COUNTRY_NAME_MAPPING
              (countryRemovalData pg) countryName with
      | Some destData => Key (ddestination destData)
      | None => Null
      end (field pg).
Proof.
  intros Hact Htip. unfold onCountryMouseMove, setHover.
  rewrite Hact. cbn.
  destruct (hoveredCountryName pg) as [h|];
    [destruct (negb (String.eqb h countryName))|]; cbn;
    destruct (countryTooltip pg); try discriminate;
    destruct (getDestinationDataForCountry _ _ _); reflexivity.
Qed.

Lemma onCountryMouseLeave_field (pg : page) :
  field (onCountryMouseLeave pg)
  = filterParticlesByDestination
      match selectedCountryName (field pg) with
      | Key selected => Key selected
      | _ => Undefined
      end (field pg).
Proof.
  unfold onCountryMouseLeave, setHover. cbn.
  destruct (hoveredCountryName pg); cbn; destruct (countryTooltip pg); cbn;
    destruct (selectedCountryName (field pg)); reflexivity.
Qed.

(** A hover selects as a click does.  Over a country of the active layer,
    the country and the cached destinations having ordinary names, moving
    the pointer leaves the particles and the selected country as a click
    leaves them.  So the filter of a hover outlives the pointer: when the
    country has data, leaving it changes nothing in the field; only when it
    has none does leaving restore the unfiltered field. *)
Theorem hover_selects_like_a_click (pg : page) (countryName : string)
  (pt : pixel) :
  ordinaryName countryName = true ->
  ordinaryKeys (countryRemovalData pg) = true ->
  countriesActive pg = true ->
  present (countryTooltip pg) = true ->
  field (onCountryMouseMove (Some countryName) pt pg)
  = field (fst (onCountryClick (Some countryName) pg))
  /\ field (onCountryMouseLeave (onCountryMouseMove (Some countryName) pt pg))
     = match getDestinationDataForCountry COUNTRY_NAME_MAPPING
               (countryRemovalData pg) countryName with
       | Some _ => field (onCountryMouseMove (Some countryName) pt pg)
       | None => filterParticlesByDestination Undefined (field pg)
       end.
Proof.
  intros _ _ Hact Htip. split.
  - rewrite (onCountryMouseMove_field _ _ _ Hact Htip).
    unfold onCountryClick. rewrite Hact. cbn [negb].
    destruct (getDestinationDataForCountry _ _ _); reflexivity.
  - rewrite onCountryMouseLeave_field.
    rewrite (onCountryMouseMove_field _ _ _ Hact Htip).
    rewrite filter_last.
    destruct (filter_guard (field pg)) as [Hidle|Hsel].
    + rewrite !Hidle. destruct (getDestinationDataForCountry _ _ _); reflexivity.
    + rewrite Hsel.
      destruct (getDestinationDataForCountry _ _ _); reflexivity.
Qed.

End Page.

Lemma animation_needs_the_canvas_at_step_zero_witness :
  Forall Removal.notCanvas
    (snd (Removal.run "undefined" []
            [Removal.StepEnter Sample.plainProjector Sample.firstStep;
             Removal.MapLoaded true;
             Removal.FlowsLoaded Sample.halves (Some Sample.scenario);
             Removal.StepEnter Sample.plainProjector Sample.firstStep;
             Removal.Frame Sample.plainProjector]
            (fst (Removal.run "undefined" [] [] Removal.initialPage)))).
Proof.
  apply (animation_needs_the_canvas_at_step_zero "undefined" [] []);
    reflexivity.
Defined.

Lemma hover_selects_like_a_click_witness :
  Removal.field
    (Removal.onCountryMouseLeave
       (Removal.onCountryMouseMove (Some "Mexico"%string) Sample.pointer
          Sample.explored))
  = Removal.field
      (Removal.onCountryMouseMove (Some "Mexico"%string) Sample.pointer
         Sample.explored).
Proof.
  exact (proj2 (hover_selects_like_a_click Sample.explored "Mexico"
                  Sample.pointer eq_refl eq_refl eq_refl eq_refl)).
Defined.

(* --------------------------------------------------------------------- *)
(** ** The detention counter                                              *)
(* --------------------------------------------------------------------- *)

Section Counter.
Import Detention.
Variable who : person.
Variable pth : list place.
Hypothesis Hpath : path who = Some pth.
Hypothesis Hlen : (2 <= List.length pth)%nat.

Lemma update_visible (dt : Q) (point : animatedPoint) :
  visible (updateAnimatedPoint dt (Some who) point) = visible point.
Proof.
  unfold updateAnimatedPoint. destruct (visible point) eqn:Hv; simpl;
    [|exact Hv].
  rewrite Hpath.
  destruct (Z.ltb (Z.of_nat (List.length pth)) 2); [exact Hv|].
  destruct (Qle_bool 1 (pointProgress point + SEGMENT_ANIMATION_SPEED));
    [|reflexivity].
  destruct (Z.leb (Z.of_nat (List.length pth) - 1) (currentSegment point + 1));
    reflexivity.
Qed.

Lemma journey_in_bounds (deltas : list Q) (point : animatedPoint) :
  visible point = true ->
  (0 <= currentSegment point <= Z.of_nat (List.length pth) - 2)%Z ->
  visible (updates (Some who) deltas point) = true
  /\ (0 <= currentSegment (updates (Some who) deltas point)
      <= Z.of_nat (List.length pth) - 2)%Z.
Proof.
  revert point. induction deltas as [|dt rest IH]; intros point Hv Hb.
  - simpl. auto.
  - simpl. apply IH.
    + now rewrite update_visible.
    + now apply (update_segment_bounded who pth Hpath).
Qed.

Lemma facility_step (dt : Q) (point : animatedPoint) :
  visible point = true ->
  (0 <= currentSegment point <= Z.of_nat (List.length pth) - 2)%Z ->
  (currentFacilityIndex pth point
   <= currentFacilityIndex pth (updateAnimatedPoint dt (Some who) point)
   <= currentFacilityIndex pth point + 1)%Z.
Proof.
  intros Hv Hb. unfold updateAnimatedPoint. rewrite Hv, Hpath. cbn [negb].
  replace (Z.ltb (Z.of_nat (List.length pth)) 2) with false
    by (symmetry; apply Z.ltb_ge; lia).
  unfold currentFacilityIndex, JS.Qltb.
  destruct (Qle_bool 1 (pointProgress point + SEGMENT_ANIMATION_SPEED)) eqn:E1.
  - apply Qle_bool_iff in E1.
    assert (Hhalf : Qle_bool (1 # 2) (pointProgress point) = true).
    { apply Qle_bool_iff. unfold SEGMENT_ANIMATION_SPEED in E1. lra. }
    rewrite Hhalf. cbn [negb].
    destruct (Z.leb (Z.of_nat (List.length pth) - 1) (currentSegment point + 1))
      eqn:E2; cbn [currentSegment pointProgress].
    + apply Z.leb_le in E2.
      change (Qle_bool (1 # 2) 1) with true. cbn [negb]. lia.
    + apply Z.leb_gt in E2.
      change (Qle_bool (1 # 2) 0) with false. cbn [negb]. lia.
  - cbn [currentSegment pointProgress].
    destruct (Qle_bool (1 # 2) (pointProgress point)) eqn:E3; cbn [negb].
    + assert (Hnext : Qle_bool (1 # 2)
                        (pointProgress point + SEGMENT_ANIMATION_SPEED) = true).
      { apply Qle_bool_iff. apply Qle_bool_iff in E3.
        unfold SEGMENT_ANIMATION_SPEED. lra. }
      rewrite Hnext. cbn [negb]. lia.
    + destruct (Qle_bool (1 # 2)
                  (pointProgress point + SEGMENT_ANIMATION_SPEED));
        cbn [negb]; lia.
Qed.

(** The counter follows the journey.  For a person with at least two
    facilities whose animation was started by [startPersonAnimation], after
    any number of frames the counter element receives a text: the number of
    the detention lies between 1 and the number of facilities, and the name
    is that of the facility with this number.  The number starts at 1, a
    frame never lowers it and raises it by at most one, and at the
    destination it is the number of facilities. *)
Theorem counter_follows_the_journey (deltas : list Q) (p0 : animatedPoint)
  (dt : Q) (shown : option counterText) :
  let point := updates (Some who) deltas (startPersonAnimation p0) in
  let k := currentFacilityIndex pth point in
  (0 <= k <= Z.of_nat (List.length pth) - 1)%Z
  /\ (exists facility,
        itemAt k pth = Some facility
        /\ updateCounter (Some who) point (Element shown)
           = Element (Some {| currentDetention := k + 1;
                              totalDetentions := Z.of_nat (List.length pth);
                              facilityName := facility_name facility |}))
  /\ (k <= currentFacilityIndex pth (updateAnimatedPoint dt (Some who) point)
      <= k + 1)%Z
  /\ (atDestination pth point -> (k + 1)%Z = Z.of_nat (List.length pth))
  /\ (deltas = [] -> k = 0%Z).
Proof.
  cbv zeta.
  destruct (journey_in_bounds deltas (startPersonAnimation p0)) as [Hv Hb].
  { reflexivity. }
  { cbn. lia. }
  set (point := updates (Some who) deltas (startPersonAnimation p0)) in *.
  assert (Hk : (0 <= currentFacilityIndex pth point
                <= Z.of_nat (List.length pth) - 1)%Z).
  { unfold currentFacilityIndex.
    destruct (JS.Qltb (pointProgress point) (1 # 2)); lia. }
  split; [exact Hk|]. split; [|split; [|split]].
  - destruct (nth_error pth (Z.to_nat (currentFacilityIndex pth point)))
      as [facility|] eqn:En.
    + exists facility. unfold itemAt, updateCounter.
      rewrite Hv, Hpath. cbn [negb]. unfold itemAt.
      replace (Z.ltb (currentFacilityIndex pth point) 0) with false
        by (symmetry; apply Z.ltb_ge; lia).
      rewrite En. split; reflexivity.
    + exfalso. apply nth_error_None in En. lia.
  - now apply facility_step.
  - intros [Hseg Hprog]. unfold currentFacilityIndex, JS.Qltb.
    rewrite Hprog, Hseg. change (Qle_bool (1 # 2) 1) with true. cbn [negb]. lia.
  - intros Hd. subst point. rewrite Hd. reflexivity.
Qed.

End Counter.

Lemma counter_follows_the_journey_witness :
  Detention.updateCounter (Some Sample.traveller)
    (Detention.updates (Some Sample.traveller) [16; 17; 16]
       (Detention.startPersonAnimation Sample.arrived))
    (Detention.Element None)
  = Detention.Element
      (Some {| Detention.currentDetention := 1;
               Detention.totalDetentions := 3;
               Detention.facilityName :=
                 Detention.facility_name Sample.Chicago |}).
Proof.
  destruct (counter_follows_the_journey Sample.traveller
              [Sample.Chicago; Sample.ElPaso; Sample.Alexandria]
              eq_refl ltac:(simpl; lia) [16; 17; 16] Sample.arrived 16 None)
    as (_ & (facility & Hf & Hc) & _).
  injection Hf as <-. exact Hc.
Defined.

(* --------------------------------------------------------------------- *)
(** ** The box of a journey                                               *)
(* --------------------------------------------------------------------- *)

Section Box.
Import Detention.
Variable missingNumber : JS.jsnum.

Lemma widen_fold (pth : list place) :
  forallb located pth = true ->
  forall w s e n : Q,
  exists w' s' e' n' : Q,
    fold_left (widen missingNumber) (map (fun p => (lon p, lat p)) pth)
      ((JS.Fin w, JS.Fin s), (JS.Fin e, JS.Fin n))
    = ((JS.Fin w', JS.Fin s'), (JS.Fin e', JS.Fin n'))
    /\ (w' <= w /\ s' <= s /\ e <= e' /\ n <= n')
    /\ (forall p x y, In p pth -> lon p = Some x -> lat p = Some y ->
          w' <= x /\ x <= e' /\ s' <= y /\ y <= n')
    /\ (w' = w \/ exists p, In p pth /\ lon p = Some w')
    /\ (s' = s \/ exists p, In p pth /\ lat p = Some s')
    /\ (e' = e \/ exists p, In p pth /\ lon p = Some e')
    /\ (n' = n \/ exists p, In p pth /\ lat p = Some n').
Proof.
  induction pth as [|p rest IH]; intros Hall w s e n.
  - exists w, s, e, n. simpl. split; [reflexivity|].
    split; [repeat split; apply Qle_refl|].
    split; [intros q x y []|]. auto.
  - simpl in Hall. apply andb_prop in Hall. destruct Hall as [Hp Hrest].
    unfold located in Hp.
    destruct (lon p) as [x0|] eqn:Hx; [|discriminate].
    destruct (lat p) as [y0|] eqn:Hy; [|discriminate].
    cbn [map fold_left]. rewrite Hx, Hy. unfold widen at 2.
    cbn [fst snd JS.toNumber JS.min JS.max].
    destruct (IH Hrest (if Qle_bool w x0 then w else x0)
                 (if Qle_bool s y0 then s else y0)
                 (if Qle_bool e x0 then x0 else e)
                 (if Qle_bool n y0 then y0 else n))
      as (w' & s' & e' & n' & Hfold & (Hw & Hs & He & Hn) & Hin
          & Aw & As & Ae & An).
    exists w', s', e', n'. split; [exact Hfold|].
    assert (Hmin : forall a b : Q,
              (if Qle_bool a b then a else b) <= a
              /\ (if Qle_bool a b then a else b) <= b).
    { intros a b. destruct (Qle_bool a b) eqn:E.
      - apply Qle_bool_iff in E. split; [apply Qle_refl|exact E].
      - split; [|apply Qle_refl].
        destruct (Qlt_le_dec b a) as [Hlt|Hle];
          [now apply Qlt_le_weak|].
        apply Qle_bool_iff in Hle. congruence. }
    assert (Hmax : forall a b : Q,
              a <= (if Qle_bool a b then b else a)
              /\ b <= (if Qle_bool a b then b else a)).
    { intros a b. destruct (Qle_bool a b) eqn:E.
      - apply Qle_bool_iff in E. split; [exact E|apply Qle_refl].
      - split; [apply Qle_refl|].
        destruct (Qlt_le_dec b a) as [Hlt|Hle];
          [now apply Qlt_le_weak|].
        apply Qle_bool_iff in Hle. congruence. }
    destruct (Hmin w x0) as [Hw1 Hw2]. destruct (Hmin s y0) as [Hs1 Hs2].
    destruct (Hmax e x0) as [He1 He2]. destruct (Hmax n y0) as [Hn1 Hn2].
    split.
    { repeat split; eapply Qle_trans; eauto. }
    split.
    { intros q x y [<-|Hq] Hqx Hqy.
      - rewrite Hx in Hqx. rewrite Hy in Hqy.
        injection Hqx as <-. injection Hqy as <-.
        repeat split; eapply Qle_trans; eauto.
      - apply (Hin q x y Hq Hqx Hqy). }
    repeat split.
    + destruct Aw as [->|(q & Hq & Hqx)].
      * destruct (Qle_bool w x0); [now left|].
        right. exists p. split; [now left|exact Hx].
      * right. exists q. split; [now right|exact Hqx].
    + destruct As as [->|(q & Hq & Hqy)].
      * destruct (Qle_bool s y0); [now left|].
        right. exists p. split; [now left|exact Hy].
      * right. exists q. split; [now right|exact Hqy].
    + destruct Ae as [->|(q & Hq & Hqx)].
      * destruct (Qle_bool e x0); [|now left].
        right. exists p. split; [now left|exact Hx].
      * right. exists q. split; [now right|exact Hqx].
    + destruct An as [->|(q & Hq & Hqy)].
      * destruct (Qle_bool n y0); [|now left].
        right. exists p. split; [now left|exact Hy].
      * right. exists q. split; [now right|exact Hqy].
Qed.

(** The camera is fitted to the smallest box around the journey.  For a
    person whose path is not empty and whose facilities all have both
    coordinates, [focusOnPerson] calls [fitBounds] with a box of finite
    numbers that contains every facility of the path and whose four sides
    each pass through one of them. *)
Theorem journey_box_is_tight (who : person) (pth : list place) :
  path who = Some pth ->
  (1 <= List.length pth)%nat ->
  forallb located pth = true ->
  exists west south east north : Q,
    focusOnPerson missingNumber true (Some who)
    = FitBounds ((JS.Fin west, JS.Fin south), (JS.Fin east, JS.Fin north))
    /\ (forall p x y, In p pth -> lon p = Some x -> lat p = Some y ->
          west <= x /\ x <= east /\ south <= y /\ y <= north)
    /\ (exists p, In p pth /\ lon p = Some west)
    /\ (exists p, In p pth /\ lat p = Some south)
    /\ (exists p, In p pth /\ lon p = Some east)
    /\ (exists p, In p pth /\ lat p = Some north).
Proof.
  intros Hpath Hne Hall. unfold focusOnPerson. rewrite Hpath. cbn [negb].
  destruct pth as [|first rest]; [simpl in Hne; lia|]. clear Hne.
  cbn [map].
  assert (Hfirst : located first = true).
  { simpl in Hall. now apply andb_prop in Hall. }
  unfold located in Hfirst.
  destruct (lon first) as [x0|] eqn:Hx; [|discriminate].
  destruct (lat first) as [y0|] eqn:Hy; [|discriminate].
  cbn [fst snd JS.toNumber].
  destruct (widen_fold (first :: rest) Hall x0 y0 x0 y0)
    as (w' & s' & e' & n' & Hfold & _ & Hin & Aw & As & Ae & An).
  cbn [map] in Hfold. rewrite Hx, Hy in Hfold.
  exists w', s', e', n'. split; [now rewrite Hfold|].
  split; [exact Hin|].
  repeat split.
  - destruct Aw as [->|Hex]; [|exact Hex]. exists first. split; [now left|exact Hx].
  - destruct As as [->|Hex]; [|exact Hex]. exists first. split; [now left|exact Hy].
  - destruct Ae as [->|Hex]; [|exact Hex]. exists first. split; [now left|exact Hx].
  - destruct An as [->|Hex]; [|exact Hex]. exists first. split; [now left|exact Hy].
Qed.

End Box.

Lemma journey_box_is_tight_witness :
  exists west south east north : Q,
    Detention.focusOnPerson JS.NaN true (Some Sample.traveller)
    = Detention.FitBounds
        ((JS.Fin west, JS.Fin south), (JS.Fin east, JS.Fin north))
    /\ (forall p x y,
          In p [Sample.Chicago; Sample.ElPaso; Sample.Alexandria] ->
          Detention.lon p = Some x -> Detention.lat p = Some y ->
          west <= x /\ x <= east /\ south <= y /\ y <= north)
    /\ (exists p, In p [Sample.Chicago; Sample.ElPaso; Sample.Alexandria]
                  /\ Detention.lon p = Some west)
    /\ (exists p, In p [Sample.Chicago; Sample.ElPaso; Sample.Alexandria]
                  /\ Detention.lat p = Some south)
    /\ (exists p, In p [Sample.Chicago; Sample.ElPaso; Sample.Alexandria]
                  /\ Detention.lon p = Some east)
    /\ (exists p, In p [Sample.Chicago; Sample.ElPaso; Sample.Alexandria]
                  /\ Detention.lat p = Some north).
Proof.
  apply (journey_box_is_tight JS.NaN Sample.traveller);
    [reflexivity|simpl; lia|reflexivity].
Defined.

(* --------------------------------------------------------------------- *)
(** ** Entering the steps of the detention narrative                      *)
(* --------------------------------------------------------------------- *)

Section Story.
Import Detention.
Variable missingNumber : JS.jsnum.
Variable detentionHighlights : list person.
Variable detentionStatistics : option (list (option location)).

Ltac enter_cases stepClass :=
  unfold onStepEnter;
  destruct (JS.includes "intro-step" stepClass);
  [|destruct (JS.includes "chicago-step" stepClass);
    [|destruct (JS.includes "facility1-step" stepClass);
      [|destruct (JS.includes "facility2-step" stepClass);
        [|destruct (JS.includes "story1-step" stepClass);
          [|destruct (JS.includes "story2-step" stepClass);
            [|destruct (JS.includes "reflection-step" stepClass);
              [|destruct (JS.includes "interactive-step" stepClass)]]]]]]].

Lemma updateAnimatedPoint_visible (dt : Q) (who : option person)
  (point : animatedPoint) :
  visible (updateAnimatedPoint dt who point) = visible point.
Proof.
  unfold updateAnimatedPoint. destruct (visible point) eqn:Hv; simpl;
    [|exact Hv].
  destruct who as [per|]; [|exact Hv].
  destruct (path per) as [pth|]; [|exact Hv].
  destruct (Z.ltb (Z.of_nat (List.length pth)) 2); [exact Hv|].
  destruct (Qle_bool 1 (pointProgress point + SEGMENT_ANIMATION_SPEED));
    [|reflexivity].
  destruct (Z.leb (Z.of_nat (List.length pth) - 1) (currentSegment point + 1));
    reflexivity.
Qed.

Lemma storyStep_inStep (ev : storyEvent) (st : story) :
  inStep st ->
  inStep (fst (storyStep missingNumber detentionHighlights
                 detentionStatistics ev st)).
Proof.
  unfold inStep. intros [H1 H2]. destruct ev as [stepClass|dt]; cbn [storyStep].
  - enter_cases stepClass; cbn;
      try (destruct (detentionAnimationActive st); cbn);
      try (unfold enableDetentionMapInteractions; cbn;
           destruct (detentionMap st); cbn);
      try (split; split; (discriminate || reflexivity));
      split; assumption.
  - cbn. rewrite !updateAnimatedPoint_visible. split; assumption.
Qed.

Lemma storyRun_inStep (evs : list storyEvent) (st : story) :
  inStep st ->
  inStep (fst (storyRun missingNumber detentionHighlights
                 detentionStatistics evs st)).
Proof.
  revert st. induction evs as [|ev evs IH]; intros st Hs; [exact Hs|].
  simpl. pose proof (storyStep_inStep ev st Hs) as Hs'.
  destruct (storyStep missingNumber detentionHighlights detentionStatistics
              ev st) as [st' calls].
  specialize (IH st' Hs').
  destruct (storyRun missingNumber detentionHighlights detentionStatistics
              evs st') as [st'' more].
  exact IH.
Qed.

(** At most one animated point is shown, that of the person highlighted.
    After any sequence of steps entered and frames of
    [updateAnimatedPoints], the point of the first person is visible
    exactly while [currentHighlight] is [person1], that of the second
    exactly while it is [person2]; the two are never visible together. *)
Theorem point_is_shown_while_highlighted (evs : list storyEvent) :
  let st := fst (storyRun missingNumber detentionHighlights
                   detentionStatistics evs initialStory) in
  (visible (person1 (points st)) = true <-> currentHighlight st = onPerson1)
  /\ (visible (person2 (points st)) = true <-> currentHighlight st = onPerson2)
  /\ visible (person1 (points st)) && visible (person2 (points st)) = false.
Proof.
  cbv zeta.
  assert (Hinit : inStep initialStory).
  { unfold inStep. cbn. split; split; discriminate. }
  destruct (storyRun_inStep evs initialStory Hinit) as [H1 H2].
  split; [exact H1|]. split; [exact H2|].
  destruct (visible (person1 (points _))) eqn:V1; [|reflexivity].
  destruct (visible (person2 (points _))) eqn:V2; [|reflexivity].
  pose proof (proj1 H1 eq_refl) as E1. pose proof (proj1 H2 eq_refl) as E2.
  congruence.
Qed.

Lemma storyStep_started (ev : storyEvent) (st : story) :
  (List.length (filter isDrawDetentionParticles
                  (snd (storyStep missingNumber detentionHighlights
                          detentionStatistics ev st)))
   + (if detentionAnimationActive st then 1 else 0)
   = if detentionAnimationActive
          (fst (storyStep missingNumber detentionHighlights
                  detentionStatistics ev st))
     then 1 else 0)%nat.
Proof.
  destruct ev as [stepClass|dt]; cbn [storyStep].
  - enter_cases stepClass; cbn;
      unfold flyToDetentionDefault, flyToFeatured, fitPerson,
        enableDetentionMapInteractions; cbn;
      repeat match goal with
             | |- context [match ?x with _ => _ end] =>
                 lazymatch x with
                 | context [match _ with _ => _ end] => fail
                 | _ => destruct x eqn:?
                 end; cbn
             end; try reflexivity; try congruence.
  - cbn. reflexivity.
Qed.

(** The handler starts the animation once.  In any sequence of steps
    entered and frames, [drawDetentionParticles] is called by the handler
    exactly once if [detentionAnimationActive] is set at the end, and not
    at all otherwise. *)
Theorem detention_animation_is_started_once (evs : list storyEvent) :
  List.length
    (filter isDrawDetentionParticles
       (snd (storyRun missingNumber detentionHighlights detentionStatistics
               evs initialStory)))
  = if detentionAnimationActive
         (fst (storyRun missingNumber detentionHighlights detentionStatistics
                 evs initialStory))
    then 1%nat else 0%nat.
Proof.
  assert (Hgen : forall st,
            (List.length
               (filter isDrawDetentionParticles
                  (snd (storyRun missingNumber detentionHighlights
                          detentionStatistics evs st)))
             + (if detentionAnimationActive st then 1 else 0)
             = if detentionAnimationActive
                    (fst (storyRun missingNumber detentionHighlights
                            detentionStatistics evs st))
               then 1 else 0)%nat).
  { induction evs as [|ev evs IH]; intros st; [reflexivity|].
    simpl. pose proof (storyStep_started ev st) as Hs.
    destruct (storyStep missingNumber detentionHighlights detentionStatistics
                ev st) as [st' calls].
    specialize (IH st').
    destruct (storyRun missingNumber detentionHighlights detentionStatistics
                evs st') as [st'' more].
    cbn [fst snd] in *. rewrite filter_app, length_app. lia. }
  specialize (Hgen initialStory). cbn [initialStory detentionAnimationActive] in Hgen.
  lia.
Qed.

Lemma storyStep_stopped (ev : storyEvent) (st : story) :
  notIntro ev = true ->
  stopBackgroundParticles st = true ->
  stopBackgroundParticles
    (fst (storyStep missingNumber detentionHighlights detentionStatistics
            ev st)) = true.
Proof.
  intros Hn Hs. destruct ev as [stepClass|dt]; cbn [storyStep].
  - cbn in Hn. apply negb_true_iff in Hn. unfold onStepEnter. rewrite Hn.
    repeat match goal with
           | |- context [if ?b then _ else _] => destruct b; cbn
           end;
      unfold enableDetentionMapInteractions; cbn;
      try (destruct (detentionMap st); cbn); auto.
  - cbn. exact Hs.
Qed.

(** Only the intro step brings the background flows back.  Once
    [stopBackgroundParticles] is set, as the interactive step sets it, it
    stays set through any steps entered that are not an intro step and any
    frames, and the particle pass of a frame then leaves the particles as
    they are and draws nothing. *)
Theorem background_flows_wait_for_the_intro `{Turf} (evs : list storyEvent)
  (st : story) (proj : projector) (ps : list particle) :
  stopBackgroundParticles st = true ->
  forallb notIntro evs = true ->
  stopBackgroundParticles
    (fst (storyRun missingNumber detentionHighlights detentionStatistics
            evs st)) = true
  /\ backgroundPass proj
       (stopBackgroundParticles
          (fst (storyRun missingNumber detentionHighlights detentionStatistics
                  evs st))) ps
     = (ps, []).
Proof.
  intros Hs Hall.
  assert (Hstop : stopBackgroundParticles
                    (fst (storyRun missingNumber detentionHighlights
                            detentionStatistics evs st)) = true).
  { revert st Hs. induction evs as [|ev evs IH]; intros st Hs; [exact Hs|].
    simpl in Hall. apply andb_prop in Hall. destruct Hall as [Hev Hrest].
    simpl. pose proof (storyStep_stopped ev st Hev Hs) as Hs'.
    destruct (storyStep missingNumber detentionHighlights detentionStatistics
                ev st) as [st' calls].
    specialize (IH Hrest st' Hs').
    destruct (storyRun missingNumber detentionHighlights detentionStatistics
                evs st') as [st'' more].
    exact IH. }
  split; [exact Hstop|]. rewrite Hstop. reflexivity.
Qed.

End Story.

Lemma background_flows_wait_for_the_intro_witness :
  Detention.backgroundPass Sample.plainProjector
    (Detention.stopBackgroundParticles
       (fst (Detention.storyRun JS.NaN [Sample.traveller] None
               Sample.scrolledBack Sample.exploring)))
    [Sample.fromSeattle]
  = ([Sample.fromSeattle], []).
Proof.
  apply (background_flows_wait_for_the_intro JS.NaN [Sample.traveller] None
           Sample.scrolledBack Sample.exploring);
    reflexivity.
Defined.

(* --------------------------------------------------------------------- *)
(** ** The statistics of the facilities                                   *)
(* --------------------------------------------------------------------- *)

Section Facilities.
Import Detention.
Variable missing : string.


















End Facilities.


(* --------------------------------------------------------------------- *)
(** ** The colours of the migration icons                                 *)
(* --------------------------------------------------------------------- *)

Section Icons.
Import Migration.

Lemma fold_max_ge (rest : list Z) :
  forall x, (x <= fold_left Z.max rest x)%Z
            /\ forall z, In z rest -> (z <= fold_left Z.max rest x)%Z.
Proof.
  induction rest as [|r rest IH]; intros x; cbn.
  - split; [lia|intros z []].
  - destruct (IH (Z.max x r)) as [Hx Hin]. split; [lia|].
    intros z [<-|Hz]; [lia|now apply Hin].
Qed.

Lemma previous_covers (migrationData : list period) (y : Z) (d : period) :
  In d migrationData -> (year d < y)%Z ->
  (iconCount d <= previousIconCount migrationData y)%Z.
Proof.
  intros Hin Hy. unfold previousIconCount.
  assert (Hf : In d (filter (fun e => Z.ltb (year e) y) migrationData)).
  { apply filter_In. split; [exact Hin|now apply Z.ltb_lt]. }
  destruct (filter (fun e => Z.ltb (year e) y) migrationData) as [|e rest];
    [contradiction|].
  cbn [map maxOf]. destruct (fold_max_ge (map iconCount rest) (iconCount e))
    as [He Hrest].
  destruct Hf as [<-|Hd]; [exact He|].
  apply Hrest. now apply in_map.
Qed.

Lemma found_in_order (migrationData : list period) (y : Z) (dataPoint : period) :
  ascendingYears migrationData = true ->
  find (fun d => Z.eqb (year d) y) migrationData = Some dataPoint ->
  exists before after,
    migrationData = before ++ dataPoint :: after
    /\ forall d, In d before -> (year d < y)%Z.
Proof.
  induction migrationData as [|d rest IH]; cbn; intros Hasc Hfind;
    [discriminate|].
  apply andb_prop in Hasc. destruct Hasc as [Hd Hrest].
  destruct (Z.eqb (year d) y) eqn:E.
  - injection Hfind as <-. exists [], rest. split; [reflexivity|intros e []].
  - destruct (IH Hrest Hfind) as (before & after & -> & Hbefore).
    exists (d :: before), after. split; [reflexivity|].
    intros e [<-|He]; [|now apply Hbefore].
    rewrite forallb_forall in Hd.
    assert (Hdp : In dataPoint (before ++ dataPoint :: after))
      by (apply in_elt).
    specialize (Hd _ Hdp). apply Z.ltb_lt in Hd.
    apply find_some in Hfind. destruct Hfind as [_ Hy].
    apply Z.eqb_eq in Hy. lia.
Qed.

Lemma find_after (q : period -> bool) (before after : list period)
  (dataPoint : period) :
  (forall d, In d before -> q d = false) -> q dataPoint = true ->
  find q (before ++ dataPoint :: after) = Some dataPoint.
Proof.
  intros Hb Hq. induction before as [|d before IH]; cbn.
  - now rewrite Hq.
  - rewrite (Hb d) by now left. apply IH. intros e He. apply Hb. now right.
Qed.

Lemma getPreviousColor_total (migrationData : list period) (i : Z) :
  migrationData <> [] -> exists c, getPreviousColor migrationData i = Some c.
Proof.
  intros Hne. unfold getPreviousColor.
  destruct (find _ migrationData) as [d|]; [eauto|].
  destruct (rev migrationData) as [|d rest] eqn:Er; [|eauto].
  apply (f_equal (@rev period)) in Er. rewrite rev_involutive in Er.
  contradiction.
Qed.

Lemma collect_all (f : nat -> option iconUpdate) (g : nat -> iconUpdate)
  (l : list nat) :
  (forall i, In i l -> f i = Some (g i)) ->
  collect (map f l) = Some (map g l).
Proof.
  induction l as [|i l IH]; intros Hall; cbn; [reflexivity|].
  rewrite (Hall i) by now left.
  rewrite IH by (intros j Hj; apply Hall; now right). reflexivity.
Qed.

(** An icon keeps the colour of the period in which it first appears.  When
    the years rise along [migrationData] and the year shown is among them,
    [updateMigrationViz] does not throw and updates every icon of the
    chart: an icon below the count of the year appears with the colour
    that [getPreviousColor] gives its index, whether it is new in this year
    or not, so its fill does not depend on the year shown; the others fade
    out. *)
Theorem icon_colours_are_settled (migrationData : list period) (icons : nat)
  (y : Z) (dataPoint : period) :
  ascendingYears migrationData = true ->
  find (fun d => Z.eqb (year d) y) migrationData = Some dataPoint ->
  exists updates,
    updateMigrationViz (Some icons) migrationData y = Updated updates
    /\ List.length updates = icons
    /\ forall i u, nth_error updates i = Some u ->
         if Z.ltb (Z.of_nat i) (iconCount dataPoint)
         then exists fill duration delay,
                u = Appear fill duration delay
                /\ getPreviousColor migrationData (Z.of_nat i) = Some fill
         else u = FadeOut 300.
Proof.
  intros Hasc Hfind. unfold updateMigrationViz. rewrite Hfind.
  set (previous := previousIconCount migrationData y).
  set (g := fun i : nat =>
              if Z.ltb (Z.of_nat i) (iconCount dataPoint) then
                Appear match getPreviousColor migrationData (Z.of_nat i) with
                       | Some c => c
                       | None => EmptyString
                       end
                  (if Z.leb previous (Z.of_nat i) then 800 else 0)
                  (if Z.leb previous (Z.of_nat i)
                   then (Z.of_nat i - previous) * 20 else 0)
              else FadeOut 300).
  assert (Hne : migrationData <> []).
  { intros ->. discriminate. }
  assert (Hall : forall i,
            updateIcon migrationData dataPoint previous i = Some (g i)).
  { intros i. unfold updateIcon, g.
    destruct (Z.ltb (Z.of_nat i) (iconCount dataPoint)) eqn:Ei; [|reflexivity].
    destruct (Z.leb previous (Z.of_nat i)) eqn:En.
    - destruct (found_in_order _ _ _ Hasc Hfind)
        as (before & after & Hsplit & Hbefore).
      assert (Hc : getPreviousColor migrationData (Z.of_nat i)
                   = Some (color dataPoint)).
      { unfold getPreviousColor. rewrite Hsplit.
        rewrite find_after; [reflexivity| |exact Ei].
        intros d Hd. apply Z.ltb_ge.
        apply Z.leb_le in En.
        assert (Hp : (iconCount d <= previous)%Z).
        { apply previous_covers; [|now apply Hbefore].
          rewrite Hsplit. apply in_or_app. now left. }
        lia. }
      rewrite Hc. reflexivity.
    - destruct (getPreviousColor_total migrationData (Z.of_nat i) Hne)
        as [c Hc].
      rewrite Hc. reflexivity. }
  rewrite (collect_all _ g) by (intros i _; apply Hall).
  exists (map g (seq 0 icons)). split; [reflexivity|].
  split; [now rewrite length_map, length_seq|].
  intros i u Hu.
  rewrite nth_error_map in Hu.
  destruct (nth_error (seq 0 icons) i) as [j|] eqn:Ej; [|discriminate].
  assert (Hj : j = i).
  { assert (Hlt : (i < List.length (seq 0 icons))%nat)
      by (apply nth_error_Some; congruence).
    rewrite length_seq in Hlt.
    rewrite (nth_error_nth' _ 0%nat) in Ej by (now rewrite length_seq).
    rewrite seq_nth in Ej by exact Hlt. now injection Ej as <-. }
  subst j. cbn in Hu. injection Hu as <-. unfold g.
  destruct (Z.ltb (Z.of_nat i) (iconCount dataPoint)); [|reflexivity].
  destruct (getPreviousColor_total migrationData (Z.of_nat i) Hne) as [c Hc].
  rewrite Hc. exists c. eauto.
Qed.

End Icons.

Lemma icon_colours_are_settled_witness :
  exists updates,
    Migration.updateMigrationViz (Some 6%nat) Sample.eras 1950
    = Migration.Updated updates
    /\ List.length updates = 6%nat
    /\ forall i u, nth_error updates i = Some u ->
         if Z.ltb (Z.of_nat i) 4
         then exists fill duration delay,
                u = Migration.Appear fill duration delay
                /\ Migration.getPreviousColor Sample.eras (Z.of_nat i)
                   = Some fill
         else u = Migration.FadeOut 300.
Proof.
  apply (icon_colours_are_settled Sample.eras 6 1950
           {| Migration.year := 1950; Migration.iconCount := 4;
              Migration.color := "#2ca02c" |});
    reflexivity.
Defined.

(* --------------------------------------------------------------------- *)
(** ** A frame of the detention animation                                 *)
(* --------------------------------------------------------------------- *)

Section DetentionFrame.
Import Detention.
Context `{Turf}.

Lemma backgroundPass_plain (proj : projector) (stop : bool)
  (ps : list particle) :
  filter isNextFrame (map Plain (snd (backgroundPass proj stop ps))) = [].
Proof.
  unfold backgroundPass. destruct stop; [reflexivity|].
  induction ps as [|p ps IH]; [reflexivity|].
  cbn [forEachDraw]. unfold stepParticle at 1.
  destruct (forEachDraw (stepParticle proj) ps) as [rest drawnRest].
  cbn [snd] in *. rewrite map_app, filter_app, IH, app_nil_r.
  unfold draw.
  destruct (Qle_bool (startOffset (tick p)) (progress (tick p)));
    [|reflexivity].
  destruct (along _ _) as [c|]; [|reflexivity].
  destruct (proj c); reflexivity.
Qed.

Lemma charted_at (pth : list place) (i : Z) :
  forallb charted pth = true ->
  (0 <= i < Z.of_nat (List.length pth))%Z ->
  exists p la lo,
    itemAt i pth = Some p
    /\ JS.truthyNum (lat p) = Some la /\ JS.truthyNum (lon p) = Some lo.
Proof.
  intros Hall Hi. unfold itemAt.
  replace (Z.ltb i 0) with false by (symmetry; apply Z.ltb_ge; lia).
  destruct (nth_error pth (Z.to_nat i)) as [p|] eqn:En.
  - rewrite forallb_forall in Hall.
    pose proof (Hall p (nth_error_In _ _ En)) as Hp. unfold charted in Hp.
    destruct (JS.truthyNum (lat p)) as [la|] eqn:Ela; [|discriminate].
    destruct (JS.truthyNum (lon p)) as [lo|] eqn:Elo; [|discriminate].
    exists p, la, lo. repeat split; assumption.
  - apply nth_error_None in En. lia.
Qed.

Lemma drawAnimatedPoint_throws (proj : projector) (now : clock) (n i : nat)
  (who : person) (pth : list place) (point : animatedPoint) :
  path who = Some pth ->
  (2 <= List.length pth)%nat ->
  forallb charted pth = true ->
  visible point = true ->
  (0 <= currentSegment point <= Z.of_nat (List.length pth) - 2)%Z ->
  (forall c, proj c = None) ->
  drawAnimatedPoint proj now n i (Some who) point = None.
Proof.
  intros Hpath Hlen Hall Hv Hseg Hproj. unfold drawAnimatedPoint.
  rewrite Hv, Hpath. cbn [negb].
  replace (Z.ltb (Z.of_nat (List.length pth)) 2) with false
    by (symmetry; apply Z.ltb_ge; lia).
  replace (Z.leb (Z.of_nat (List.length pth) - 1) (currentSegment point))
    with false by (symmetry; apply Z.leb_gt; lia).
  destruct (charted_at pth (currentSegment point) Hall)
    as (start & slat & slon & -> & -> & ->); [lia|].
  destruct (charted_at pth (currentSegment point + 1) Hall)
    as (end_ & elat & elon & -> & -> & ->); [lia|].
  destruct (along _ _) as [c|]; [|reflexivity].
  now rewrite Hproj.
Qed.

(** An animated point that cannot be placed ends the animation.  In a frame
    that runs while the point of the first person is visible on a path of
    at least two facilities, all with coordinates, a projector that throws
    makes [drawAnimatedPoints] throw: the frame asks for no further frame,
    whatever the particle pass has caught before.  [detentionAnimationActive]
    remains set, so the intro step does not start the loop again. *)
Theorem animated_point_failure_ends_the_animation (proj : projector)
  (now : clock) (st : stage) (who : person) (pth : list place)
  (missingNumber : JS.jsnum)
  (detentionStatistics : option (list (option location))) :
  detentionAnimationActive (globals st) = true ->
  detentionCanvas st && detentionCtx st && detentionMap (globals st) = true ->
  nth_error (detentionHighlights st) 0 = Some who ->
  path who = Some pth ->
  (2 <= List.length pth)%nat ->
  forallb charted pth = true ->
  visible (person1 (points (globals st))) = true ->
  (0 <= currentSegment (person1 (points (globals st)))
   <= Z.of_nat (List.length pth) - 2)%Z ->
  (forall c, proj c = None) ->
  filter isNextFrame (snd (drawDetentionParticles proj now st)) = []
  /\ detentionAnimationActive
       (globals (fst (drawDetentionParticles proj now st))) = true
  /\ filter isDrawDetentionParticles
       (snd (onStepEnter missingNumber (detentionHighlights st)
               detentionStatistics "intro-step"
               (globals (fst (drawDetentionParticles proj now st))))) = [].
Proof.
  intros Hact Hsurface Hwho Hpath Hlen Hall Hv Hseg Hproj.
  apply andb_prop in Hsurface. destruct Hsurface as [Hcc Hmap].
  apply andb_prop in Hcc. destruct Hcc as [Hcan Hctx].
  assert (Hdraw : forall dt,
            drawAnimatedPoints proj now 1 true (detentionHighlights st)
              (updateAnimatedPoints dt (detentionHighlights st)
                 (points (globals st)))
            = Aborted (updateAnimatedPoints dt (detentionHighlights st)
                         (points (globals st))) []).
  { intros dt. unfold drawAnimatedPoints. cbn [negb].
    unfold updateAnimatedPoints at 1. cbn [person1]. rewrite Hwho.
    rewrite (drawAnimatedPoint_throws proj now 1 0 who pth); try assumption.
    - reflexivity.
    - rewrite (update_visible who pth Hpath). exact Hv.
    - now apply (update_segment_bounded who pth Hpath). }
  assert (Hframe :
    filter isNextFrame (snd (drawDetentionParticles proj now st)) = []
    /\ detentionAnimationActive
         (globals (fst (drawDetentionParticles proj now st))) = true).
  { unfold drawDetentionParticles.
    rewrite Hact, Hcan, Hctx, Hmap. cbn [negb orb andb].
    pose proof (backgroundPass_plain proj
                  (stopBackgroundParticles (globals st))
                  (detentionParticles st)) as Hbg.
    destruct (backgroundPass proj (stopBackgroundParticles (globals st))
                (detentionParticles st)) as [ps drawn].
    cbn [snd] in Hbg. rewrite Hdraw. cbn [fst snd]. split.
    - cbn [filter isNextFrame]. rewrite app_nil_r. exact Hbg.
    - cbn. exact Hact. }
  destruct Hframe as [Hnone Hstill]. split; [exact Hnone|].
  split; [exact Hstill|].
  unfold onStepEnter. cbn [JS.includes].
  change (JS.includes "intro-step" "intro-step") with true. cbv iota.
  cbn [detentionAnimationActive staged]. rewrite Hstill.
  unfold flyToDetentionDefault. cbn.
  destruct (detentionMap (globals (fst (drawDetentionParticles proj now st))));
    reflexivity.
Qed.

(** With both points hidden a frame goes on, whatever fails in the particle
    pass: it clears the canvas, draws the particles that can be placed, no
    firefly, and asks for the next frame. *)
Theorem frame_with_hidden_points_continues (proj : projector) (now : clock)
  (st : stage) :
  detentionAnimationActive (globals st) = true ->
  detentionCanvas st && detentionCtx st = true ->
  visible (person1 (points (globals st))) = false ->
  visible (person2 (points (globals st))) = false ->
  snd (drawDetentionParticles proj now st)
  = Plain ClearRect
    :: map Plain
         (snd (backgroundPass proj (stopBackgroundParticles (globals st))
                 (detentionParticles st)))
    ++ [Plain RequestAnimationFrame].
Proof.
  intros Hact Hcc Hv1 Hv2.
  apply andb_prop in Hcc. destruct Hcc as [Hcan Hctx].
  unfold drawDetentionParticles. rewrite Hact, Hcan, Hctx. cbn [negb orb andb].
  destruct (backgroundPass proj (stopBackgroundParticles (globals st))
              (detentionParticles st)) as [ps drawn].
  cbn [snd].
  assert (Hhid : forall dt who point i n,
            visible point = false ->
            drawAnimatedPoint proj now n i who
              (updateAnimatedPoint dt who point)
            = Some (updateAnimatedPoint dt who point, n, [])).
  { intros dt who point i n Hv. unfold drawAnimatedPoint, updateAnimatedPoint.
    rewrite Hv. cbn [negb]. rewrite Hv. reflexivity. }
  unfold drawAnimatedPoints, updateAnimatedPoints. cbn [person1 person2].
  destruct (detentionMap (globals st)); cbn [negb].
  - rewrite (Hhid _ _ _ _ _ Hv1), (Hhid _ _ _ _ _ Hv2). reflexivity.
  - reflexivity.
Qed.

End DetentionFrame.

Lemma animated_point_failure_ends_the_animation_witness :
  filter Detention.isNextFrame
    (snd (Detention.drawDetentionParticles Sample.brokenProjector
            Sample.millis Sample.atStory)) = [].
Proof.
  apply (animated_point_failure_ends_the_animation Sample.brokenProjector
           Sample.millis Sample.atStory Sample.traveller
           [Sample.Chicago; Sample.ElPaso; Sample.Alexandria] JS.NaN None);
    try reflexivity.
  - simpl. lia.
  - simpl. lia.
Defined.

Lemma frame_with_hidden_points_continues_witness :
  snd (Detention.drawDetentionParticles Sample.brokenProjector Sample.millis
         Sample.atIntro)
  = Detention.Plain ClearRect
    :: map Detention.Plain
         (snd (Detention.backgroundPass Sample.brokenProjector
                 (Detention.stopBackgroundParticles
                    (Detention.globals Sample.atIntro))
                 (Detention.detentionParticles Sample.atIntro)))
    ++ [Detention.Plain RequestAnimationFrame].
Proof.
  apply (frame_with_hidden_points_continues Sample.brokenProjector
           Sample.millis Sample.atIntro);
    reflexivity.
Defined.
